(** * go-vba: the streaming VBA decompressor of [vba.go]

    A shallow embedding of [VBAWriter] and its methods [carvVBA],
    [copyTokenHelp], [uncompressChunk], [uncompress] and [Write], the
    notions the specification of the decoder is stated with, and the
    properties of the decoder.

    Conventions of the embedding.
    - Go's [int] and [uint] values are [Z]; every value the code computes
      stays far below 2^63, the conversions to [uint16] and [uint] are
      written out ([u16], [uint]).
    - A [[]byte] is a [list byte]; the two buffers of a writer are lists of
      length [VBABuffSize].  Indexing and slicing outside the bounds of a
      slice is a run-time panic in Go: it is the outcome [Panic] here.
    - A method with result [(int, error)] that mutates its receiver returns
      the new receiver together with the pair; [None] is the [nil] error.
    - The underlying [io.Writer] is a type class; the sink [Log] records
      every write it receives.
    - The loops [for cond { ... }] take a fuel argument.  The fuel the
      callers pass suffices: on a writer of [NewWriter] no call ends in
      [OutOfFuel] ([uncompress_total], [Write_total], [writeAll_total]). *)

From Stdlib Require Import ZArith Lia.
From Stdlib.Strings Require Import Byte.
From stdpp Require Import base list.

Local Open Scope Z_scope.

(** ** Outcomes *)

Inductive outcome (A : Type) : Type :=
| Ret (a : A)
| Panic
| OutOfFuel.
Arguments Ret {A} a.
Arguments Panic {A}.
Arguments OutOfFuel {A}.

Definition obind {A B : Type} (m : outcome A) (k : A -> outcome B) : outcome B :=
  match m with
  | Ret a => k a
  | Panic => Panic
  | OutOfFuel => OutOfFuel
  end.

Notation "'let!' x ':=' m 'in' k" := (obind m (fun x => k))
  (at level 10, x pattern, m at level 200, k at level 200, only parsing).

(** The errors the package builds with [fmt.Errorf], and the error of the
    underlying writer. *)
Inductive error : Type :=
| ErrChunkSignature            (* "Chunk signature missmatch" *)
| ErrChunkSize                 (* "Uncompressed chunk size error" *)
| ErrShortWrite                (* "Short write to output stream" *)
| ErrNegativeCopySize (n : Z)  (* "Uncompress error: Negativ copy size: %d" *)
| ErrWriter.                   (* an error returned by [wr.Write] *)

(** ** Bytes, integers, slices *)

Definition byteZ (b : byte) : Z := Z.of_N (Byte.to_N b).

Definition u16 (x : Z) : Z := x mod 65536.
Definition uint (x : Z) : Z := x mod 18446744073709551616. (* 2^64 *)

(** [binary.LittleEndian.Uint16] of a two byte slice. *)
Definition le16 (b0 b1 : byte) : Z := Z.lor (byteZ b0) (Z.shiftl (byteZ b1) 8).

Definition len (l : list byte) : Z := Z.of_nat (length l).

(** [l[i]] as a value. *)
Definition index (l : list byte) (i : Z) : outcome byte :=
  if (0 <=? i) && (i <? len l) then
    match l !! Z.to_nat i with
    | Some b => Ret b
    | None => Panic
    end
  else Panic.

(** [l[i] = b]. *)
Definition store (l : list byte) (i : Z) (b : byte) : outcome (list byte) :=
  if (0 <=? i) && (i <? len l) then Ret (<[Z.to_nat i := b]> l) else Panic.

(** [l[lo:hi]] as a value; the slices of this package have their capacity
    equal to their length. *)
Definition slice (l : list byte) (lo hi : Z) : outcome (list byte) :=
  if (0 <=? lo) && (lo <=? hi) && (hi <=? len l)
  then Ret (take (Z.to_nat (hi - lo)) (drop (Z.to_nat lo) l))
  else Panic.

(** [copy(dst[lo:hi], src)]: the first [min (hi-lo) (len src)] bytes of
    [src] land at [dst[lo]]. *)
Definition copy_into (dst : list byte) (lo hi : Z) (src : list byte)
  : outcome (list byte) :=
  if (0 <=? lo) && (lo <=? hi) && (hi <=? len dst) then
    let n := Z.to_nat (Z.min (hi - lo) (len src)) in
    Ret (take (Z.to_nat lo) dst ++ take n src ++ drop (Z.to_nat lo + n) dst)
  else Panic.

(** ** The writer *)

Definition VBABuffSize : Z := 4098.

(** [io.Writer]: [Write] returns the new sink, the count and the error. *)
Class Writer (W : Type) : Type :=
  wr_Write : W -> list byte -> W * (Z * option error).

Record VBAWriter (W : Type) : Type := mkVBA {
  wr : W;
  compressedBuffer : list byte;
  uncompressedBuffer : list byte;
  cSize : Z;
  uSize : Z;
  marker_cur : Z;
  marker_found : bool
}.
Arguments mkVBA {W}.
Arguments wr {W}.
Arguments compressedBuffer {W}.
Arguments uncompressedBuffer {W}.
Arguments cSize {W}.
Arguments uSize {W}.
Arguments marker_cur {W}.
Arguments marker_found {W}.

Section Setters.
Context {W : Type}.
Implicit Type st : VBAWriter W.

Definition set_wr (w : W) st :=
  mkVBA w (compressedBuffer st) (uncompressedBuffer st) (cSize st) (uSize st)
        (marker_cur st) (marker_found st).
Definition set_compressedBuffer (b : list byte) st :=
  mkVBA (wr st) b (uncompressedBuffer st) (cSize st) (uSize st)
        (marker_cur st) (marker_found st).
Definition set_uncompressedBuffer (b : list byte) st :=
  mkVBA (wr st) (compressedBuffer st) b (cSize st) (uSize st)
        (marker_cur st) (marker_found st).
Definition set_cSize (n : Z) st :=
  mkVBA (wr st) (compressedBuffer st) (uncompressedBuffer st) n (uSize st)
        (marker_cur st) (marker_found st).
Definition set_uSize (n : Z) st :=
  mkVBA (wr st) (compressedBuffer st) (uncompressedBuffer st) (cSize st) n
        (marker_cur st) (marker_found st).
Definition set_marker_cur (n : Z) st :=
  mkVBA (wr st) (compressedBuffer st) (uncompressedBuffer st) (cSize st)
        (uSize st) n (marker_found st).
Definition set_marker_found (f : bool) st :=
  mkVBA (wr st) (compressedBuffer st) (uncompressedBuffer st) (cSize st)
        (uSize st) (marker_cur st) f.
End Setters.

(** [NewWriter]: both buffers are [make([]byte, VBABuffSize)]. *)
Definition NewWriter {W : Type} (w : W) : VBAWriter W :=
  mkVBA w (replicate (Z.to_nat VBABuffSize) x00)
        (replicate (Z.to_nat VBABuffSize) x00) 0 0 0 false.

(** ** copyTokenHelp *)

(** [math.Ceil(math.Log2(float64(difference)))] followed by
    [math.Max(b, 4.0)] and the conversion to [uint16].  [float64] holds the
    integers below 2^53 exactly, [math.Log2] is exact on the powers of two
    and its rounding error elsewhere is far below the distance of
    [log2 d] to the next integer for the [d] that fit a chunk, so the
    result is the integer ceiling of the logarithm.  At [difference = 0]
    the logarithm is [-Inf] and the maximum with 4.0 is 4.0. *)
Definition bitCountOf (difference : Z) : Z :=
  u16 (if difference =? 0 then 4 else Z.max (Z.log2_up difference) 4).

Definition copyTokenHelp (current chunkStart : Z) : Z * Z * Z * Z :=
  let difference := uint (current - chunkStart) in
  let bitCount := bitCountOf difference in
  let lengthMask := u16 (Z.shiftr 0xFFFF bitCount) in
  let offsetMask := Z.lxor lengthMask 0xFFFF in
  let maximumLength := u16 (Z.shiftr 0xFFFF bitCount + 3) in
  (lengthMask, offsetMask, bitCount, maximumLength).

(** ** uncompressChunk *)

(** The part of the receiver the token loops change, and the local
    [CompressedCurrent]. *)
Record dstate : Type := mkD {
  dCur : Z;             (* CompressedCurrent *)
  dBuf : list byte;     (* vba.uncompressedBuffer *)
  dSize : Z             (* vba.uSize *)
}.

(** [for index := copySource; index < copySource+length; index++] with
    body [uncompressedBuffer[uSize] = uncompressedBuffer[index]; uSize++];
    [n] is the number of iterations still to run. *)
Fixpoint copyLoop (n : nat) (idx : Z) (ubuf : list byte) (usz : Z)
  : outcome (list byte * Z) :=
  match n with
  | O => Ret (ubuf, usz)
  | S n' =>
      let! b := index ubuf idx in
      let! ubuf' := store ubuf usz b in
      copyLoop n' (idx + 1) ubuf' (usz + 1)
  end.

(** The length and the offset of a copy token read at [usz] decompressed
    bytes, as lines 245 to 249 compute them. *)
Definition tokenFields (copyToken usz chunkStart : Z) : Z * Z :=
  let '(lengthMask, offsetMask, bitCount, _) :=
    copyTokenHelp (uint usz) (uint chunkStart) in
  let length := u16 (Z.land copyToken lengthMask + 3) in
  let temp1 := Z.land copyToken offsetMask in
  let temp2 := u16 (16 - bitCount) in
  let offset := u16 (Z.shiftr temp1 temp2 + 1) in
  (length, offset).

(** The body of the loop over [bitIndex]. *)
Definition item (cbuf : list byte) (cend chunkStart : Z) (flagByte : byte)
    (bitIndex : Z) (s : dstate) : outcome dstate :=
  if dCur s <? cend then
    let flagBit := Z.land (Z.shiftr (byteZ flagByte) bitIndex) 1 in
    if flagBit =? 0 then
      let! b := index cbuf (dCur s) in
      let! ub := store (dBuf s) (dSize s) b in
      Ret (mkD (dCur s + 1) ub (dSize s + 1))
    else
      let! tok := slice cbuf (dCur s) (dCur s + 2) in
      match tok with
      | [t0; t1] =>
          let copyToken := le16 t0 t1 in
          let '(length, offset) := tokenFields copyToken (dSize s) chunkStart in
          let copySource := dSize s - offset in
          let! r := copyLoop (Z.to_nat length) copySource (dBuf s) (dSize s) in
          Ret (mkD (dCur s + 2) (fst r) (snd r))
      | _ => Panic
      end
  else Ret s.

(** [for bitIndex = 0; bitIndex < 8; bitIndex++]; [n] iterations remain. *)
Fixpoint group (cbuf : list byte) (cend chunkStart : Z) (flagByte : byte)
    (n : nat) (bitIndex : Z) (s : dstate) : outcome dstate :=
  match n with
  | O => Ret s
  | S n' =>
      let! s' := item cbuf cend chunkStart flagByte bitIndex s in
      group cbuf cend chunkStart flagByte n' (bitIndex + 1) s'
  end.

(** [for CompressedCurrent < CompressedEnd]. *)
Fixpoint chunkLoop (fuel : nat) (cbuf : list byte) (cend chunkStart : Z)
    (s : dstate) : outcome dstate :=
  if dCur s <? cend then
    match fuel with
    | O => OutOfFuel
    | S fuel' =>
        let! flagByte := index cbuf (dCur s) in
        let! s' := group cbuf cend chunkStart flagByte 8 0
                     (mkD (dCur s + 1) (dBuf s) (dSize s)) in
        chunkLoop fuel' cbuf cend chunkStart s'
    end
  else Ret s.

Definition headerOf (cbuf : list byte) : outcome Z :=
  let! h := slice cbuf 0 2 in
  match h with
  | [b0; b1] => Ret (le16 b0 b1)
  | _ => Panic
  end.

Definition chunkFlag (header : Z) : Z := Z.land (Z.shiftr header 15) 0x1.
Definition chunkSignature (header : Z) : Z := Z.land (Z.shiftr header 12) 0x7.
Definition chunkSize (header : Z) : Z := u16 (Z.land header 0x0FFF + 3).

(** What a method with result [(int, error)] leaves: the receiver, the
    count and the error. *)
Definition result (W : Type) : Type := outcome (VBAWriter W * (Z * option error)).

Section Methods.
Context {W : Type} `{!Writer W}.
Implicit Type st : VBAWriter W.

Definition uncompressChunk st : result W :=
  let! CompressedHeader := headerOf (compressedBuffer st) in
  let st := set_uSize 0 st in
  let CompressedChunkFlag := chunkFlag CompressedHeader in
  let CompressedChunkSignature := chunkSignature CompressedHeader in
  let CompressedChunkSize := chunkSize CompressedHeader in
  if negb (CompressedChunkSignature =? 0x3) then
    Ret (st, (0, Some ErrChunkSignature))
  else
    let CompressedEnd := CompressedChunkSize in
    let CompressedCurrent := 2 in
    if CompressedEnd >? cSize st then Ret (st, (0, None))
    else if CompressedChunkFlag =? 0 then
      if negb (CompressedChunkSize =? 4098) then
        Ret (st, (0, Some ErrChunkSize))
      else
        let! src := slice (compressedBuffer st) CompressedCurrent
                      (CompressedCurrent + 4096) in
        let! ub := copy_into (uncompressedBuffer st) (uSize st)
                     (uSize st + 4096) src in
        Ret (set_uSize (uSize st + 4096) (set_uncompressedBuffer ub st),
             (CompressedCurrent + 4096, None))
    else
      let decompressedChunkStart := uSize st in
      let! s := chunkLoop (Z.to_nat (CompressedEnd - CompressedCurrent))
                  (compressedBuffer st) CompressedEnd decompressedChunkStart
                  (mkD CompressedCurrent (uncompressedBuffer st) (uSize st)) in
      Ret (set_uSize (dSize s) (set_uncompressedBuffer (dBuf s) st),
           (dCur s, None)).

(** The loop body of [uncompress] after a chunk was decoded, in two
    parts; [inl] is a [return], [inr] goes on with the loop.  First the
    block under [if vba.uSize != 0]: the write to the underlying writer. *)
Definition writeOut st (total : Z) : result W + VBAWriter W :=
  if negb (uSize st =? 0) then
    match slice (uncompressedBuffer st) 0 (uSize st) with
    | Ret data =>
        let '(w, (n, err)) := wr_Write (wr st) data in
        let st := set_wr w st in
        match err with
        | Some e => inl (Ret (st, (total, Some e)))
        | None =>
            if negb (n =? uSize st)
            then inl (Ret (st, (total, Some ErrShortWrite)))
            else inr (set_uSize 0 st)
        end
    | Panic => inl Panic
    | OutOfFuel => inl OutOfFuel
    end
  else inr st.

(** Then the lines from [copySize := vba.cSize - processed] on: the shift
    of the bytes that are left. *)
Definition shiftLeft st (total processed : Z) : result W + VBAWriter W :=
  let copySize := cSize st - processed in
  if copySize <? 0 then
    inl (Ret (st, (total, Some (ErrNegativeCopySize copySize))))
  else if copySize >? 0 then
    match slice (compressedBuffer st) processed (cSize st) with
    | Ret src =>
        match copy_into (compressedBuffer st) 0 copySize src with
        | Ret cb => inr (set_cSize copySize (set_compressedBuffer cb st))
        | Panic => inl Panic
        | OutOfFuel => inl OutOfFuel
        end
    | Panic => inl Panic
    | OutOfFuel => inl OutOfFuel
    end
  else inr (set_cSize copySize st).

Definition flushChunk st (total processed : Z) : result W + VBAWriter W :=
  match writeOut st total with
  | inl r => inl r
  | inr st => shiftLeft st total processed
  end.

(** [for vba.cSize > 0] of [uncompress]. *)
Fixpoint uncompressLoop (fuel : nat) st (total : Z) : result W :=
  if cSize st >? 0 then
    match fuel with
    | O => OutOfFuel
    | S fuel' =>
        let! r := uncompressChunk st in
        let '(st, (processed, err)) := r in
        match err with
        | Some e => Ret (st, (total + processed, Some e))
        | None =>
            if processed =? 0 then Ret (st, (total, None))
            else
              let total := total + processed in
              match flushChunk st total processed with
              | inl r => r
              | inr st => uncompressLoop fuel' st total
              end
        end
    end
  else Ret (st, (total, None)).

Definition uncompress st : result W :=
  uncompressLoop (Z.to_nat (cSize st)) st 0.

(** ** carvVBA *)

(** [[]byte("\x01..\x00Attribut")] *)
Definition marker : list byte :=
  [x01; x2e; x2e; x00; x41; x74; x74; x72; x69; x62; x75; x74].
Definition mlen : Z := len marker.

(** One iteration of [for i, b := range buff], without the test that
    ends the loop. *)
Definition carvStep st (b : byte) : outcome (VBAWriter W) :=
  if (marker_cur st =? 1) || (marker_cur st =? 2) then
    let! cb := store (compressedBuffer st) (cSize st) b in
    Ret (set_cSize (cSize st + 1)
           (set_marker_cur (marker_cur st + 1) (set_compressedBuffer cb st)))
  else
    let! m := index marker (marker_cur st) in
    if Byte.eqb b m then
      let! cb := store (compressedBuffer st) (cSize st) b in
      let st := set_marker_cur (marker_cur st + 1) (set_compressedBuffer cb st) in
      if negb (marker_cur st =? 1) then Ret (set_cSize (cSize st + 1) st)
      else Ret st
    else Ret (set_cSize 0 (set_marker_cur 0 st)).

(** The loop of [carvVBA] from index [i] on. *)
Fixpoint carvLoop st (i : Z) (buff : list byte)
  : outcome (VBAWriter W * (Z * bool)) :=
  match buff with
  | [] => Ret (st, (0, false))
  | b :: buff' =>
      let! st := carvStep st b in
      if marker_cur st =? mlen
      then Ret (set_marker_found true st, (i + 1, true))
      else carvLoop st (i + 1) buff'
  end.

Definition carvVBA st (buff : list byte) : outcome (VBAWriter W * (Z * bool)) :=
  carvLoop st 0 buff.

(** ** Write *)

(** The two branches that fill [compressedBuffer] from [b[offset:]];
    the result is the receiver and the new [offset]. *)
Definition fill st (b : list byte) (offset buffAvail vbaAvail : Z)
  : outcome (VBAWriter W * Z) :=
  if vbaAvail <? buffAvail then
    let! src := slice b offset (offset + vbaAvail) in
    let! cb := copy_into (compressedBuffer st) (cSize st)
                 (len (compressedBuffer st)) src in
    Ret (set_cSize (cSize st + vbaAvail) (set_compressedBuffer cb st),
         offset + vbaAvail)
  else
    let! src := slice b offset (len b) in
    let! cb := copy_into (compressedBuffer st) (cSize st)
                 (cSize st + buffAvail) src in
    Ret (set_cSize (cSize st + buffAvail) (set_compressedBuffer cb st),
         offset + buffAvail).

(** [for buffAvail > 0] of [Write]; [offset], [buffAvail] and [vbaAvail]
    are the locals of that name, [total] stays 0. *)
Fixpoint writeLoop (fuel : nat) st (b : list byte)
    (offset buffAvail vbaAvail total : Z) : result W :=
  if buffAvail >? 0 then
    match fuel with
    | O => OutOfFuel
    | S fuel' =>
        let! f := fill st b offset buffAvail vbaAvail in
        let '(st, offset) := f in
        let! r := uncompress st in
        let '(st, (processed, err)) := r in
        match err with
        | Some e => Ret (st, (total + processed, Some e))
        | None =>
            writeLoop fuel' st b offset (len b - offset)
                      (VBABuffSize - cSize st) total
        end
    end
  else Ret (st, (len b, None)).

(** [Write] from the line [buffAvail := len(b) - offset] on.  Every
    iteration of the loop but the first takes at least one byte of [b],
    so one more than [buffAvail] is fuel enough. *)
Definition writeBody st (b : list byte) (offset : Z) : result W :=
  let buffAvail := len b - offset in
  let vbaAvail := VBABuffSize - cSize st in
  writeLoop (S (Z.to_nat buffAvail)) st b offset buffAvail vbaAvail 0.

Definition Write st (b : list byte) : result W :=
  if negb (marker_found st) then
    let! r := carvVBA st b in
    let '(st, (offset, hasVBA)) := r in
    if negb hasVBA then Ret (st, (len b, None))
    else writeBody st b offset
  else writeBody st b 0.
End Methods.

(** A sink that records every [Write] it receives and accepts all of it. *)
Abbreviation Log := (list (list byte)).
#[export] Instance logWriter : Writer Log :=
  fun w data => (w ++ [data], (len data, None)).

(** * Notions of the specification *)

(** ** The work of the chunk decoder *)

(** The copy of the spec: [n] times, append the byte that lies [offset]
    positions before the end of what was produced so far. *)
Fixpoint lzExtend (n : nat) (offset : nat) (out : list byte) : list byte :=
  match n with
  | O => out
  | S n' =>
      match out !! (length out - offset)%nat with
      | Some b => lzExtend n' offset (out ++ [b])
      | None => out
      end
  end.

(** The bit of [flagByte] that selects the kind of the item [bitIndex]. *)
Definition flagBit (flagByte : byte) (bitIndex : Z) : Z :=
  Z.land (Z.shiftr (byteZ flagByte) bitIndex) 1.

(** The decoder state fits its buffer. *)
Definition dwf (start : Z) (s : dstate) : Prop :=
  0 <= start <= dSize s /\ dSize s <= len (dBuf s) /\ len (dBuf s) = VBABuffSize.

(** What an item that returns has done. *)
Inductive item_step (cbuf : list byte) (cend start : Z) (fb : byte) (bi : Z)
    (s : dstate) : dstate -> Prop :=
| step_skip : cend <= dCur s -> item_step cbuf cend start fb bi s s
| step_literal b :
    dCur s < cend -> flagBit fb bi = 0 -> 0 <= dCur s ->
    cbuf !! Z.to_nat (dCur s) = Some b -> dSize s < len (dBuf s) ->
    item_step cbuf cend start fb bi s
      (mkD (dCur s + 1) (<[Z.to_nat (dSize s) := b]> (dBuf s)) (dSize s + 1))
| step_token t0 t1 length offset ub :
    dCur s < cend -> flagBit fb bi <> 0 -> 0 <= dCur s ->
    cbuf !! Z.to_nat (dCur s) = Some t0 -> cbuf !! Z.to_nat (dCur s + 1) = Some t1 ->
    tokenFields (le16 t0 t1) (dSize s) start = (length, offset) ->
    3 <= length -> 1 <= offset <= dSize s -> dSize s + length <= len (dBuf s) ->
    len ub = len (dBuf s) ->
    take (Z.to_nat (dSize s + length)) ub
      = lzExtend (Z.to_nat length) (Z.to_nat offset) (take (Z.to_nat (dSize s)) (dBuf s)) ->
    item_step cbuf cend start fb bi s (mkD (dCur s + 2) ub (dSize s + length)).

(** Two buffers of one size with the same first [n] bytes. *)
Definition agree (n : Z) (l1 l2 : list byte) : Prop :=
  len l1 = len l2 /\ take (Z.to_nat n) l1 = take (Z.to_nat n) l2.

(** Two decoder states that differ at most behind the bytes produced. *)
Definition dsim (s1 s2 : dstate) : Prop :=
  dCur s1 = dCur s2 /\ dSize s1 = dSize s2 /\ agree (dSize s1) (dBuf s1) (dBuf s2).

(** ** What a writer holds *)

(** A writer after the signature, whose accumulation buffer holds the bytes
    [c] and zeros behind them. *)
Definition loaded (c : list byte) : VBAWriter Log :=
  mkVBA [] (c ++ replicate (Z.to_nat VBABuffSize - length c) x00)
        (replicate (Z.to_nat VBABuffSize) x00) (len c) 0 12 true.

(** Equality of bytes is decidable. *)
#[export] Instance byte_eq_decision : EqDecision byte := Byte.byte_eq_dec.

(** The bytes of the accumulation buffer that count: [compressedBuffer[:cSize]]. *)
Definition pending {W : Type} (st : VBAWriter W) : list byte :=
  take (Z.to_nat (cSize st)) (compressedBuffer st).

(** What [uncompress] hands to the sink for the decoded chunks [outs]: a
    chunk that decodes to no byte is not written. *)
Definition flushes (outs : list (list byte)) : Log :=
  filter (fun o => o <> []) outs.

(** The shift of the bytes that are left, by [processed]. *)
Definition shifted (cbuf : list byte) (csz processed : Z) : list byte :=
  if csz - processed >? 0 then
    take (Z.to_nat (csz - processed)) (drop (Z.to_nat processed) cbuf)
      ++ drop (Z.to_nat (csz - processed)) cbuf
  else cbuf.

(** ** Well-formed containers *)

(** The header of the chunk that [t] begins with. *)
Definition headerWord (t : list byte) : option Z :=
  match t with
  | b0 :: b1 :: _ => Some (le16 b0 b1)
  | _ => None
  end.

(** The bytes a chunk decodes to: [uncompressChunk] is run on a writer that
    holds the chunk and nothing else, and has to consume all of it. *)
Definition chunkOut (c : list byte) : option (list byte) :=
  match uncompressChunk (loaded c) with
  | Ret (st', (n, None)) =>
      if n =? len c
      then Some (take (Z.to_nat (uSize st')) (uncompressedBuffer st'))
      else None
  | _ => None
  end.

(** [c] is one whole chunk with the signature bits 0b011 that decodes to
    [out]. *)
Definition validChunk (c out : list byte) : Prop :=
  exists h, headerWord c = Some h /\ chunkSignature h = 3
    /\ chunkSize h = len c /\ chunkOut c = Some out.

(** [t] is the beginning of a chunk that is not all there. *)
Definition incomplete (t : list byte) : Prop :=
  match headerWord t with
  | None => True
  | Some h => chunkSignature h = 3 /\ len t < chunkSize h
  end.

(** [chunks t outs r]: [t] is a sequence of whole chunks that decode to
    [outs], followed by the beginning [r] of a further chunk. *)
Inductive chunks : list byte -> list (list byte) -> list byte -> Prop :=
| chunks_rest r : incomplete r -> chunks r [] r
| chunks_cons c out t outs r :
    validChunk c out -> chunks t outs r -> chunks (c ++ t) (out :: outs) r.

(** The signature bits of a header, read off its second byte. *)
Definition sigByte (b1 : byte) : Prop := Z.land (Z.shiftr (byteZ b1) 4) 7 = 3.

(** The writers [Write] reaches once the signature was found. *)
Record WF (st : VBAWriter Log) : Prop := mkWF {
  wf_cbuf : len (compressedBuffer st) = VBABuffSize;
  wf_ubuf : len (uncompressedBuffer st) = VBABuffSize;
  wf_cSize : 0 <= cSize st <= VBABuffSize;
  wf_found : marker_found st = true;
  wf_stale : cSize st < 2 ->
             exists b1, compressedBuffer st !! 1%nat = Some b1 /\ sigByte b1
}.

(** ** The state of the carver *)

Section CarverState.
Context {W : Type}.
Implicit Type st : VBAWriter W.

(** The writers [carvVBA] runs on: the signature is not found yet. *)
Record CI st : Prop := mkCI {
  ci_found : marker_found st = false;
  ci_cur : 0 <= marker_cur st <= 11;
  ci_cSize : cSize st = Z.max (marker_cur st - 1) 0;
  ci_cbuf : len (compressedBuffer st) = VBABuffSize;
  ci_ubuf : len (uncompressedBuffer st) = VBABuffSize
}.

(** What one step of the carver does to a writer. *)
Inductive carv_step st (b : byte) (st' : VBAWriter W) : Prop :=
| carv_reset :
    marker_cur st <> 1 -> marker_cur st <> 2 ->
    marker !! Z.to_nat (marker_cur st) <> Some b ->
    st' = set_cSize 0 (set_marker_cur 0 st) -> carv_step st b st'
| carv_first :
    marker_cur st = 0 -> b = x01 ->
    st' = set_marker_cur 1
            (set_compressedBuffer (<[Z.to_nat (cSize st) := b]> (compressedBuffer st)) st) ->
    carv_step st b st'
| carv_next :
    1 <= marker_cur st ->
    (3 <= marker_cur st -> marker !! Z.to_nat (marker_cur st) = Some b) ->
    st' = set_cSize (cSize st + 1)
            (set_marker_cur (marker_cur st + 1)
               (set_compressedBuffer (<[Z.to_nat (cSize st) := b]> (compressedBuffer st)) st)) ->
    carv_step st b st'.

(** The index that [carvLoop] starts from only shifts the offset it
    reports. *)
Definition shiftOff (d : Z) (r : outcome (VBAWriter W * (Z * bool)))
  : outcome (VBAWriter W * (Z * bool)) :=
  match r with
  | Ret (st, (j, true)) => Ret (st, (j + d, true))
  | r => r
  end.

End CarverState.

(** ** Sessions and streams *)

(** [io.Copy(vba, rfd)] as [DecompressFile] runs it: the writes of a
    session one after the other, up to the first error. *)
Fixpoint writeAll {W : Type} `{!Writer W} (st : VBAWriter W) (ws : list (list byte))
  : result W :=
  match ws with
  | [] => Ret (st, (0, None))
  | w :: ws' =>
      let! r := Write st w in
      match r with
      | (st', (n, Some e)) => Ret (st', (n, Some e))
      | (st', (_, None)) => writeAll st' ws'
      end
  end.

(** The writer of a session, with an empty record of writes as its sink. *)
Definition fresh : VBAWriter Log := NewWriter [].

(** Where the carver finds the signature in [s]: the writer it leaves and
    the offset behind the signature. *)
Definition carved (s : list byte) : option (VBAWriter Log * Z) :=
  match carvVBA fresh s with
  | Ret (stc, (off, true)) => Some (stc, off)
  | _ => None
  end.

(** The compressed container of [s]: what the carver has put into the
    accumulation buffer, and the bytes behind the signature. *)
Definition container (s : list byte) : option (list byte) :=
  match carved s with
  | Some (stc, off) => Some (pending stc ++ drop (Z.to_nat off) s)
  | None => None
  end.

(** A stream whose container is a sequence of whole, well-formed chunks,
    with the beginning of a further chunk behind them at most. *)
Definition validStream (s : list byte) : Prop :=
  exists t outs r, container s = Some t /\ chunks t outs r.

(** The same, for a stream in which the signature may still be missing. *)
Definition okStream (s : list byte) : Prop :=
  forall t, container s = Some t -> exists outs r, chunks t outs r.

(** The writer a session has reached after the stream [s0]. *)
Definition J (st : VBAWriter Log) (s0 : list byte) : Prop :=
  match carvVBA fresh s0 with
  | Ret (stc, (off, false)) => st = stc
  | Ret (stc, (off, true)) =>
      if decide (drop (Z.to_nat off) s0 = []) then st = stc
      else exists outs r,
          chunks (pending stc ++ drop (Z.to_nat off) s0) outs r
          /\ wr st = flushes outs /\ pending st = r /\ WF st
          /\ marker_cur st = marker_cur stc
  | _ => False
  end.

(** ** The bytes before the signature *)

(** Garbage that leaves the carver at rest: at its end no byte of a
    signature is matched. *)
Definition quiet (g : list byte) : Prop :=
  exists stg, carvVBA fresh g = Ret (stg, (0, false)) /\ marker_cur stg = 0.

(** The bytes the carver holds are the ones behind the last 0x01 it took
    for the start of a signature. *)
Definition held (st : VBAWriter Log) (hist : list byte) : Prop :=
  carvVBA fresh hist = Ret (st, (0, false))
  /\ exists pre m, hist = pre ++ m /\ len m = marker_cur st /\ quiet pre
       /\ (1 <= marker_cur st -> m = x01 :: pending st).

(** Two carving writers that differ at most in the bytes of the
    accumulation buffer the carver has not yet written again. *)
Definition stale_eq (st1 st2 : VBAWriter Log) : Prop :=
  wr st1 = wr st2 /\ uncompressedBuffer st1 = uncompressedBuffer st2
  /\ cSize st1 = cSize st2 /\ uSize st1 = uSize st2
  /\ marker_cur st1 = marker_cur st2 /\ marker_found st1 = marker_found st2
  /\ length (compressedBuffer st1) = length (compressedBuffer st2)
  /\ forall k : nat, (Z.of_nat k < cSize st1 \/ (11 <= k)%nat) ->
       compressedBuffer st1 !! k = compressedBuffer st2 !! k.

(** What is observed of a call: the sink, the bytes held, the state of the
    carver and the error; the count is left out. *)
Definition observe (r : result Log)
  : outcome (Log * list byte * Z * bool * option error) :=
  match r with
  | Ret (st, (_, e)) => Ret (wr st, pending st, marker_cur st, marker_found st, e)
  | Panic => Panic
  | OutOfFuel => OutOfFuel
  end.

(** ** Chunks of literals and one copy token *)

(** The flag byte of a group whose item [r] is its only copy token. *)
Definition bitByte (r : nat) : byte :=
  match r with
  | 0 => x01 | 1 => x02 | 2 => x04 | 3 => x08
  | 4 => x10 | 5 => x20 | 6 => x40 | _ => x80
  end%nat.

(** The token groups of a chunk that holds the literals [lits] and then
    the copy token [t0 t1]: groups of eight literals under the flag byte
    0x00, then the group with the literals left and the token. *)
Fixpoint runThenToken (lits : list byte) (t0 t1 : byte) : list byte :=
  match lits with
  | a :: b :: c :: d :: e :: f :: g :: h :: rest =>
      x00 :: a :: b :: c :: d :: e :: f :: g :: h :: runThenToken rest t0 t1
  | _ => bitByte (length lits) :: lits ++ [t0; t1]
  end.

(** [x] lies in [l] at the position [c]. *)
Definition seg (c : nat) (x l : list byte) : Prop := take (length x) (drop c l) = x.

(** ** Buffers of the right size, callers, decoding as a function *)

(** The buffers have their size and [cSize] lies inside. *)
Definition Bounded {W : Type} (st : VBAWriter W) : Prop :=
  len (compressedBuffer st) = VBABuffSize
  /\ len (uncompressedBuffer st) = VBABuffSize
  /\ 0 <= cSize st <= VBABuffSize.

(** A caller that goes on writing whatever [Write] returns. *)
Fixpoint writeOn {W : Type} `{!Writer W} (st : VBAWriter W) (ws : list (list byte))
  : outcome (VBAWriter W) :=
  match ws with
  | [] => Ret st
  | w :: ws' => let! r := Write st w in writeOn (fst r) ws'
  end.

(** A writer whose next chunk has a header with wrong signature bits. *)
Definition badHeader (st : VBAWriter Log) : Prop :=
  WF st /\ exists h, headerWord (pending st) = Some h /\ chunkSignature h <> 3.

(** [chunks] as a function, to run it on a given container. *)
Fixpoint decodeChunks (fuel : nat) (t : list byte)
  : option (list (list byte) * list byte) :=
  match headerWord t with
  | None => Some ([], t)
  | Some h =>
      if negb (chunkSignature h =? 3) then None
      else if len t <? chunkSize h then Some ([], t)
      else
        match fuel with
        | O => None
        | S fuel' =>
            match chunkOut (take (Z.to_nat (chunkSize h)) t),
                  decodeChunks fuel' (drop (Z.to_nat (chunkSize h)) t) with
            | Some out, Some (outs, r) => Some (out :: outs, r)
            | _, _ => None
            end
        end
  end.

(** ** Streams and states to run the decoder on *)

(** The bytes of "Attribut". *)
Definition attribut : list byte := [x41; x74; x74; x72; x69; x62; x75; x74].

(** A stream of two chunks: the signature with the eight literals
    "Attribut", then the literal "A" and a copy token of length 3 at
    offset 1. *)
Definition demo : list byte :=
  [x01; x08; xb0; x00] ++ attribut ++ [x03; xb0; x02; x41; x00; x00].

(** The signature with the chunk of the eight literals "Attribut" that its
    last eleven bytes are. *)
Definition signature : list byte := [x01; x08; xb0; x00] ++ attribut.

(** A chunk of declared size 13: eight literals, then a flag byte and, on
    the last declared byte, the first byte of a copy token. *)
Definition straddler : list byte :=
  [x0a; xb0; x00; x61; x62; x63; x64; x65; x66; x67; x68; x01; x00].


(** A raw chunk: the header 0x3FFF and 4096 bytes. *)
Definition rawChunk : list byte := [xff; x3f] ++ replicate 4096 x41.

(** The decoder at the copy token of the chunk [03 b0 02 41 07 00], behind
    its one literal. *)
Definition atToken : dstate := mkD 4 (x41 :: replicate 4097 x00) 1.

(** A block that [uncompress] hands to the sink. *)
Definition block (d : list byte) : Prop := 0 < len d <= VBABuffSize.

(** [New]: [new(VBAWriter)] without [init], so both buffers are nil slices.
    The source leaves [wr] nil as well; here the field is given, and
    [Write] on such a writer never comes to use it. *)
Definition New {W : Type} (w : W) : VBAWriter W := mkVBA w [] [] 0 0 0 false.

(** [init]: both buffers are made anew, the other fields stay. *)
Definition init {W : Type} (st : VBAWriter W) : VBAWriter W :=
  set_uncompressedBuffer (replicate (Z.to_nat VBABuffSize) x00)
    (set_compressedBuffer (replicate (Z.to_nat VBABuffSize) x00) st).

(** [Close] returns [nil] and leaves the writer as it is: what the
    accumulation buffer still holds is not decoded. *)
Definition Close {W : Type} (st : VBAWriter W) : VBAWriter W * option error :=
  (st, None).

(** The token groups that hold the literals [lits] and no copy token:
    eight literals under the flag byte 0x00, and so the ones left. *)
Fixpoint literalGroups (lits : list byte) : list byte :=
  match lits with
  | a :: b :: c :: d :: e :: f :: g :: h :: rest =>
      x00 :: a :: b :: c :: d :: e :: f :: g :: h :: literalGroups rest
  | [] => []
  | _ => x00 :: lits
  end.

(** A sink that refuses every write, and one that takes all but the last
    byte of every write. *)
Inductive Faulty : Type := Refuse | Truncate.

#[export] Instance faultyWriter : Writer Faulty := fun w data =>
  match w with
  | Refuse => (Refuse, (0, Some ErrWriter))
  | Truncate => (Truncate, (len data - 1, None))
  end.

(** [loaded], on any sink. *)
Definition loadedOn {W : Type} (w : W) (c : list byte) : VBAWriter W :=
  mkVBA w (c ++ replicate (Z.to_nat VBABuffSize - length c) x00)
        (replicate (Z.to_nat VBABuffSize) x00) (len c) 0 12 true.

(** The two fields of [marker]. *)
Definition markerOf {W : Type} (st : VBAWriter W) : Z * bool :=
  (marker_cur st, marker_found st).

(** * Properties *)

(** ** Bytes and headers *)

Lemma byteZ_range b : 0 <= byteZ b < 256.
Proof.
  unfold byteZ. pose proof (Byte.to_N_bounded b) as H.
  split; [apply N2Z.is_nonneg|]. 
  apply N2Z.inj_le in H. simpl in H. lia.
Qed.

Lemma le16_eq b0 b1 : le16 b0 b1 = byteZ b0 + 256 * byteZ b1.
Proof.
  unfold le16. pose proof (byteZ_range b0). pose proof (byteZ_range b1).
  rewrite Z.shiftl_mul_pow2 by lia. change (2 ^ 8) with 256.
  rewrite <- Z.add_nocarry_lor.
  - lia.
  - apply Z.bits_inj'. intros n Hn. rewrite Z.land_spec, Z.bits_0.
    destruct (Z.ltb_spec n 8).
    + replace (byteZ b1 * 256) with (byteZ b1 * 2 ^ 8) by reflexivity.
      rewrite (Z.mul_pow2_bits_low (byteZ b1) 8 n) by lia. apply andb_false_r.
    + rewrite (Z.bits_above_log2 (byteZ b0) n); [reflexivity|lia|].
      destruct (Z.eq_dec (byteZ b0) 0) as [->|]; [simpl; lia|].
      apply Z.log2_lt_pow2; [lia|]. 
      assert (2 ^ 8 <= 2 ^ n) by (apply Z.pow_le_mono_r; lia). change (2^8) with 256 in *. lia.
Qed.

Lemma le16_range b0 b1 : 0 <= le16 b0 b1 < 65536.
Proof. rewrite le16_eq. pose proof (byteZ_range b0). pose proof (byteZ_range b1). lia. Qed.

Lemma bitCountOf_range d : 0 <= d <= 4098 -> 4 <= bitCountOf d <= 13.
Proof.
  intros Hd. unfold bitCountOf, u16.
  destruct (Z.eqb_spec d 0); [change (4 mod 65536) with 4; lia|].
  assert (Z.log2_up d <= 13).
  { apply Z.log2_up_le_pow2; [lia|]. change (2^13) with 8192. lia. }
  pose proof (Z.log2_up_nonneg d).
  rewrite Z.mod_small by lia. lia.
Qed.

Lemma tokenFields_split tok usz start :
  0 <= tok < 65536 -> 0 <= start <= usz -> usz <= 4098 ->
  let b := bitCountOf (usz - start) in
  tokenFields tok usz start = (tok mod 2 ^ (16 - b) + 3, tok / 2 ^ (16 - b) + 1).
Proof.
  intros Ht Hs Hd b. unfold tokenFields, copyTokenHelp.
  assert (E: uint (uint usz - uint start) = usz - start).
  { unfold uint. rewrite (Z.mod_small usz), (Z.mod_small start), Z.mod_small by lia. lia. }
  rewrite E. fold b.
  pose proof (bitCountOf_range (usz - start) ltac:(lia)) as Hb. fold b in Hb.
  assert (Hc: b = 4 \/ b = 5 \/ b = 6 \/ b = 7 \/ b = 8 \/ b = 9 \/ b = 10 \/ b = 11 \/ b = 12 \/ b = 13) by lia.
  clearbody b.
  assert (Hland: forall k, 0 <= k -> Z.land tok (Z.ones k) = tok mod 2 ^ k).
  { intros. apply Z.land_ones. lia. }
  assert (Hshr: forall k m, 0 <= k <= 16 -> Z.shiftr m k = Z.ones (16 - k) -> 
             Z.shiftr (Z.land tok m) k = tok / 2 ^ k).
  { intros k m Hk Hm. rewrite Z.shiftr_land, Hm, Z.land_ones by lia.
    rewrite Z.shiftr_div_pow2 by lia. apply Z.mod_small.
    split; [apply Z.div_pos; lia|].
    apply Z.div_lt_upper_bound; [lia|]. rewrite <- Z.pow_add_r by lia.
    replace (k + (16 - k)) with 16 by lia. change (2^16) with 65536. lia. }
  destruct Hc as [->|[->|[->|[->|[->|[->|[->|[->|[->| ->]]]]]]]]];
    cbn -[Z.land Z.shiftr Z.pow Z.div Z.modulo Z.lxor]; unfold u16.
  all: match goal with
       | |- ((Z.land ?t ?A + 3) mod _, (Z.shiftr (Z.land ?t ?M) ?K + 1) mod _) =
            (?t mod 2 ^ ?k + 3, _) =>
           assert (HL : Z.land t A = t mod 2 ^ k)
             by (rewrite <- Hland by lia; reflexivity);
           assert (HO : Z.shiftr (Z.land t M) K = t / 2 ^ k)
             by (rewrite <- (Hshr k M); [reflexivity | lia | reflexivity]);
           rewrite HL, HO
       end.
  all: match goal with
       | |- context [2 ^ ?k] => let v := eval vm_compute in (2 ^ k) in change (2 ^ k) with v
       end.
  all: f_equal; apply Z.mod_small; Z.div_mod_to_equations; lia.
Qed.

(** ** Indexing, stores and the copy loop *)

Lemma len_nonneg l : 0 <= len l.
Proof. unfold len. lia. Qed.

Lemma index_Ret l i b :
  index l i = Ret b <-> 0 <= i /\ l !! Z.to_nat i = Some b.
Proof.
  unfold index, len.
  destruct (Z.leb_spec 0 i), (Z.ltb_spec i (Z.of_nat (length l))); simpl.
  - destruct (l !! Z.to_nat i) eqn:E.
    + split; [intros [= ->]; auto | intros [_ [= ->]]; auto].
    + split; [discriminate | intros [_ [=]]].
  - split; [discriminate|]. intros [_ H1]. apply lookup_lt_Some in H1. lia.
  - split; [discriminate|]. lia.
  - split; [discriminate|]. lia.
Qed.

Lemma index_in l i :
  0 <= i < len l -> exists b, index l i = Ret b /\ l !! Z.to_nat i = Some b.
Proof.
  intros Hi. destruct (lookup_lt_is_Some_2 l (Z.to_nat i)) as [b Hb]; [unfold len in Hi; lia|].
  exists b. split; [apply index_Ret|]; auto. split; [lia|auto].
Qed.

Lemma index_out l i : i < 0 \/ len l <= i -> index l i = Panic.
Proof.
  intros Hi. unfold index.
  destruct (Z.leb_spec 0 i), (Z.ltb_spec i (len l)); simpl; auto; lia.
Qed.

Lemma index_fuel l i : index l i <> OutOfFuel.
Proof. unfold index. repeat case_match; discriminate. Qed.

Lemma store_in l i b : 0 <= i < len l -> store l i b = Ret (<[Z.to_nat i := b]> l).
Proof.
  intros Hi. unfold store.
  destruct (Z.leb_spec 0 i), (Z.ltb_spec i (len l)); simpl; auto; lia.
Qed.

Lemma store_out l i b : i < 0 \/ len l <= i -> store l i b = Panic.
Proof.
  intros Hi. unfold store.
  destruct (Z.leb_spec 0 i), (Z.ltb_spec i (len l)); simpl; auto; lia.
Qed.

Lemma len_insert l i b : len (<[i := b]> l) = len l.
Proof. unfold len. by rewrite length_insert. Qed.

Lemma copyLoop_fuel n idx ubuf usz : copyLoop n idx ubuf usz <> OutOfFuel.
Proof.
  revert idx ubuf usz. induction n as [|n IH]; intros idx ubuf usz; simpl; [discriminate|].
  unfold index, store. repeat (case_match; simpl; try discriminate). apply IH.
Qed.

Lemma copyLoop_ok n idx ubuf usz :
  0 <= idx < usz -> usz + Z.of_nat n <= len ubuf ->
  exists ub, copyLoop n idx ubuf usz = Ret (ub, usz + Z.of_nat n)
    /\ len ub = len ubuf
    /\ take (Z.to_nat (usz + Z.of_nat n)) ub
       = lzExtend n (Z.to_nat (usz - idx)) (take (Z.to_nat usz) ubuf)
    /\ drop (Z.to_nat (usz + Z.of_nat n)) ub = drop (Z.to_nat (usz + Z.of_nat n)) ubuf.
Proof.
  revert idx ubuf usz. induction n as [|n IH]; intros idx ubuf usz Hi Hn.
  - exists ubuf. simpl. rewrite Z.add_0_r. auto.
  - cbn [copyLoop]. destruct (index_in ubuf idx) as (b & -> & Hb); [lia|].
    cbn [obind]. rewrite store_in by lia. cbn [obind].
    destruct (IH (idx + 1) (<[Z.to_nat usz := b]> ubuf) (usz + 1)) as (ub & -> & Hl & Ht & Hd).
    { lia. } { rewrite len_insert. lia. }
    exists ub. replace (usz + 1 + Z.of_nat n) with (usz + Z.of_nat (S n)) in * by lia.
    split; [done|]. rewrite len_insert in Hl. split; [done|]. split.
    + rewrite Ht. cbn [lzExtend].
      assert (Hlen: length (take (Z.to_nat usz) ubuf) = Z.to_nat usz).
      { rewrite length_take_le; [done|]. unfold len in Hn. lia. }
      rewrite Hlen.
      replace (Z.to_nat usz - Z.to_nat (usz - idx))%nat with (Z.to_nat idx) by lia.
      rewrite lookup_take_lt by lia. rewrite Hb.
      replace (Z.to_nat (usz + 1)) with (S (Z.to_nat usz)) by lia.
      rewrite (take_S_r _ _ b).
      * rewrite take_insert_ge by lia.
        replace (Z.to_nat (usz + 1 - (idx + 1))) with (Z.to_nat (usz - idx)) by lia. done.
      * apply list_lookup_insert_eq. unfold len in Hn. lia.
    + rewrite Hd. rewrite drop_insert_lt by lia. done.
Qed.

Lemma copyLoop_neg n idx ubuf usz :
  idx < 0 -> copyLoop (S n) idx ubuf usz = Panic.
Proof. intros Hi. cbn [copyLoop]. rewrite index_out by lia. done. Qed.

Lemma copyLoop_overflow n idx ubuf usz :
  0 <= idx < usz -> usz <= len ubuf -> len ubuf < usz + Z.of_nat n ->
  copyLoop n idx ubuf usz = Panic.
Proof.
  revert idx ubuf usz. induction n as [|n IH]; intros idx ubuf usz Hi Hu Hn.
  - lia.
  - cbn [copyLoop]. destruct (index_in ubuf idx) as (b & -> & Hb); [lia|].
    cbn [obind]. destruct (Z.eq_dec usz (len ubuf)) as [E|E].
    + rewrite store_out by lia. done.
    + rewrite store_in by lia. cbn [obind]. apply IH; rewrite ?len_insert; lia.
Qed.

Lemma copyLoop_Ret_iff n idx ubuf usz :
  (0 < n)%nat -> idx < usz -> 0 <= usz <= len ubuf ->
  (exists r, copyLoop n idx ubuf usz = Ret r)
  <-> 0 <= idx /\ usz + Z.of_nat n <= len ubuf.
Proof.
  intros Hn Hi Hu. split.
  - intros [r Hr]. destruct (Z.ltb_spec idx 0).
    + destruct n; [lia|]. rewrite copyLoop_neg in Hr by lia. discriminate.
    + split; [done|]. destruct (Z.leb_spec (usz + Z.of_nat n) (len ubuf)); [done|].
      rewrite copyLoop_overflow in Hr by lia. discriminate.
  - intros [H0 H1]. destruct (copyLoop_ok n idx ubuf usz) as (ub & -> & _); eauto; lia.
Qed.

(** ** The fields of a copy token *)

Lemma bitCountOf_spec d :
  0 <= d <= 4098 ->
  let b := bitCountOf d in
  b = Z.max (Z.log2_up d) 4 /\ 4 <= b <= 13 /\ d <= 2 ^ b /\ (4 < b -> 2 ^ (b - 1) < d).
Proof.
  intros Hd b. pose proof (bitCountOf_range d Hd) as Hb. fold b in Hb.
  assert (E : b = Z.max (Z.log2_up d) 4).
  { unfold b, bitCountOf, u16. destruct (Z.eqb_spec d 0) as [->|Hne]; [reflexivity|].
    assert (Z.log2_up d <= 13).
    { apply Z.log2_up_le_pow2; [lia|]. change (2 ^ 13) with 8192. lia. }
    pose proof (Z.log2_up_nonneg d). rewrite Z.mod_small by lia. reflexivity. }
  split; [exact E|]. split; [exact Hb|].
  destruct (Z.leb_spec d 1) as [H1|H1].
  - split.
    + assert (2 ^ 4 <= 2 ^ b) by (apply Z.pow_le_mono_r; lia). change (2 ^ 4) with 16 in *. lia.
    + intros H4. rewrite Z.log2_up_eqn0 in E by lia. lia.
  - pose proof (Z.log2_up_spec d ltac:(lia)) as [Hlo Hhi]. split.
    + assert (2 ^ Z.log2_up d <= 2 ^ b) by (apply Z.pow_le_mono_r; lia). lia.
    + intros H4. replace b with (Z.log2_up d) by lia.
      rewrite <- Z.sub_1_r in Hlo. exact Hlo.
Qed.

Lemma tokenFields_bounds tok usz start :
  0 <= tok < 65536 -> 0 <= start <= usz -> usz <= 4098 ->
  3 <= fst (tokenFields tok usz start) <= 4098 /\
  1 <= snd (tokenFields tok usz start) <= 8192.
Proof.
  intros Ht Hs Hu. rewrite tokenFields_split by lia.
  pose proof (bitCountOf_range (usz - start) ltac:(lia)) as Hb.
  set (b := bitCountOf (usz - start)) in *. cbn [fst snd].
  assert (Hp : 0 < 2 ^ (16 - b)) by (apply Z.pow_pos_nonneg; lia).
  assert (Hq : 2 ^ (16 - b) <= 2 ^ 12) by (apply Z.pow_le_mono_r; lia).
  assert (Hr : 2 ^ 3 <= 2 ^ (16 - b)) by (apply Z.pow_le_mono_r; lia).
  change (2 ^ 12) with 4096 in Hq. change (2 ^ 3) with 8 in Hr.
  pose proof (Z.mod_pos_bound tok (2 ^ (16 - b)) Hp).
  assert (0 <= tok / 2 ^ (16 - b)) by (apply Z.div_pos; lia).
  assert (tok / 2 ^ (16 - b) < 8192).
  { apply Z.div_lt_upper_bound; [lia|]. nia. }
  lia.
Qed.

(** ** Slices and the items of a token group *)

Lemma slice_in l lo hi :
  0 <= lo <= hi -> hi <= len l ->
  slice l lo hi = Ret (take (Z.to_nat (hi - lo)) (drop (Z.to_nat lo) l)).
Proof.
  intros H1 H2. unfold slice.
  destruct (Z.leb_spec 0 lo), (Z.leb_spec lo hi), (Z.leb_spec hi (len l)); simpl; auto; lia.
Qed.

Lemma slice_Ret l lo hi x :
  slice l lo hi = Ret x ->
  0 <= lo <= hi /\ hi <= len l /\ x = take (Z.to_nat (hi - lo)) (drop (Z.to_nat lo) l).
Proof.
  unfold slice.
  destruct (Z.leb_spec 0 lo), (Z.leb_spec lo hi), (Z.leb_spec hi (len l)); simpl;
    intros [=]; subst; repeat split; auto; lia.
Qed.

Lemma slice_fuel l lo hi : slice l lo hi <> OutOfFuel.
Proof. unfold slice. case_match; discriminate. Qed.

Lemma store_fuel l i b : store l i b <> OutOfFuel.
Proof. unfold store. case_match; discriminate. Qed.

Lemma store_Ret l i b l' :
  store l i b = Ret l' -> 0 <= i < len l /\ l' = <[Z.to_nat i := b]> l.
Proof.
  unfold store.
  destruct (Z.leb_spec 0 i), (Z.ltb_spec i (len l)); simpl; intros [=]; subst; auto.
Qed.

(** Two consecutive bytes of a list. *)
Lemma take2_drop (l : list byte) (i : nat) t0 t1 :
  l !! i = Some t0 -> l !! S i = Some t1 -> take 2 (drop i l) = [t0; t1].
Proof.
  intros H0 H1.
  rewrite <- (take_drop i l) in H0, H1 |- *.
  assert (Hi : length (take i l) = i).
  { apply length_take_le. apply lookup_lt_Some in H0. rewrite take_drop in H0. lia. }
  rewrite lookup_app_r in H0, H1 by lia. rewrite Hi in H0, H1.
  replace (i - i)%nat with 0%nat in H0 by lia. replace (S i - i)%nat with 1%nat in H1 by lia.
  rewrite drop_app_length' by done.
  destruct (drop i l) as [|a [|b k]]; simplify_eq/=. done.
Qed.

Lemma slice2_in l i :
  0 <= i -> i + 2 <= len l ->
  exists t0 t1, slice l i (i + 2) = Ret [t0; t1]
    /\ l !! Z.to_nat i = Some t0 /\ l !! Z.to_nat (i + 1) = Some t1.
Proof.
  intros H0 H1. unfold len in H1.
  destruct (lookup_lt_is_Some_2 l (Z.to_nat i)) as [t0 Ht0]; [lia|].
  destruct (lookup_lt_is_Some_2 l (Z.to_nat (i + 1))) as [t1 Ht1]; [lia|].
  exists t0, t1. rewrite slice_in by (unfold len; lia).
  replace (Z.to_nat (i + 2 - i)) with 2%nat by lia.
  split; [|done]. f_equal. apply take2_drop; [done|].
  replace (S (Z.to_nat i)) with (Z.to_nat (i + 1)) by lia. done.
Qed.

Lemma slice2_Ret l i x :
  slice l i (i + 2) = Ret x ->
  exists t0 t1, x = [t0; t1] /\ 0 <= i /\ i + 2 <= len l
    /\ l !! Z.to_nat i = Some t0 /\ l !! Z.to_nat (i + 1) = Some t1.
Proof.
  intros H. pose proof H as H'. apply slice_Ret in H as (Hb & Hl & _).
  destruct (slice2_in l i) as (t0 & t1 & E & ? & ?); [lia|lia|].
  rewrite E in H'. injection H' as <-. exists t0, t1. repeat split; auto; lia.
Qed.

Lemma item_skip cbuf cend start fb bi s :
  cend <= dCur s -> item cbuf cend start fb bi s = Ret s.
Proof. intros H. unfold item. destruct (Z.ltb_spec (dCur s) cend); [lia|done]. Qed.

Lemma item_literal cbuf cend start fb bi s :
  dCur s < cend -> flagBit fb bi = 0 ->
  item cbuf cend start fb bi s =
    (let! b := index cbuf (dCur s) in
     let! ub := store (dBuf s) (dSize s) b in
     Ret (mkD (dCur s + 1) ub (dSize s + 1))).
Proof.
  intros H Hb. unfold item. destruct (Z.ltb_spec (dCur s) cend); [|lia].
  fold (flagBit fb bi). rewrite Hb. done.
Qed.

Lemma item_token cbuf cend start fb bi s t0 t1 :
  dCur s < cend -> flagBit fb bi <> 0 ->
  slice cbuf (dCur s) (dCur s + 2) = Ret [t0; t1] ->
  item cbuf cend start fb bi s =
    (let! r := copyLoop (Z.to_nat (fst (tokenFields (le16 t0 t1) (dSize s) start)))
                 (dSize s - snd (tokenFields (le16 t0 t1) (dSize s) start))
                 (dBuf s) (dSize s) in
     Ret (mkD (dCur s + 2) (fst r) (snd r))).
Proof.
  intros H Hb Hs. unfold item. destruct (Z.ltb_spec (dCur s) cend); [|lia].
  fold (flagBit fb bi). destruct (Z.eqb_spec (flagBit fb bi) 0); [done|].
  rewrite Hs. cbn [obind]. destruct (tokenFields _ _ _). done.
Qed.

Lemma item_Ret cbuf cend start fb bi s s' :
  dwf start s -> item cbuf cend start fb bi s = Ret s' ->
  item_step cbuf cend start fb bi s s'.
Proof.
  intros (Hs & Hu & Hl) H.
  destruct (Z.ltb_spec (dCur s) cend) as [Hc|Hc].
  2:{ rewrite item_skip in H by lia. injection H as <-. by constructor. }
  destruct (Z.eq_dec (flagBit fb bi) 0) as [Hb|Hb].
  - rewrite item_literal in H by done.
    destruct (index cbuf (dCur s)) as [b| |] eqn:Ei; try discriminate.
    apply index_Ret in Ei as [H0 Hb0]. cbn [obind] in H.
    destruct (store (dBuf s) (dSize s) b) as [ub| |] eqn:Es; try discriminate.
    apply store_Ret in Es as [Hr ->]. injection H as <-.
    apply step_literal; auto; lia.
  - unfold item in H. destruct (Z.ltb_spec (dCur s) cend); [|lia].
    fold (flagBit fb bi) in H. destruct (Z.eqb_spec (flagBit fb bi) 0); [done|].
    destruct (slice cbuf (dCur s) (dCur s + 2)) as [x| |] eqn:Es; try discriminate.
    apply slice2_Ret in Es as (t0 & t1 & -> & Hc0 & Hc2 & Ht0 & Ht1). cbn [obind] in H.
    destruct (tokenFields (le16 t0 t1) (dSize s) start) as [length offset] eqn:Et.
    pose proof (tokenFields_bounds (le16 t0 t1) (dSize s) start (le16_range t0 t1)
      ltac:(lia) ltac:(unfold VBABuffSize in *; lia)) as [Hlen Hoff].
    rewrite Et in Hlen, Hoff. cbn [fst snd] in Hlen, Hoff.
    destruct (copyLoop _ _ _ _) as [[ub us]| |] eqn:Ec; try discriminate.
    injection H as <-. cbn [fst snd].
    assert (Hiff := copyLoop_Ret_iff (Z.to_nat length) (dSize s - offset) (dBuf s) (dSize s)
       ltac:(lia) ltac:(lia) ltac:(lia)).
    destruct Hiff as [Hiff _]. destruct Hiff as [Hi Hn]; [eauto|].
    destruct (copyLoop_ok (Z.to_nat length) (dSize s - offset) (dBuf s) (dSize s))
      as (ub' & Ec' & Hlub & Htk & _); [lia|lia|].
    rewrite Ec in Ec'. injection Ec' as <- ->.
    rewrite Z2Nat.id in * by lia.
    eapply step_token; eauto; try lia.
    rewrite Htk. f_equal. f_equal. lia.
Qed.

(** ** Token groups and the loop of a chunk *)

Lemma take_insert_snoc (l : list byte) (i : nat) b :
  (i < length l)%nat -> take (S i) (<[i := b]> l) = take i l ++ [b].
Proof.
  intros Hi. rewrite (take_S_r _ _ b) by (by apply list_lookup_insert_eq).
  by rewrite take_insert_ge by lia.
Qed.

Section Items.
Variables (cbuf : list byte) (cend start : Z).

Lemma item_step_facts fb bi s s' :
  item_step cbuf cend start fb bi s s' -> dwf start s ->
  dwf start s' /\ dCur s <= dCur s' /\ dSize s <= dSize s'
  /\ (dCur s' <= cend + 1 \/ dCur s' = dCur s).
Proof.
  intros H (Hs & Hu & Hl). unfold dwf.
  destruct H; cbn [dCur dBuf dSize]; rewrite ?len_insert; repeat split; try lia.
Qed.

Lemma item_fuel fb bi s : item cbuf cend start fb bi s <> OutOfFuel.
Proof.
  unfold item. destruct (dCur s <? cend); [|discriminate].
  destruct (_ =? 0).
  - destruct (index cbuf (dCur s)) eqn:E; cbn [obind]; try discriminate.
    + destruct (store (dBuf s) (dSize s) a) eqn:E'; cbn [obind]; try discriminate.
      by apply store_fuel in E'.
    + by apply index_fuel in E.
  - destruct (slice cbuf (dCur s) (dCur s + 2)) as [[|t0 [|t1 [|? ?]]]| |] eqn:E;
      cbn [obind]; try discriminate.
    + destruct (tokenFields _ _ _).
      destruct (copyLoop _ _ _ _) eqn:E'; cbn [obind]; try discriminate.
      by apply copyLoop_fuel in E'.
    + by apply slice_fuel in E.
Qed.

Lemma group_facts fb n bi s s' :
  dwf start s -> group cbuf cend start fb n bi s = Ret s' ->
  dwf start s' /\ dCur s <= dCur s' /\ dSize s <= dSize s'
  /\ (dCur s' <= cend + 1 \/ dCur s' = dCur s).
Proof.
  revert bi s. induction n as [|n IH]; intros bi s Hw H.
  - injection H as <-. split; [done|lia].
  - cbn [group] in H.
    destruct (item cbuf cend start fb bi s) as [s1| |] eqn:E; try discriminate.
    cbn [obind] in H. apply item_Ret in E; [|done].
    apply item_step_facts in E as (Hw1 & ? & ? & ?); [|done].
    apply IH in H as (? & ? & ? & ?); [|done]. split; [done|lia].
Qed.

Lemma group_fuel fb n bi s : group cbuf cend start fb n bi s <> OutOfFuel.
Proof.
  revert bi s. induction n as [|n IH]; intros bi s; [discriminate|].
  cbn [group]. destruct (item cbuf cend start fb bi s) eqn:E; cbn [obind];
    [apply IH|discriminate|by apply item_fuel in E].
Qed.

Lemma chunkLoop_facts fuel s s' :
  dwf start s -> chunkLoop fuel cbuf cend start s = Ret s' ->
  dwf start s' /\ cend <= dCur s' /\ dCur s <= dCur s' /\ dSize s <= dSize s'
  /\ (dCur s' <= cend + 1 \/ dCur s' = dCur s).
Proof.
  revert s. induction fuel as [|fuel IH]; intros s Hw H.
  - cbn [chunkLoop] in H. destruct (Z.ltb_spec (dCur s) cend); [discriminate|].
    injection H as <-. split; [done|lia].
  - cbn [chunkLoop] in H. destruct (Z.ltb_spec (dCur s) cend).
    2:{ injection H as <-. split; [done|lia]. }
    destruct (index cbuf (dCur s)) as [fb| |]; try discriminate. cbn [obind] in H.
    destruct (group _ _ _ _ _ _ _) as [s1| |] eqn:E; try discriminate.
    cbn [obind] in H. apply group_facts in E as (Hw1 & Hc & ? & Hd); [|done].
    cbn [dCur dSize] in *.
    apply IH in H as (? & ? & ? & ? & ?); [|done]. split; [done|lia].
Qed.

Lemma chunkLoop_fuel fuel s :
  dwf start s -> cend - dCur s <= Z.of_nat fuel ->
  chunkLoop fuel cbuf cend start s <> OutOfFuel.
Proof.
  revert s. induction fuel as [|fuel IH]; intros s Hw Hf.
  - cbn [chunkLoop]. destruct (Z.ltb_spec (dCur s) cend); [lia|discriminate].
  - cbn [chunkLoop]. destruct (Z.ltb_spec (dCur s) cend); [|discriminate].
    destruct (index cbuf (dCur s)) as [fb| |] eqn:Ei; cbn [obind];
      [|discriminate|by apply index_fuel in Ei].
    destruct (group _ _ _ _ _ _ _) as [s1| |] eqn:E; cbn [obind];
      [|discriminate|by apply group_fuel in E].
    apply group_facts in E as (Hw1 & Hc & _); [|done]. cbn [dCur] in Hc.
    apply IH; [done|lia].
Qed.
End Items.

(** ** Two runs of the decoder on buffers that agree on the chunk *)

Lemma agree_lookup n l1 l2 i :
  agree n l1 l2 -> 0 <= i < n -> l1 !! Z.to_nat i = l2 !! Z.to_nat i.
Proof.
  intros [_ H] Hi.
  rewrite <- (lookup_take_lt l1 (Z.to_nat n)), <- (lookup_take_lt l2 (Z.to_nat n)) by lia.
  by rewrite H.
Qed.

Lemma agree_refl n l : agree n l l.
Proof. by split. Qed.

Lemma agree_sym n l1 l2 : agree n l1 l2 -> agree n l2 l1.
Proof. intros [? ?]. by split. Qed.

Lemma agree_le n m l1 l2 : agree n l1 l2 -> m <= n -> agree m l1 l2.
Proof.
  intros [Hl H] Hm. split; [done|].
  assert (E : forall l : list byte,
             take (Z.to_nat m) l = take (Z.to_nat m) (take (Z.to_nat n) l)).
  { intros l. rewrite take_take. f_equal. lia. }
  by rewrite (E l1), (E l2), H.
Qed.

Lemma agree_insert n l1 l2 b :
  agree n l1 l2 -> 0 <= n < len l1 ->
  agree (n + 1) (<[Z.to_nat n := b]> l1) (<[Z.to_nat n := b]> l2).
Proof.
  intros [Hl H] Hn. split; [by rewrite !len_insert|].
  replace (Z.to_nat (n + 1)) with (S (Z.to_nat n)) by lia.
  unfold len in *. rewrite !take_insert_snoc by lia. by rewrite H.
Qed.

Lemma copyLoop_sim n idx ub1 ub2 usz r :
  agree usz ub1 ub2 -> (0 < n)%nat -> idx < usz -> 0 <= usz <= len ub1 ->
  copyLoop n idx ub1 usz = Ret r ->
  exists ub2', copyLoop n idx ub2 usz = Ret (ub2', snd r)
    /\ snd r = usz + Z.of_nat n /\ agree (snd r) (fst r) ub2'.
Proof.
  intros [Hl Ht] Hn Hi Hu H.
  destruct (copyLoop_Ret_iff n idx ub1 usz Hn Hi Hu) as [[H0 H1] _]; [eauto|].
  destruct (copyLoop_ok n idx ub1 usz) as (u1 & E1 & L1 & T1 & _); [lia|lia|].
  destruct (copyLoop_ok n idx ub2 usz) as (u2 & E2 & L2 & T2 & _); [lia|lia|].
  rewrite H in E1. injection E1 as ->. cbn [fst snd].
  exists u2. split; [done|]. split; [done|]. split; [lia|].
  by rewrite T1, T2, Ht.
Qed.

Section Sim.
Variables (cb1 cb2 : list byte) (cend start : Z).
Hypothesis Hcb : agree cend cb1 cb2.

Lemma dsim_dwf s1 s2 : dsim s1 s2 -> dwf start s1 -> dwf start s2.
Proof. intros (_ & Hs & Hl & _) (? & ? & ?). unfold dwf. rewrite <- Hs, <- Hl. done. Qed.

Lemma item_sim fb bi s1 s2 s1' :
  dsim s1 s2 -> dwf start s1 ->
  item cb1 cend start fb bi s1 = Ret s1' -> dCur s1' <= cend ->
  exists s2', item cb2 cend start fb bi s2 = Ret s2' /\ dsim s1' s2'.
Proof.
  intros Hsim Hw H Hle. pose proof Hsim as (Hc & Hs & Ha).
  pose proof Hw as (Hw0 & Hw1 & Hw2).
  apply item_Ret in H; [|done]. destruct H.
  - exists s2. split; [|done]. apply item_skip. lia.
  - cbn [dCur] in Hle. exists (mkD (dCur s2 + 1) (<[Z.to_nat (dSize s2) := b]> (dBuf s2)) (dSize s2 + 1)).
    split.
    + rewrite item_literal by (done || lia).
      assert (Ei : index cb2 (dCur s2) = Ret b).
      { apply index_Ret. split; [lia|]. rewrite <- Hc.
        rewrite <- (agree_lookup cend cb1 cb2) by (done || lia). done. }
      rewrite Ei. cbn [obind]. rewrite store_in; [done|].
      destruct Ha as [Hl _]. lia.
    + split; [cbn; lia|]. split; [cbn; lia|]. cbn [dSize dBuf].
      rewrite <- Hs. apply agree_insert; [done|lia].
  - cbn [dCur] in Hle.
    assert (Es : slice cb2 (dCur s2) (dCur s2 + 2) = Ret [t0; t1]).
    { destruct (slice2_in cb2 (dCur s2)) as (u0 & u1 & E & Hu0 & Hu1).
      - lia.
      - destruct Hcb as [Hlc _]. rewrite <- Hlc, <- Hc.
        apply lookup_lt_Some in H3. unfold len. lia.
      - rewrite E. rewrite <- Hc in Hu0, Hu1.
        rewrite <- (agree_lookup cend cb1 cb2) in Hu0, Hu1 by (done || lia).
        by simplify_eq. }
    rewrite (item_token _ _ _ _ _ _ t0 t1) by (done || lia).
    rewrite <- Hs, H4. cbn [fst snd].
    destruct (copyLoop_ok (Z.to_nat length) (dSize s1 - offset) (dBuf s1) (dSize s1))
      as (u1 & E1 & L1 & T1 & _); [lia|lia|].
    destruct (copyLoop_ok (Z.to_nat length) (dSize s1 - offset) (dBuf s2) (dSize s1))
      as (u2 & E2 & L2 & T2 & _); [lia|destruct Ha; lia|].
    rewrite E2. cbn [obind fst snd]. eexists. split; [done|].
    rewrite Z2Nat.id in * by lia.
    split; [cbn; lia|]. split; [cbn; lia|]. cbn [dSize dBuf].
    destruct Ha as [Hl Ht]. split; [lia|].
    rewrite T2, <- Ht.
    replace (Z.to_nat (dSize s1 - (dSize s1 - offset))) with (Z.to_nat offset) by lia.
    done.
Qed.

Lemma group_sim fb n bi s1 s2 s1' :
  dsim s1 s2 -> dwf start s1 ->
  group cb1 cend start fb n bi s1 = Ret s1' -> dCur s1' <= cend ->
  exists s2', group cb2 cend start fb n bi s2 = Ret s2' /\ dsim s1' s2'.
Proof.
  revert bi s1 s2. induction n as [|n IH]; intros bi s1 s2 Hsim Hw H Hle.
  - injection H as <-. by exists s2.
  - cbn [group] in H |- *.
    destruct (item cb1 cend start fb bi s1) as [t1| |] eqn:E; try discriminate.
    cbn [obind] in H.
    assert (Hw1 : dwf start t1 /\ dCur t1 <= dCur s1').
    { pose proof E as E'. apply item_Ret in E'; [|done].
      apply item_step_facts in E' as (Hw1 & _); [|done]. split; [done|].
      apply group_facts in H as (_ & ? & _); done. }
    destruct Hw1 as [Hw1 Hm].
    destruct (item_sim fb bi s1 s2 t1) as (t2 & -> & Hsim'); [done|done|done|lia|].
    cbn [obind]. by apply (IH _ t1).
Qed.

Lemma chunkLoop_sim fuel s1 s2 s1' :
  dsim s1 s2 -> dwf start s1 ->
  chunkLoop fuel cb1 cend start s1 = Ret s1' -> dCur s1' <= cend ->
  exists s2', chunkLoop fuel cb2 cend start s2 = Ret s2' /\ dsim s1' s2'.
Proof.
  revert s1 s2. induction fuel as [|fuel IH]; intros s1 s2 Hsim Hw H Hle;
    pose proof Hsim as (Hc & Hs & Ha).
  - cbn [chunkLoop] in H |- *. rewrite <- Hc.
    destruct (Z.ltb_spec (dCur s1) cend); [discriminate|].
    injection H as <-. by exists s2.
  - cbn [chunkLoop] in H |- *. rewrite <- Hc.
    destruct (Z.ltb_spec (dCur s1) cend).
    2:{ injection H as <-. by exists s2. }
    destruct (index cb1 (dCur s1)) as [fb| |] eqn:Ei; try discriminate.
    cbn [obind] in H.
    assert (Ei2 : index cb2 (dCur s1) = Ret fb).
    { apply index_Ret in Ei as [? Ei]. apply index_Ret. split; [done|].
      rewrite <- (agree_lookup cend cb1 cb2) by (done || lia). done. }
    rewrite Ei2. cbn [obind].
    destruct (group cb1 _ _ _ _ _ _) as [t1| |] eqn:E; try discriminate.
    cbn [obind] in H.
    assert (Hw0 : dwf start (mkD (dCur s1 + 1) (dBuf s1) (dSize s1))) by exact Hw.
    pose proof E as E'. apply group_facts in E' as (Hw1 & _); [|done].
    assert (Hm : dCur t1 <= dCur s1').
    { apply chunkLoop_facts in H as (_ & _ & ? & _); done. }
    destruct (group_sim fb 8 0 (mkD (dCur s1 + 1) (dBuf s1) (dSize s1))
                (mkD (dCur s1 + 1) (dBuf s2) (dSize s2)) t1)
      as (t2 & E2 & Hsim'); [|done|done|lia|].
    { split; [done|]. split; done. }
    rewrite E2. cbn [obind]. by apply (IH t1).
Qed.
End Sim.

(** ** uncompressChunk, branch by branch *)

Lemma chunkSize_range h : 3 <= chunkSize h <= 4098.
Proof.
  unfold chunkSize, u16. change 0x0FFF with (Z.ones 12).
  rewrite Z.land_ones by lia. change (2 ^ 12) with 4096.
  pose proof (Z.mod_pos_bound h 4096 ltac:(lia)).
  rewrite Z.mod_small by lia. lia.
Qed.

Lemma chunkFlag_range h : chunkFlag h = 0 \/ chunkFlag h = 1.
Proof.
  unfold chunkFlag.
  assert (E : Z.land (Z.shiftr h 15) 1 = Z.shiftr h 15 mod 2)
    by (apply (Z.land_ones (Z.shiftr h 15) 1); lia).
  rewrite E. pose proof (Z.mod_pos_bound (Z.shiftr h 15) 2 ltac:(lia)). lia.
Qed.

Lemma headerOf_Ret cbuf h :
  headerOf cbuf = Ret h <->
  exists b0 b1, cbuf !! 0%nat = Some b0 /\ cbuf !! 1%nat = Some b1 /\ h = le16 b0 b1.
Proof.
  unfold headerOf. split.
  - destruct (slice cbuf 0 2) as [x| |] eqn:E; try discriminate. cbn [obind].
    apply (slice2_Ret cbuf 0) in E as (b0 & b1 & -> & _ & _ & H0 & H1).
    intros [= <-]. exists b0, b1. done.
  - intros (b0 & b1 & H0 & H1 & ->).
    destruct (slice2_in cbuf 0) as (c0 & c1 & E & Hc0 & Hc1); [lia| |].
    { apply lookup_lt_Some in H1. unfold len. lia. }
    change (0 + 2) with 2 in E. rewrite E. cbn [obind].
    change (Z.to_nat 0) with 0%nat in Hc0. change (Z.to_nat (0 + 1)) with 1%nat in Hc1.
    by simplify_eq.
Qed.

Lemma headerOf_in cbuf :
  2 <= len cbuf -> exists h, headerOf cbuf = Ret h /\ 0 <= h < 65536.
Proof.
  intros Hl. unfold len in Hl.
  destruct (lookup_lt_is_Some_2 cbuf 0) as [b0 H0]; [lia|].
  destruct (lookup_lt_is_Some_2 cbuf 1) as [b1 H1]; [lia|].
  exists (le16 b0 b1). split; [|apply le16_range].
  apply headerOf_Ret. by exists b0, b1.
Qed.

Section Chunk.
Context {W : Type} `{!Writer W}.
Implicit Type st : VBAWriter W.

Lemma uncompressChunk_signature st h :
  headerOf (compressedBuffer st) = Ret h -> chunkSignature h <> 3 ->
  uncompressChunk st = Ret (set_uSize 0 st, (0, Some ErrChunkSignature)).
Proof.
  intros Hh Hs. unfold uncompressChunk. rewrite Hh. cbn [obind].
  destruct (Z.eqb_spec (chunkSignature h) 3); [done|]. done.
Qed.

Lemma uncompressChunk_insufficient st h :
  headerOf (compressedBuffer st) = Ret h -> chunkSignature h = 3 ->
  cSize st < chunkSize h ->
  uncompressChunk st = Ret (set_uSize 0 st, (0, None)).
Proof.
  intros Hh Hs Hc. unfold uncompressChunk. rewrite Hh. cbn [obind].
  rewrite Hs. cbn [Z.eqb Pos.eqb negb set_uSize cSize].
  destruct (Z.gtb_spec (chunkSize h) (cSize st)); [done|lia].
Qed.

Lemma uncompressChunk_raw_size st h :
  headerOf (compressedBuffer st) = Ret h -> chunkSignature h = 3 ->
  chunkSize h <= cSize st -> chunkFlag h = 0 -> chunkSize h <> 4098 ->
  uncompressChunk st = Ret (set_uSize 0 st, (0, Some ErrChunkSize)).
Proof.
  intros Hh Hs Hc Hf Hz. unfold uncompressChunk. rewrite Hh. cbn [obind].
  rewrite Hs, Hf. cbn [Z.eqb Pos.eqb negb set_uSize cSize].
  destruct (Z.gtb_spec (chunkSize h) (cSize st)); [lia|].
  destruct (Z.eqb_spec (chunkSize h) 4098); [lia|done].
Qed.

Lemma uncompressChunk_raw st h :
  headerOf (compressedBuffer st) = Ret h -> chunkSignature h = 3 ->
  chunkSize h <= cSize st -> chunkFlag h = 0 -> chunkSize h = 4098 ->
  4098 <= len (compressedBuffer st) -> 4096 <= len (uncompressedBuffer st) ->
  uncompressChunk st =
    Ret (set_uSize 4096
           (set_uncompressedBuffer
              (take 4096 (drop 2 (compressedBuffer st))
                 ++ drop 4096 (uncompressedBuffer st))
              (set_uSize 0 st)),
         (4098, None)).
Proof.
  intros Hh Hs Hc Hf Hz Hlc Hlu. unfold uncompressChunk. rewrite Hh. cbn [obind].
  rewrite Hs, Hf, Hz.
  cbn [Z.eqb Pos.eqb negb set_uSize cSize uSize compressedBuffer uncompressedBuffer].
  destruct (Z.gtb_spec 4098 (cSize st)); [lia|].
  rewrite slice_in by lia. cbn [obind]. unfold copy_into.
  change (0 + 4096) with 4096. change (2 + 4096 - 2) with 4096. change (2 + 4096) with 4098.
  destruct (Z.leb_spec 4096 (len (uncompressedBuffer st))); [|lia].
  cbn [Z.leb Z.compare andb obind].
  do 3 f_equal. 
  change (Z.to_nat 0) with 0%nat. rewrite take_0. cbn [app].
  assert (El : len (take (Z.to_nat 4096) (drop (Z.to_nat 2) (compressedBuffer st))) = 4096).
  { unfold len in *. rewrite length_take, length_drop. lia. }
  rewrite El. change (4096 - 0) with 4096. change (Z.min 4096 4096) with 4096.
  rewrite take_take. rewrite Nat.min_id. done.
Qed.

Lemma uncompressChunk_compressed st h :
  headerOf (compressedBuffer st) = Ret h -> chunkSignature h = 3 ->
  chunkSize h <= cSize st -> chunkFlag h <> 0 ->
  uncompressChunk st =
    (let! s := chunkLoop (Z.to_nat (chunkSize h - 2)) (compressedBuffer st)
                 (chunkSize h) 0 (mkD 2 (uncompressedBuffer st) 0) in
     Ret (set_uSize (dSize s) (set_uncompressedBuffer (dBuf s) (set_uSize 0 st)),
          (dCur s, None))).
Proof.
  intros Hh Hs Hc Hf. unfold uncompressChunk. rewrite Hh. cbn [obind].
  rewrite Hs. cbn [Z.eqb Pos.eqb negb set_uSize cSize uSize compressedBuffer uncompressedBuffer].
  destruct (Z.gtb_spec (chunkSize h) (cSize st)); [lia|].
  destruct (Z.eqb_spec (chunkFlag h) 0); [lia|]. done.
Qed.

(** The fields [uncompressChunk] leaves alone. *)
Lemma uncompressChunk_frame st st' n e :
  uncompressChunk st = Ret (st', (n, e)) ->
  wr st' = wr st /\ compressedBuffer st' = compressedBuffer st
  /\ cSize st' = cSize st /\ marker_cur st' = marker_cur st
  /\ marker_found st' = marker_found st.
Proof.
  unfold uncompressChunk. intros H.
  destruct (headerOf (compressedBuffer st)) as [h| |]; try discriminate.
  cbn [obind] in H. repeat case_match; try discriminate.
  all: try (injection H as <- <- <-; done).
  all: repeat match type of H with
       | (let! _ := ?m in _) = _ => destruct m; try discriminate; cbn [obind] in H
       end.
  all: injection H as <- <- <-; done.
Qed.
End Chunk.

Section ChunkBounds.
Context {W : Type} `{!Writer W}.
Implicit Type st : VBAWriter W.

Lemma uncompressChunk_Ret st st' n h :
  len (uncompressedBuffer st) = VBABuffSize ->
  headerOf (compressedBuffer st) = Ret h ->
  uncompressChunk st = Ret (st', (n, None)) -> n <> 0 ->
  chunkSignature h = 3 /\ chunkSize h <= cSize st
  /\ chunkSize h <= n <= chunkSize h + 1
  /\ 0 <= uSize st' <= VBABuffSize
  /\ len (uncompressedBuffer st') = VBABuffSize
  /\ (chunkFlag h = 0 -> n = chunkSize h /\ n = 4098 /\ uSize st' = 4096).
Proof.
  intros Hlu Hh H Hn.
  destruct (Z.eq_dec (chunkSignature h) 3) as [Hs|Hs].
  2:{ rewrite (uncompressChunk_signature st h) in H by done. discriminate. }
  destruct (Z.ltb_spec (cSize st) (chunkSize h)) as [Hc|Hc].
  { rewrite (uncompressChunk_insufficient st h) in H by done. by injection H as <- <-. }
  pose proof (chunkSize_range h) as Hr.
  destruct (Z.eq_dec (chunkFlag h) 0) as [Hf|Hf].
  - destruct (Z.eq_dec (chunkSize h) 4098) as [Hz|Hz].
    2:{ rewrite (uncompressChunk_raw_size st h) in H by done. discriminate. }
    pose proof H as H'. unfold uncompressChunk in H'. rewrite Hh in H'. cbn [obind] in H'.
    rewrite Hs, Hf, Hz in H'.
    cbn [Z.eqb Pos.eqb negb set_uSize cSize uSize compressedBuffer uncompressedBuffer] in H'.
    destruct (Z.gtb_spec 4098 (cSize st)); [lia|].
    destruct (slice (compressedBuffer st) 2 (2 + 4096)) as [src| |] eqn:Es; try discriminate.
    apply slice_Ret in Es as (_ & Hlc & ->). cbn [obind] in H'.
    rewrite (uncompressChunk_raw st h) in H by (done || unfold VBABuffSize in *; lia).
    injection H as <- <-. cbn. unfold VBABuffSize in *. repeat split; try lia.
    unfold len in *. rewrite length_app, length_take, !length_drop. lia.
  - rewrite (uncompressChunk_compressed st h) in H by done.
    destruct (chunkLoop _ _ _ _ _) as [s| |] eqn:E; try discriminate.
    cbn [obind] in H. injection H as <- <-.
    apply chunkLoop_facts in E as (Hw & H1 & H2 & H3 & H4).
    2:{ split; [cbn; lia|]. split; cbn; [|done]. rewrite Hlu. unfold VBABuffSize. lia. }
    destruct Hw as (Hw1 & Hw2 & Hw3). cbn in *. rewrite Hw3 in Hw2.
    repeat split; lia.
Qed.
End ChunkBounds.

(** ** uncompress and the shift of the accumulation buffer *)

Section Uncompress.
Context {W : Type} `{!Writer W}.
Implicit Type st : VBAWriter W.

Lemma uncompressLoop_done fuel st total :
  cSize st <= 0 -> uncompressLoop fuel st total = Ret (st, (total, None)).
Proof.
  intros H. destruct fuel; cbn [uncompressLoop];
    destruct (Z.gtb_spec (cSize st) 0); (lia || done).
Qed.

Lemma uncompressLoop_step fuel st total :
  0 < cSize st ->
  uncompressLoop (S fuel) st total =
    (let! r := uncompressChunk st in
     match r with
     | (st, (processed, Some e)) => Ret (st, (total + processed, Some e))
     | (st, (processed, None)) =>
         if processed =? 0 then Ret (st, (total, None))
         else match flushChunk st (total + processed) processed with
              | inl r => r
              | inr st => uncompressLoop fuel st (total + processed)
              end
     end).
Proof.
  intros H. cbn [uncompressLoop]. destruct (Z.gtb_spec (cSize st) 0); [|lia].
  destruct (uncompressChunk st) as [[st1 [n [e|]]]| |]; done.
Qed.

Lemma uncompress_unfold st :
  0 < cSize st ->
  uncompress st = uncompressLoop (S (Z.to_nat (cSize st - 1))) st 0.
Proof. intros H. unfold uncompress. f_equal. lia. Qed.
End Uncompress.

Lemma flushChunk_log (st : VBAWriter Log) total processed :
  0 <= uSize st <= len (uncompressedBuffer st) ->
  0 <= processed <= cSize st -> cSize st <= len (compressedBuffer st) ->
  flushChunk st total processed =
    inr (mkVBA (wr st ++ flushes [take (Z.to_nat (uSize st)) (uncompressedBuffer st)])
           (shifted (compressedBuffer st) (cSize st) processed)
           (uncompressedBuffer st) (cSize st - processed) 0
           (marker_cur st) (marker_found st)).
Proof.
  intros Hu Hp Hc. unfold flushChunk.
  assert (Hfl : writeOut st total
    = inr (set_uSize 0 (set_wr (wr st ++
        flushes [take (Z.to_nat (uSize st)) (uncompressedBuffer st)]) st))).
  { unfold writeOut.
    destruct (Z.eqb_spec (uSize st) 0) as [E|E]; cbn [negb].
    - rewrite E. change (Z.to_nat 0) with 0%nat. rewrite take_0.
      unfold flushes. cbn. rewrite app_nil_r. destruct st; cbn in *. by subst.
    - rewrite slice_in by lia. rewrite Z.sub_0_r. change (Z.to_nat 0) with 0%nat.
      rewrite drop_0. unfold wr_Write, logWriter.
      assert (El : len (take (Z.to_nat (uSize st)) (uncompressedBuffer st)) = uSize st).
      { unfold len in *. rewrite length_take_le; lia. }
      rewrite El, Z.eqb_refl. cbn [negb]. do 3 f_equal.
      unfold flushes. cbn [filter list_filter].
      destruct (decide _) as [|Hn]; [done|]. exfalso. apply Hn. intros Hnil.
      rewrite Hnil in El. unfold len in El. cbn [length] in El. lia. }
  rewrite Hfl. unfold shiftLeft.
  cbn [set_uSize set_wr cSize compressedBuffer wr uncompressedBuffer
       marker_cur marker_found uSize].
  destruct (Z.ltb_spec (cSize st - processed) 0); [lia|].
  unfold shifted. destruct (Z.gtb_spec (cSize st - processed) 0).
  - rewrite slice_in by lia. unfold copy_into.
    destruct (Z.leb_spec 0 (cSize st - processed)); [|lia].
    destruct (Z.leb_spec (cSize st - processed) (len (compressedBuffer st))); [|lia].
    cbn [Z.leb Z.compare andb]. rewrite Z.sub_0_r.
    assert (El : len (take (Z.to_nat (cSize st - processed))
                        (drop (Z.to_nat processed) (compressedBuffer st)))
                 = cSize st - processed).
    { unfold len in *. rewrite length_take, length_drop. lia. }
    rewrite El, Z.min_id. change (Z.to_nat 0) with 0%nat. rewrite take_0.
    cbn [app Nat.add]. rewrite take_take, Nat.min_id.
    unfold set_cSize, set_compressedBuffer. cbn. done.
  - unfold set_cSize. cbn. done.
Qed.

Lemma pending_shifted cbuf csz processed :
  0 <= processed <= csz -> csz <= len cbuf ->
  take (Z.to_nat (csz - processed)) (shifted cbuf csz processed)
  = drop (Z.to_nat processed) (take (Z.to_nat csz) cbuf).
Proof.
  intros Hp Hc. unfold shifted. destruct (Z.gtb_spec (csz - processed) 0).
  - rewrite take_app_le by (unfold len in *; rewrite length_take, length_drop; lia).
    rewrite take_take, Nat.min_id. rewrite take_drop_commute. do 2 f_equal. lia.
  - replace (Z.to_nat (csz - processed)) with 0%nat by lia. rewrite take_0.
    symmetry. apply drop_ge. rewrite length_take. lia.
Qed.

Lemma len_shifted cbuf csz processed :
  0 <= processed <= csz -> csz <= len cbuf -> len (shifted cbuf csz processed) = len cbuf.
Proof.
  intros Hp Hc. unfold shifted. destruct (Z.gtb_spec (csz - processed) 0); [|done].
  unfold len in *. rewrite length_app, length_take, !length_drop. lia.
Qed.

Lemma lookup_shifted_1 cbuf csz processed :
  0 <= processed <= csz -> csz <= len cbuf -> csz - processed < 2 ->
  shifted cbuf csz processed !! 1%nat = cbuf !! 1%nat.
Proof.
  intros Hp Hc H2. unfold shifted. destruct (Z.gtb_spec (csz - processed) 0); [|done].
  replace (Z.to_nat (csz - processed)) with 1%nat by lia.
  rewrite lookup_app_r by (rewrite length_take, length_drop; unfold len in *; lia).
  rewrite length_take, length_drop.
  replace (1 - 1 `min` (length cbuf - Z.to_nat processed))%nat with 0%nat
    by (unfold len in *; lia).
  rewrite lookup_drop. done.
Qed.

(** ** Chunks of a container *)

Lemma headerWord_app c t h : headerWord c = Some h -> headerWord (c ++ t) = Some h.
Proof. destruct c as [|b0 [|b1 c]]; try discriminate. done. Qed.

Lemma headerWord_prefix p q h :
  headerWord (p ++ q) = Some h -> 2 <= len p -> headerWord p = Some h.
Proof.
  destruct p as [|b0 [|b1 p]]; unfold len; cbn [length]; try lia. done.
Qed.

Lemma headerWord_None t : headerWord t = None <-> len t < 2.
Proof.
  destruct t as [|b0 [|b1 t]]; unfold len; cbn [length headerWord]; split; try done; lia.
Qed.

Lemma len_app l k : len (l ++ k) = len l + len k.
Proof. unfold len. rewrite length_app. lia. Qed.

Lemma incomplete_prefix p q : incomplete (p ++ q) -> incomplete p.
Proof.
  unfold incomplete. destruct (headerWord p) as [h|] eqn:E; [|done].
  rewrite (headerWord_app _ _ _ E). rewrite len_app. pose proof (len_nonneg q).
  intros [? ?]. split; [done|lia].
Qed.

Lemma chunks_incomplete t outs r : chunks t outs r -> incomplete r.
Proof. induction 1; done. Qed.

Lemma chunks_of_incomplete t outs r :
  incomplete t -> chunks t outs r -> outs = [] /\ r = t.
Proof.
  intros Hi H. destruct H as [r _|c out t outs r (h & Hh & Hs & Hz & _) _]; [done|].
  exfalso. unfold incomplete in Hi. rewrite (headerWord_app _ _ _ Hh) in Hi.
  rewrite len_app in Hi. pose proof (len_nonneg t). lia.
Qed.

Lemma app_eq_len (c1 c2 t1 t2 : list byte) :
  c1 ++ t1 = c2 ++ t2 -> len c1 = len c2 -> c1 = c2 /\ t1 = t2.
Proof.
  intros H Hl. apply app_inj_1 in H; [done|]. unfold len in Hl. lia.
Qed.

Lemma chunks_det t outs1 r1 outs2 r2 :
  chunks t outs1 r1 -> chunks t outs2 r2 -> outs1 = outs2 /\ r1 = r2.
Proof.
  intros H1. revert outs2 r2.
  induction H1 as [r Hi|c out t outs r Hv H1 IH]; intros outs2 r2 H2.
  - apply chunks_of_incomplete in H2 as [-> ->]; done.
  - remember (c ++ t) as u eqn:Eu.
    destruct H2 as [r2 Hi|c2 out2 t2 outs2 r2 Hv2 H2].
    + subst. exfalso. assert (Hc : chunks (c ++ t) (out :: outs) r) by (by constructor).
      apply chunks_of_incomplete in Hc as [? _]; done.
    + destruct Hv as (h & Hh & Hs & Hz & Ho), Hv2 as (h2 & Hh2 & Hs2 & Hz2 & Ho2).
      assert (h2 = h).
      { apply (headerWord_app _ t) in Hh. apply (headerWord_app _ t2) in Hh2.
        rewrite <- Eu in Hh. congruence. }
      subst h2. apply app_eq_len in Eu as [-> ->]; [|lia].
      apply IH in H2 as [-> ->]. split; congruence.
Qed.

(** Splitting the input of [chunks] anywhere. *)
Lemma chunks_split t outs r :
  chunks t outs r -> forall p q, t = p ++ q ->
  exists outs1 r1 outs2,
    chunks p outs1 r1 /\ chunks (r1 ++ q) outs2 r /\ outs = outs1 ++ outs2.
Proof.
  induction 1 as [r Hi|c out t outs r Hv H IH]; intros p q E.
  - subst. exists [], p, []. split; [|split; [|done]].
    + constructor. by apply incomplete_prefix in Hi.
    + by constructor.
  - destruct (Z.leb_spec (len c) (len p)) as [Hle|Hlt].
    + (* the first chunk lies in [p] *)
      assert (Ep : p = c ++ drop (length c) p /\ t = drop (length c) p ++ q).
      { assert (E1 : take (length c) (c ++ t) = take (length c) (p ++ q)) by (by rewrite E).
        rewrite take_app_length in E1. rewrite take_app_le in E1 by (unfold len in *; lia).
        assert (E2 : drop (length c) (c ++ t) = drop (length c) (p ++ q)) by (by rewrite E).
        rewrite drop_app_length in E2. rewrite drop_app_le in E2 by (unfold len in *; lia).
        split; [|done]. rewrite E1 at 1. by rewrite take_drop. }
      destruct Ep as [Ep Et].
      destruct (IH _ _ Et) as (outs1 & r1 & outs2 & H1 & H2 & ->).
      exists (out :: outs1), r1, outs2. split; [|done].
      rewrite Ep. by constructor.
    + (* [p] ends inside the first chunk *)
      exists [], p, (out :: outs). split; [|split; [|done]].
      * constructor. unfold incomplete.
        destruct (headerWord p) as [h|] eqn:Ep; [|done].
        destruct Hv as (h' & Hh & Hs & Hz & _).
        assert (h' = h).
        { apply (headerWord_app _ q) in Ep. apply (headerWord_app _ t) in Hh.
          rewrite <- E in Ep. congruence. }
        subst h'. split; [done|lia].
      * rewrite <- E. by constructor.
Qed.

(** Joining two runs of [chunks]. *)
Lemma chunks_join p outs1 r1 q outs2 r :
  chunks p outs1 r1 -> chunks (r1 ++ q) outs2 r -> chunks (p ++ q) (outs1 ++ outs2) r.
Proof.
  induction 1 as [r1 Hi|c out t outs r1 Hv H IH]; intros H2; [done|].
  rewrite <- app_assoc. cbn [app]. constructor; [done|]. by apply IH.
Qed.

(** ** The writers behind the signature *)

Lemma chunkSignature_le16 b0 b1 :
  chunkSignature (le16 b0 b1) = Z.land (Z.shiftr (byteZ b1) 4) 7.
Proof.
  unfold chunkSignature. rewrite le16_eq.
  pose proof (byteZ_range b0). pose proof (byteZ_range b1).
  rewrite !Z.shiftr_div_pow2 by lia. f_equal.
  change (2 ^ 12) with 4096. change (2 ^ 4) with 16.
  Z.div_mod_to_equations. lia.
Qed.

Lemma len_pending st : WF st -> len (pending st) = cSize st.
Proof.
  intros [Hc _ Hs _ _]. unfold pending, len in *. rewrite length_take. lia.
Qed.

Lemma pending_lookup {W} (st : VBAWriter W) (i : nat) b :
  pending st !! i = Some b -> compressedBuffer st !! i = Some b.
Proof. unfold pending. intros H. by apply lookup_take_Some in H as [? _]. Qed.

Lemma headerWord_lookup t h :
  headerWord t = Some h <->
  exists b0 b1, t !! 0%nat = Some b0 /\ t !! 1%nat = Some b1 /\ h = le16 b0 b1.
Proof.
  destruct t as [|b0 [|b1 t]]; cbn; split; try discriminate.
  - intros (? & ? & ? & ? & _); discriminate.
  - intros (? & ? & ? & ? & _); discriminate.
  - intros [= <-]. by exists b0, b1.
  - intros (? & ? & [= <-] & [= <-] & ->). done.
Qed.

Lemma headerOf_pending {W} (st : VBAWriter W) h :
  headerWord (pending st) = Some h -> headerOf (compressedBuffer st) = Ret h.
Proof.
  intros (b0 & b1 & H0 & H1 & ->)%headerWord_lookup. apply headerOf_Ret.
  exists b0, b1. split_and!; [by apply pending_lookup..|done].
Qed.

Lemma loaded_len c :
  len c <= VBABuffSize -> len (compressedBuffer (loaded c)) = VBABuffSize.
Proof.
  intros H. unfold loaded, len in *. cbn [compressedBuffer].
  rewrite length_app, length_replicate. lia.
Qed.

Lemma loaded_pending c : take (length c) (compressedBuffer (loaded c)) = c.
Proof. unfold loaded. cbn [compressedBuffer]. by rewrite take_app_length. Qed.

Lemma loaded_header c h :
  headerWord c = Some h -> headerOf (compressedBuffer (loaded c)) = Ret h.
Proof.
  intros (b0 & b1 & H0 & H1 & ->)%headerWord_lookup. apply headerOf_Ret.
  exists b0, b1. unfold loaded. cbn [compressedBuffer].
  split_and!; [by apply lookup_app_l_Some..|done].
Qed.

Lemma uncompressChunk_raw_ex {W} `{!Writer W} (st : VBAWriter W) h :
  headerOf (compressedBuffer st) = Ret h -> chunkSignature h = 3 ->
  chunkSize h <= cSize st -> chunkFlag h = 0 -> chunkSize h = 4098 ->
  len (compressedBuffer st) = VBABuffSize -> len (uncompressedBuffer st) = VBABuffSize ->
  exists ub,
    uncompressChunk st
    = Ret (set_uSize 4096 (set_uncompressedBuffer ub (set_uSize 0 st)), (4098, None))
    /\ len ub = VBABuffSize
    /\ take 4096 ub = take 4096 (drop 2 (compressedBuffer st)).
Proof.
  intros Hh Hs Hc Hf Hz Hlc Hlu. eexists. split; [|split].
  - apply (uncompressChunk_raw st h); try done; unfold VBABuffSize in *; lia.
  - unfold len, VBABuffSize in *. rewrite length_app, length_take, !length_drop. lia.
  - rewrite take_app_length'; [done|].
    unfold len, VBABuffSize in *. rewrite length_take, length_drop. lia.
Qed.

Lemma uncompressChunk_valid st c t out :
  WF st -> pending st = c ++ t -> validChunk c out ->
  exists ub,
    uncompressChunk st
    = Ret (set_uSize (len out) (set_uncompressedBuffer ub (set_uSize 0 st)),
           (len c, None))
    /\ len ub = VBABuffSize /\ take (Z.to_nat (len out)) ub = out.
Proof.
  intros Hwf Hp (h & Hh & Hs & Hz & Ho).
  pose proof (chunkSize_range h) as Hr.
  assert (Hcs : len c <= cSize st).
  { rewrite <- (len_pending st Hwf), Hp, len_app. pose proof (len_nonneg t). lia. }
  destruct Hwf as [Hlc Hlu Hcsz _ _].
  assert (Hhl : headerOf (compressedBuffer (loaded c)) = Ret h) by (by apply loaded_header).
  assert (Hhs : headerOf (compressedBuffer st) = Ret h).
  { apply headerOf_pending. rewrite Hp. by apply headerWord_app. }
  assert (Hag : agree (len c) (compressedBuffer (loaded c)) (compressedBuffer st)).
  { split; [rewrite loaded_len by lia; lia|].
    unfold len. rewrite Nat2Z.id, loaded_pending.
    assert (E : take (length c) (pending st) = c) by (by rewrite Hp, take_app_length).
    unfold pending in E. rewrite take_take in E.
    transitivity (take (length c `min` Z.to_nat (cSize st)) (compressedBuffer st));
      [by rewrite E | f_equal; unfold len in *; lia]. }
  unfold chunkOut in Ho.
  destruct (uncompressChunk (loaded c)) as [[stl [n [e|]]]| |] eqn:El; try discriminate.
  destruct (Z.eqb_spec n (len c)) as [->|]; [|discriminate]. injection Ho as <-.
  destruct (Z.eq_dec (chunkFlag h) 0) as [Hf|Hf].
  - (* a raw chunk *)
    destruct (Z.eq_dec (chunkSize h) 4098) as [Hz'|Hz'].
    2:{ rewrite (uncompressChunk_raw_size _ h) in El by (done || cbn; lia). discriminate. }
    destruct (uncompressChunk_raw_ex (loaded c) h) as (ub1 & E1 & L1 & T1);
      [done|done|cbn; lia|done|done|rewrite loaded_len; unfold VBABuffSize; lia|
        cbn; unfold len; rewrite length_replicate; unfold VBABuffSize; lia|].
    destruct (uncompressChunk_raw_ex st h) as (ub2 & E2 & L2 & T2);
      [done|done|lia|done|done|done|done|].
    rewrite E1 in El. injection El as <-.
    cbn [uSize uncompressedBuffer set_uSize set_uncompressedBuffer].
    change (Z.to_nat 4096) with 4096%nat.
    assert (Elen : len (take 4096 ub1) = 4096).
    { unfold len, VBABuffSize in *. rewrite length_take. lia. }
    exists ub2. rewrite Elen. split; [|split; [done|]].
    + rewrite E2. do 3 f_equal. lia.
    + change (Z.to_nat 4096) with 4096%nat. rewrite T1, T2.
      rewrite !take_drop_commute. f_equal. destruct Hag as [_ Hag].
      rewrite <- Hz, Hz' in Hag. symmetry. exact Hag.
  - (* a chunk of token groups *)
    rewrite (uncompressChunk_compressed _ h) in El by (done || cbn; lia).
    rewrite (uncompressChunk_compressed _ h) by (done || lia).
    destruct (chunkLoop _ _ _ _ _) as [s1| |] eqn:E1; try discriminate.
    cbn [obind] in El. injection El as <- Hn.
    cbn [uSize uncompressedBuffer set_uSize set_uncompressedBuffer].
    assert (Hw1 : dwf 0 (mkD 2 (uncompressedBuffer (loaded c)) 0)).
    { split; [cbn; lia|]. cbn. unfold len. rewrite length_replicate.
      unfold VBABuffSize. lia. }
    rewrite <- Hz in Hag.
    destruct (chunkLoop_sim _ _ _ 0 Hag (Z.to_nat (chunkSize h - 2))
                (mkD 2 (uncompressedBuffer (loaded c)) 0)
                (mkD 2 (uncompressedBuffer st) 0) s1) as (s2 & E2 & Hsim).
    + split; [done|]. split; [done|]. split; [|done]. cbn.
      unfold len at 1. rewrite length_replicate. rewrite Hlu. unfold VBABuffSize. lia.
    + done.
    + exact E1.
    + lia.
    + rewrite E2. cbn [obind].
      apply chunkLoop_facts in E1 as ((Hd0 & Hd1 & Hd2) & _); [|done].
      destruct Hsim as (Hc & Hsz & Hl & Ht).
      assert (Elen : len (take (Z.to_nat (dSize s1)) (dBuf s1)) = dSize s1).
      { unfold len in *. rewrite length_take. lia. }
      exists (dBuf s2). rewrite Elen. split; [|split].
      * rewrite Hsz, <- Hc, Hn. done.
      * lia.
      * by rewrite Ht.
Qed.

(** ** uncompress decodes the whole chunks it holds *)

Lemma flushes_cons out outs : flushes (out :: outs) = flushes [out] ++ flushes outs.
Proof. unfold flushes. by rewrite (filter_app _ [out] outs). Qed.

Lemma flushes_app o1 o2 : flushes (o1 ++ o2) = flushes o1 ++ flushes o2.
Proof. unfold flushes. by rewrite filter_app. Qed.

(** A chunk that is not all there: [uncompressChunk] asks for more. *)
Lemma uncompressChunk_incomplete st :
  WF st -> 0 < cSize st -> incomplete (pending st) ->
  uncompressChunk st = Ret (set_uSize 0 st, (0, None)).
Proof.
  intros Hwf Hc Hi. pose proof (len_pending st Hwf) as Hl.
  unfold incomplete in Hi. destruct (headerWord (pending st)) as [h|] eqn:Eh.
  - destruct Hi as [Hs Hz]. apply (uncompressChunk_insufficient st h); [|done|lia].
    by apply headerOf_pending.
  - apply headerWord_None in Eh.
    destruct (wf_stale st Hwf) as (b1 & Hb1 & Hsig); [lia|].
    destruct (lookup_lt_is_Some_2 (compressedBuffer st) 0) as [b0 Hb0].
    { pose proof (wf_cbuf st Hwf) as Hlc. unfold len, VBABuffSize in Hlc. lia. }
    apply (uncompressChunk_insufficient st (le16 b0 b1)).
    + apply headerOf_Ret. by exists b0, b1.
    + by rewrite chunkSignature_le16.
    + pose proof (chunkSize_range (le16 b0 b1)). lia.
Qed.

Lemma uncompressLoop_chunks t outs r :
  chunks t outs r -> forall st fuel total,
  pending st = t -> WF st -> cSize st <= Z.of_nat fuel ->
  exists st',
    uncompressLoop fuel st total = Ret (st', (total + (len t - len r), None))
    /\ wr st' = wr st ++ flushes outs /\ pending st' = r /\ WF st'
    /\ marker_cur st' = marker_cur st.
Proof.
  induction 1 as [r Hi|c out t outs r Hv H IH]; intros st fuel total Hp Hwf Hf.
  - destruct (Z.leb_spec (cSize st) 0) as [Hc|Hc].
    + exists st. rewrite uncompressLoop_done by done.
      unfold flushes. cbn. rewrite app_nil_r. split_and!; try done. do 3 f_equal. lia.
    + destruct fuel as [|fuel]; [lia|]. rewrite uncompressLoop_step by done.
      rewrite uncompressChunk_incomplete by (done || by rewrite Hp). cbn [obind Z.eqb].
      exists (set_uSize 0 st). unfold flushes. cbn [filter list_filter].
      rewrite app_nil_r. split_and!; try done.
      * do 3 f_equal. lia.
      * by destruct Hwf.
  - pose proof Hv as (h & Hh & Hs & Hz & Ho).
    pose proof (chunkSize_range h) as Hr.
    pose proof (len_pending st Hwf) as Hl. rewrite Hp, len_app in Hl.
    pose proof (len_nonneg t) as Hlt.
    destruct fuel as [|fuel]; [lia|]. rewrite uncompressLoop_step by lia.
    destruct (uncompressChunk_valid st c t out Hwf Hp Hv) as (ub & -> & Hlu & Hto).
    cbn [obind]. destruct (Z.eqb_spec (len c) 0); [lia|].
    assert (Hlo : 0 <= len out <= len ub).
    { split; [apply len_nonneg|]. rewrite <- Hto at 1. unfold len.
      rewrite length_take. lia. }
    pose proof Hwf as [Hlc Hlu0 Hcs Hfound Hstale].
    rewrite flushChunk_log; cbn [uSize set_uSize set_uncompressedBuffer uncompressedBuffer
      cSize compressedBuffer wr marker_cur marker_found];
      [|lia|lia|lia].
    rewrite Hto.
    set (st2 := mkVBA _ _ _ _ _ _ _).
    assert (Hp2 : pending st2 = t).
    { unfold pending, st2. cbn [cSize compressedBuffer].
      rewrite pending_shifted by lia. fold (pending st). rewrite Hp.
      unfold len. rewrite Nat2Z.id. by rewrite drop_app_length. }
    assert (Hwf2 : WF st2).
    { split; unfold st2; cbn [cSize compressedBuffer uncompressedBuffer marker_found].
      - rewrite len_shifted by lia. done.
      - done.
      - lia.
      - done.
      - intros H2. rewrite lookup_shifted_1 by lia.
        apply headerWord_lookup in Hh as (b0 & b1 & H0 & H1 & ->).
        exists b1. split.
        + apply pending_lookup. rewrite Hp. by apply lookup_app_l_Some.
        + unfold sigByte. by rewrite <- (chunkSignature_le16 b0). }
    destruct (IH st2 fuel (total + len c) Hp2 Hwf2) as (st' & E & Hw & Hp' & Hwf' & Hm).
    { unfold st2. cbn [cSize]. lia. }
    exists st'. rewrite E. split_and!; try done.
    + do 3 f_equal. rewrite len_app. lia.
    + rewrite Hw. unfold st2. cbn [wr]. rewrite (flushes_cons out outs).
      by rewrite app_assoc.
Qed.

(** [uncompress] decodes the whole chunks of the accumulation buffer,
    hands each to the sink, and keeps the rest. *)
Lemma uncompress_chunks st outs r :
  WF st -> chunks (pending st) outs r ->
  exists st',
    uncompress st = Ret (st', (len (pending st) - len r, None))
    /\ wr st' = wr st ++ flushes outs /\ pending st' = r /\ WF st'
    /\ marker_cur st' = marker_cur st.
Proof.
  intros Hwf H. unfold uncompress.
  destruct (uncompressLoop_chunks _ _ _ H st (Z.to_nat (cSize st)) 0 eq_refl Hwf)
    as (st' & E & ?); [destruct Hwf; lia|].
  exists st'. rewrite E. done.
Qed.

(** ** Write after the signature *)

Lemma len_take_drop (b : list byte) (off k : Z) :
  0 <= off -> 0 <= k -> off + k <= len b ->
  len (take (Z.to_nat k) (drop (Z.to_nat off) b)) = k.
Proof. intros. unfold len in *. rewrite length_take, length_drop. lia. Qed.

Lemma fill_spec (st : VBAWriter Log) b offset :
  WF st -> 0 <= offset < len b ->
  let k := Z.min (VBABuffSize - cSize st) (len b - offset) in
  exists st1,
    fill st b offset (len b - offset) (VBABuffSize - cSize st) = Ret (st1, offset + k)
    /\ pending st1 = pending st ++ take (Z.to_nat k) (drop (Z.to_nat offset) b)
    /\ WF st1 /\ wr st1 = wr st /\ marker_cur st1 = marker_cur st
    /\ cSize st1 = cSize st + k.
Proof.
  intros Hwf Ho k. pose proof Hwf as [Hlc Hlu Hcs Hfound Hstale].
  set (src := take (Z.to_nat k) (drop (Z.to_nat offset) b)).
  assert (Hls : len src = k) by (apply len_take_drop; lia).
  set (cb := take (Z.to_nat (cSize st)) (compressedBuffer st) ++ src
             ++ drop (Z.to_nat (cSize st) + Z.to_nat k) (compressedBuffer st)).
  assert (Hfill : fill st b offset (len b - offset) (VBABuffSize - cSize st)
                  = Ret (set_cSize (cSize st + k) (set_compressedBuffer cb st), offset + k)).
  { unfold fill. destruct (Z.ltb_spec (VBABuffSize - cSize st) (len b - offset)).
    - assert (Ek : k = VBABuffSize - cSize st) by lia.
      rewrite slice_in by lia. cbn [obind]. unfold copy_into.
      destruct (Z.leb_spec 0 (cSize st)); [|lia].
      destruct (Z.leb_spec (cSize st) (len (compressedBuffer st))); [|lia].
      rewrite Z.leb_refl. cbn [andb obind].
      replace (offset + (VBABuffSize - cSize st) - offset) with k by lia. fold src.
      rewrite Hls, Hlc, <- Ek, Z.min_id.
      unfold cb. rewrite (take_ge src) by (unfold len in Hls; lia). done.
    - assert (Ek : k = len b - offset) by lia.
      rewrite slice_in by lia. cbn [obind]. unfold copy_into.
      destruct (Z.leb_spec 0 (cSize st)); [|lia].
      destruct (Z.leb_spec (cSize st) (cSize st + (len b - offset))); [|lia].
      destruct (Z.leb_spec (cSize st + (len b - offset)) (len (compressedBuffer st))); [|lia].
      cbn [andb obind]. rewrite <- Ek. fold src.
      replace (cSize st + k - cSize st) with k by lia.
      rewrite Hls, Z.min_id.
      unfold cb. rewrite (take_ge src) by (unfold len in Hls; lia). done. }
  exists (set_cSize (cSize st + k) (set_compressedBuffer cb st)).
  split; [exact Hfill|].
  assert (Hlt : length (take (Z.to_nat (cSize st)) (compressedBuffer st)) = Z.to_nat (cSize st)).
  { rewrite length_take. unfold len in Hlc. lia. }
  split; [|split; [|done]].
  - unfold pending. cbn [cSize compressedBuffer set_cSize set_compressedBuffer].
    unfold cb. rewrite app_assoc. rewrite take_app_length'; [done|].
    rewrite length_app, Hlt. unfold len in Hls. lia.
  - split; cbn [cSize compressedBuffer uncompressedBuffer marker_found set_cSize
                 set_compressedBuffer]; try done.
    + unfold cb, len in *. rewrite !length_app, Hlt, length_drop. lia.
    + lia.
    + intros H2. destruct Hstale as (b1 & Hb1 & Hsig); [lia|]. exists b1. split; [|done].
      unfold cb. rewrite app_assoc. rewrite lookup_app_r.
      2:{ rewrite length_app, Hlt. unfold len in Hls. lia. }
      rewrite lookup_drop. rewrite length_app, Hlt. rewrite <- Hb1. f_equal.
      unfold len in Hls. lia.
Qed.

Lemma writeLoop_done fuel (st : VBAWriter Log) b offset buffAvail vbaAvail total :
  buffAvail <= 0 ->
  writeLoop fuel st b offset buffAvail vbaAvail total = Ret (st, (len b, None)).
Proof.
  intros H. destruct fuel; cbn [writeLoop];
    destruct (Z.gtb_spec buffAvail 0); (lia || done).
Qed.

Lemma incomplete_short r : incomplete r -> len r < VBABuffSize.
Proof.
  unfold incomplete. destruct (headerWord r) as [h|] eqn:E.
  - intros [_ H]. pose proof (chunkSize_range h). unfold VBABuffSize. lia.
  - intros _. apply headerWord_None in E. unfold VBABuffSize. lia.
Qed.

Lemma drop_split (b : list byte) (off k : Z) :
  0 <= off -> 0 <= k ->
  drop (Z.to_nat off) b
  = take (Z.to_nat k) (drop (Z.to_nat off) b) ++ drop (Z.to_nat (off + k)) b.
Proof.
  intros. rewrite <- (take_drop (Z.to_nat k) (drop (Z.to_nat off) b)) at 1.
  rewrite drop_drop. do 2 f_equal. lia.
Qed.

Lemma writeLoop_chunks fuel : forall (st : VBAWriter Log) b offset outs r,
  WF st -> cSize st < VBABuffSize -> 0 <= offset < len b ->
  len b - offset <= Z.of_nat fuel ->
  chunks (pending st ++ drop (Z.to_nat offset) b) outs r ->
  exists st',
    writeLoop fuel st b offset (len b - offset) (VBABuffSize - cSize st) 0
    = Ret (st', (len b, None))
    /\ wr st' = wr st ++ flushes outs /\ pending st' = r /\ WF st'
    /\ marker_cur st' = marker_cur st.
Proof.
  induction fuel as [|fuel IH]; intros st b offset outs r Hwf Hc Ho Hf Hch; [lia|].
  cbn [writeLoop]. destruct (Z.gtb_spec (len b - offset) 0); [|lia].
  destruct (fill_spec st b offset Hwf Ho) as (st1 & -> & Hp1 & Hwf1 & Hw1 & Hm1 & Hc1).
  cbn [obind].
  set (k := Z.min (VBABuffSize - cSize st) (len b - offset)) in *.
  rewrite (drop_split b offset k) in Hch by lia. rewrite app_assoc, <- Hp1 in Hch.
  destruct (chunks_split _ _ _ Hch _ _ eq_refl) as (outs1 & r1 & outs2 & H1 & H2 & ->).
  destruct (uncompress_chunks st1 outs1 r1 Hwf1 H1) as (st2 & -> & Hw2 & Hp2 & Hwf2 & Hm2).
  cbn [obind].
  pose proof (chunks_incomplete _ _ _ H1) as Hi.
  pose proof (incomplete_short _ Hi) as Hs. rewrite <- Hp2, len_pending in Hs by done.
  destruct (Z.eq_dec (offset + k) (len b)) as [Ee|Ee].
  - rewrite writeLoop_done by lia. exists st2.
    rewrite drop_ge, app_nil_r in H2 by (unfold len in *; lia).
    apply chunks_of_incomplete in H2 as [-> ->]; [|done].
    rewrite app_nil_r. split_and!; try done; congruence.
  - destruct (IH st2 b (offset + k) outs2 r) as (st' & E & Hw' & Hp' & Hwf' & Hm');
      [done|done|lia|lia|by rewrite Hp2|].
    exists st'. rewrite E. split_and!; try done; try congruence.
    rewrite Hw', Hw2, Hw1, flushes_app, app_assoc. done.
Qed.

(** [Write] on a writer that has found the signature. *)
Lemma Write_found (st : VBAWriter Log) b outs r :
  WF st -> cSize st < VBABuffSize -> b <> [] ->
  chunks (pending st ++ b) outs r ->
  exists st',
    Write st b = Ret (st', (len b, None))
    /\ wr st' = wr st ++ flushes outs /\ pending st' = r /\ WF st'
    /\ marker_cur st' = marker_cur st.
Proof.
  intros Hwf Hc Hb Hch. unfold Write. rewrite (wf_found st Hwf). cbn [negb].
  unfold writeBody. rewrite Z.sub_0_r.
  destruct (writeLoop_chunks (S (Z.to_nat (len b))) st b 0 outs r) as (st' & E & ?);
    [done|done| | |done|].
  - destruct b; [done|]. unfold len. cbn [length]. lia.
  - unfold len. lia.
  - rewrite Z.sub_0_r in E. by exists st'.
Qed.

Lemma Write_found_nil (st : VBAWriter Log) :
  marker_found st = true -> Write st [] = Ret (st, (0, None)).
Proof. intros H. unfold Write. rewrite H. done. Qed.

(** ** The carver *)

Section Carve.
Context {W : Type} `{!Writer W}.
Implicit Type st : VBAWriter W.

Lemma marker_index (cur : Z) :
  0 <= cur <= 11 -> exists m, index marker cur = Ret m /\ marker !! Z.to_nat cur = Some m.
Proof. intros H. apply index_in. unfold marker, len. cbn [length]. lia. Qed.

Lemma carvStep_CI st b :
  CI st -> exists st', carvStep st b = Ret st' /\ carv_step st b st'.
Proof.
  intros [Hf Hc Hs Hlc Hlu]. unfold carvStep.
  assert (Hst : forall x, store (compressedBuffer st) (cSize st) x
                          = Ret (<[Z.to_nat (cSize st) := x]> (compressedBuffer st))).
  { intros x. apply store_in. unfold VBABuffSize in *. lia. }
  destruct (Z.eqb_spec (marker_cur st) 1) as [E1|E1]; cbn [orb].
  { rewrite Hst. cbn [obind]. eexists. split; [reflexivity|]. apply carv_next; [lia|lia|reflexivity]. }
  destruct (Z.eqb_spec (marker_cur st) 2) as [E2|E2]; cbn [orb].
  { rewrite Hst. cbn [obind]. eexists. split; [reflexivity|]. apply carv_next; [lia|lia|reflexivity]. }
  destruct (marker_index (marker_cur st) Hc) as (m & -> & Hm). cbn [obind].
  destruct (Byte.eqb b m) eqn:Eb.
  - apply byte_dec_bl in Eb as ->. rewrite Hst. cbn [obind].
    cbn [marker_cur set_marker_cur set_compressedBuffer cSize].
    destruct (Z.eqb_spec (marker_cur st + 1) 1) as [E|E]; cbn [negb].
    + eexists. split; [reflexivity|]. apply carv_first; [lia| |by rewrite E].
      assert (E0 : marker_cur st = 0) by lia. rewrite E0 in Hm. vm_compute in Hm. congruence.
    + eexists. split; [reflexivity|]. apply carv_next; [lia|done|reflexivity].
  - eexists. split; [reflexivity|]. apply carv_reset; try done.
    intros Hb. rewrite Hm in Hb. injection Hb as ->.
    rewrite (byte_dec_lb (x:=b) (y:=b) eq_refl) in Eb. discriminate.
Qed.

(** The state after a step, when the signature is still not complete. *)
Lemma carv_step_CI st b st' :
  CI st -> carv_step st b st' -> marker_cur st' <> mlen -> CI st'.
Proof.
  intros [Hf Hc Hs Hlc Hlu] Hstep Hn. change mlen with 12 in Hn.
  destruct Hstep as [? ? ? ->| ? ? ->| ? ? ->];
    cbn [marker_cur cSize set_cSize set_marker_cur set_compressedBuffer] in Hn;
    split; cbn; rewrite ?len_insert; try done; lia.
Qed.

(** The state after the step that completes the signature. *)
Lemma carv_step_found st b st' :
  CI st -> carv_step st b st' -> marker_cur st' = mlen ->
  marker_cur st = 11 /\ cSize st' = 11
  /\ len (compressedBuffer st') = VBABuffSize
  /\ uncompressedBuffer st' = uncompressedBuffer st /\ wr st' = wr st.
Proof.
  intros [Hf Hc Hs Hlc Hlu] Hstep Hn. change mlen with 12 in Hn.
  destruct Hstep as [? ? ? ->| ? ? ->| ? ? ->];
    cbn [marker_cur cSize set_cSize set_marker_cur set_compressedBuffer] in Hn;
    cbn; rewrite ?len_insert; split_and!; try done; lia.
Qed.

Lemma carv_step_frame st b st' :
  carv_step st b st' ->
  wr st' = wr st /\ uncompressedBuffer st' = uncompressedBuffer st
  /\ uSize st' = uSize st /\ marker_found st' = marker_found st.
Proof. intros [? ? ? ->| ? ? ->| ? ? ->]; done. Qed.

Lemma carvLoop_shift st i d s :
  carvLoop st (i + d) s = shiftOff d (carvLoop st i s).
Proof.
  revert st i. induction s as [|b s IH]; intros st i; [done|].
  cbn [carvLoop]. destruct (carvStep st b) as [st1| |]; [|done..]. cbn [obind].
  destruct (marker_cur st1 =? mlen).
  - cbn [shiftOff]. do 3 f_equal. lia.
  - replace (i + d + 1) with (i + 1 + d) by lia. apply IH.
Qed.

Lemma carvLoop_app st i a b :
  carvLoop st i (a ++ b) =
  match carvLoop st i a with
  | Ret (st1, (_, false)) => carvLoop st1 (i + len a) b
  | r => r
  end.
Proof.
  revert st i. induction a as [|x a IH]; intros st i.
  - cbn [carvLoop app]. f_equal. unfold len. cbn. lia.
  - cbn [carvLoop app]. destruct (carvStep st x) as [st1| |]; [|done..]. cbn [obind].
    destruct (marker_cur st1 =? mlen); [done|]. rewrite IH.
    destruct (carvLoop st1 (i + 1) a) as [[st2 [j [|]]]| |]; try done.
    f_equal. unfold len. cbn [length]. lia.
Qed.

(** [carvLoop] never panics; it either goes through the whole input or
    stops right behind the signature. *)
Lemma carvLoop_CI st i s :
  CI st ->
  (exists st', carvLoop st i s = Ret (st', (0, false)) /\ CI st'
     /\ wr st' = wr st /\ uncompressedBuffer st' = uncompressedBuffer st)
  \/ (exists st' j, carvLoop st i s = Ret (st', (j, true))
        /\ i < j <= i + len s /\ marker_found st' = true /\ cSize st' = 11
        /\ len (compressedBuffer st') = VBABuffSize
        /\ uncompressedBuffer st' = uncompressedBuffer st /\ wr st' = wr st).
Proof.
  revert st i. induction s as [|b s IH]; intros st i Hci.
  - left. exists st. done.
  - cbn [carvLoop]. destruct (carvStep_CI st b Hci) as (st1 & -> & Hstep). cbn [obind].
    pose proof (carv_step_frame st b st1 Hstep) as (Hw & Hu & _ & _).
    destruct (Z.eqb_spec (marker_cur st1) mlen) as [E|E].
    + right. destruct (carv_step_found st b st1 Hci Hstep E) as (_ & Hc & Hl & Hub & Hwr).
      exists (set_marker_found true st1), (i + 1). split; [done|].
      unfold len. cbn [length]. split_and!; try done; lia.
    + pose proof (carv_step_CI st b st1 Hci Hstep E) as Hci1.
      destruct (IH st1 (i + 1) Hci1) as [(st' & -> & ? & ? & ?)|(st' & j & -> & ? & ?)].
      * left. exists st'. split_and!; try done; congruence.
      * right. exists st', j. unfold len in *. cbn [length].
        split_and!; try done; try lia; intuition congruence.
Qed.
End Carve.

Lemma NewWriter_CI {W} `{!Writer W} (w : W) : CI (NewWriter w).
Proof.
  split; cbn; try done; try lia.
  all: unfold len; rewrite length_replicate; lia.
Qed.

(** ** Sessions *)

Lemma validStream_ok s : validStream s -> okStream s.
Proof. intros (t & outs & r & E & H) t' E'. rewrite E in E'. injection E' as <-. eauto. Qed.

Lemma fresh_CI : CI fresh.
Proof. apply NewWriter_CI. Qed.

(** The writer right behind the signature. *)
Lemma carved_WF (st st' : VBAWriter Log) i j s :
  CI st -> carvLoop st i s = Ret (st', (j, true)) ->
  WF st' /\ cSize st' = 11 /\ wr st' = wr st /\ i < j <= i + len s.
Proof.
  intros Hci E.
  destruct (carvLoop_CI st i s Hci) as [(st1 & E1 & _)|(st1 & j1 & E1 & Hj & Hf & Hc & Hl & Hu & Hw)];
    rewrite E1 in E; [discriminate|]. injection E as <- <-.
  split_and!; try done; try lia. split; try done.
  - rewrite Hu. by destruct Hci.
  - unfold VBABuffSize. lia.
  - lia.
Qed.

Lemma carvVBA_app_found a b stc off :
  carvVBA fresh a = Ret (stc, (off, true)) ->
  carvVBA fresh (a ++ b) = Ret (stc, (off, true))
  /\ drop (Z.to_nat off) (a ++ b) = drop (Z.to_nat off) a ++ b.
Proof.
  intros E. unfold carvVBA in *. rewrite carvLoop_app, E. split; [done|].
  apply carved_WF in E as (_ & _ & _ & Hj); [|apply fresh_CI].
  rewrite drop_app_le; [done|]. unfold len in Hj. lia.
Qed.

Lemma okStream_prefix a b : okStream (a ++ b) -> okStream a.
Proof.
  intros H t Et. unfold container, carved in Et.
  destruct (carvVBA fresh a) as [[stc [off [|]]]| |] eqn:E; try discriminate.
  injection Et as <-.
  destruct (carvVBA_app_found a b stc off E) as [E' Ed].
  destruct (H (pending stc ++ drop (Z.to_nat off) (a ++ b))) as (outs & r & Hc).
  { unfold container, carved. by rewrite E'. }
  rewrite Ed, app_assoc in Hc.
  destruct (chunks_split _ _ _ Hc _ _ eq_refl) as (outs1 & r1 & _ & H1 & _). eauto.
Qed.

Lemma WF_short st : WF st -> incomplete (pending st) -> cSize st < VBABuffSize.
Proof. intros Hwf Hi. rewrite <- (len_pending st Hwf). by apply incomplete_short. Qed.

(** One write of a session. *)
Lemma Write_J st s0 w :
  J st s0 -> okStream (s0 ++ w) ->
  exists st', Write st w = Ret (st', (len w, None)) /\ J st' (s0 ++ w).
Proof.
  intros HJ Hok. unfold J in HJ.
  destruct (carvLoop_CI fresh 0 s0 fresh_CI)
    as [(stc & E0 & Hci & Hw0 & Hu0)|(stc & off & E0 & Hoff & Hf0 & Hc0 & Hl0 & Hu0 & Hw0)];
    fold (carvVBA fresh s0) in E0; rewrite E0 in HJ.
  - (* the signature was not found in [s0] *)
    subst st.
    assert (Eapp : carvVBA fresh (s0 ++ w) = shiftOff (len s0) (carvLoop stc 0 w)).
    { unfold carvVBA in *. rewrite carvLoop_app, E0. apply (carvLoop_shift stc 0). }
    unfold Write. rewrite (ci_found stc Hci). cbn [negb]. unfold carvVBA at 1.
    destruct (carvLoop_CI stc 0 w Hci) as [(st1 & E1 & Hci1 & _)|(st1 & j & E1 & Hj & _)];
      rewrite E1 in Eapp |- *; cbn [obind negb shiftOff] in *.
    + exists st1. split; [done|]. unfold J. by rewrite Eapp.
    + destruct (carved_WF stc st1 0 j w Hci E1) as (Hwf1 & Hc1 & Hw1 & _).
      assert (Ed : drop (Z.to_nat (j + len s0)) (s0 ++ w) = drop (Z.to_nat j) w).
      { rewrite drop_app_ge by (unfold len; lia). f_equal. unfold len. lia. }
      unfold J. rewrite Eapp, Ed.
      destruct (decide (drop (Z.to_nat j) w = [])) as [En|En].
      * exists st1. split; [|done]. unfold writeBody. apply writeLoop_done.
        assert (length (drop (Z.to_nat j) w) = 0%nat) by (by rewrite En).
        rewrite length_drop in *. unfold len. lia.
      * assert (Hjl : j < len w).
        { destruct (Z.ltb_spec j (len w)); [done|]. exfalso. apply En.
          apply drop_ge. unfold len in *. lia. }
        destruct (Hok (pending st1 ++ drop (Z.to_nat j) w)) as (outs & r & Hch).
        { unfold container, carved. by rewrite Eapp, Ed. }
        unfold writeBody.
        destruct (writeLoop_chunks (S (Z.to_nat (len w - j))) st1 w j outs r)
          as (st' & E & Hw' & Hp' & Hwf' & Hm'); [done|unfold VBABuffSize; lia|lia|lia|done|].
        exists st'. split; [done|]. exists outs, r. split_and!; try done.
        rewrite Hw', Hw1, Hw0. done.
  - (* the signature was found in [s0] *)
    destruct (carvVBA_app_found s0 w stc off E0) as [Eapp Ed].
    destruct (carved_WF fresh stc 0 off s0 fresh_CI E0) as (Hwfc & Hcc & Hwc & _).
    destruct (decide (w = [])) as [->|Hw].
    { exists st. rewrite app_nil_r. unfold J. rewrite E0. split; [|done].
      apply Write_found_nil.
      destruct (decide _); [by subst|]. destruct HJ as (? & ? & _ & _ & _ & Hwf & _).
      by destruct Hwf. }
    destruct (Hok (pending stc ++ drop (Z.to_nat off) (s0 ++ w))) as (outs' & r' & Hch).
    { unfold container, carved. by rewrite Eapp. }
    assert (Hne : drop (Z.to_nat off) (s0 ++ w) <> []).
    { rewrite Ed. intros [_ ?]%app_eq_nil. done. }
    unfold J. rewrite Eapp.
    destruct (decide (drop (Z.to_nat off) (s0 ++ w) = [])) as [|_]; [contradiction|].
    destruct (decide (drop (Z.to_nat off) s0 = [])) as [En|En].
    + subst st. rewrite Ed, En in Hch |- *. cbn [app] in *.
      destruct (Write_found stc w outs' r') as (st' & E & Hw' & Hp' & Hwf' & Hm');
        [done|unfold VBABuffSize; lia|done|done|].
      exists st'. split; [done|]. exists outs', r'. split_and!; try done.
      by rewrite Hw', Hwc.
    + destruct HJ as (outs & r & Hch0 & Hwr & Hp & Hwf & Hmc).
      rewrite Ed, app_assoc in Hch.
      destruct (chunks_split _ _ _ Hch _ _ eq_refl) as (outs1 & r1 & outs2 & H1 & H2 & ->).
      destruct (chunks_det _ _ _ _ _ Hch0 H1) as [<- <-].
      destruct (Write_found st w outs2 r') as (st' & E & Hw' & Hp' & Hwf' & Hm');
        [done| |done|by rewrite Hp|].
      { apply WF_short; [done|]. rewrite Hp. by apply chunks_incomplete in Hch0. }
      exists st'. split; [done|]. exists (outs ++ outs2), r'.
      rewrite Ed, app_assoc. split_and!; try done; try congruence.
      by rewrite Hw', Hwr, flushes_app.
Qed.

Lemma writeAll_J ws : forall st s0,
  J st s0 -> okStream (s0 ++ concat ws) ->
  exists st' n, writeAll st ws = Ret (st', (n, None)) /\ J st' (s0 ++ concat ws).
Proof.
  induction ws as [|w ws IH]; intros st s0 HJ Hok.
  - exists st, 0. cbn. by rewrite app_nil_r.
  - cbn [concat] in *. rewrite app_assoc in Hok |- *.
    destruct (Write_J st s0 w HJ) as (st1 & E & HJ1); [by apply okStream_prefix in Hok|].
    cbn [writeAll]. rewrite E. cbn [obind]. by apply IH.
Qed.

Lemma J_fresh : J fresh [].
Proof. unfold J. done. Qed.

(** What a session has written when it ends, and what it keeps. *)
Lemma J_det st1 st2 s :
  J st1 s -> J st2 s ->
  wr st1 = wr st2 /\ pending st1 = pending st2
  /\ marker_cur st1 = marker_cur st2 /\ marker_found st1 = marker_found st2.
Proof.
  unfold J. destruct (carvVBA fresh s) as [[stc [off [|]]]| |]; try done.
  - destruct (decide _).
    + by intros -> ->.
    + intros (o1 & r1 & H1 & -> & -> & W1 & M1) (o2 & r2 & H2 & -> & -> & W2 & M2).
      destruct (chunks_det _ _ _ _ _ H1 H2) as [-> ->].
      split_and!; try done; try congruence.
      by rewrite (wf_found _ W1), (wf_found _ W2).
  - by intros -> ->.
Qed.

(** ** What the carver keeps *)

Lemma carvVBA_snoc hist st b st1 :
  carvVBA fresh hist = Ret (st, (0, false)) -> carvStep st b = Ret st1 ->
  marker_cur st1 <> mlen ->
  carvVBA fresh (hist ++ [b]) = Ret (st1, (0, false)).
Proof.
  intros E Es Hn. unfold carvVBA in *. rewrite carvLoop_app, E. cbn [carvLoop].
  rewrite Es. cbn [obind]. destruct (Z.eqb_spec (marker_cur st1) mlen); done.
Qed.

Lemma pending_next (st : VBAWriter Log) b :
  0 <= cSize st < len (compressedBuffer st) ->
  pending (set_cSize (cSize st + 1)
             (set_marker_cur (marker_cur st + 1)
                (set_compressedBuffer (<[Z.to_nat (cSize st) := b]> (compressedBuffer st)) st)))
  = pending st ++ [b].
Proof.
  intros H. unfold pending. cbn [cSize compressedBuffer set_cSize set_marker_cur
    set_compressedBuffer].
  replace (Z.to_nat (cSize st + 1)) with (S (Z.to_nat (cSize st))) by lia.
  apply take_insert_snoc. unfold len in H. lia.
Qed.

Lemma held_step st hist b st1 :
  CI st -> held st hist -> carvStep st b = Ret st1 -> carv_step st b st1 ->
  marker_cur st1 <> mlen -> held st1 (hist ++ [b]).
Proof.
  intros Hci (E & pre & m & -> & Hlm & Hq & Hm) Es Hstep Hn.
  pose proof (carvVBA_snoc _ _ _ _ E Es Hn) as E1. split; [done|].
  pose proof Hci as [Hf Hc Hs Hlc Hlu].
  destruct Hstep as [? ? ? ->| ? ? ->| ? ? ->].
  - exists ((pre ++ m) ++ [b]), []. rewrite app_nil_r. split_and!.
    + done.
    + done.
    + by exists (set_cSize 0 (set_marker_cur 0 st)).
    + cbn. lia.
  - exists pre, [x01]. assert (m = []) as ->.
    { destruct m; [done|]. unfold len in Hlm. cbn [length] in Hlm. lia. }
    rewrite app_nil_r. subst b. split_and!.
    + done.
    + done.
    + done.
    + intros _. f_equal. unfold pending. cbn [cSize set_marker_cur set_compressedBuffer].
      replace (cSize st) with 0 by lia. done.
  - exists pre, (m ++ [b]). rewrite app_assoc. split_and!.
    + done.
    + rewrite len_app. cbn. unfold len at 2. cbn [length]. lia.
    + done.
    + intros _. rewrite pending_next by (unfold VBABuffSize in *; lia).
      rewrite Hm by lia. done.
Qed.

(** Where the signature is found, the writer holds the eleven bytes behind
    the 0x01 that starts it, and the bytes before that 0x01 left the carver
    at rest. *)
Lemma carvLoop_held s : forall st hist i st' j,
  CI st -> held st hist -> carvLoop st i s = Ret (st', (j, true)) ->
  exists pre m11,
    hist ++ take (Z.to_nat (j - i)) s = pre ++ x01 :: m11
    /\ quiet pre /\ pending st' = m11 /\ len m11 = 11.
Proof.
  induction s as [|b s IH]; intros st hist i st' j Hci Hh E; [discriminate|].
  cbn [carvLoop] in E. destruct (carvStep_CI st b Hci) as (st1 & Es & Hstep).
  rewrite Es in E. cbn [obind] in E.
  destruct (Z.eqb_spec (marker_cur st1) mlen) as [Ef|Ef].
  - injection E as <- <-. replace (Z.to_nat (i + 1 - i)) with 1%nat by lia.
    cbn [take]. destruct (carv_step_found st b st1 Hci Hstep Ef) as (Hc11 & _).
    destruct Hh as (_ & pre & m & -> & Hlm & Hq & Hm).
    pose proof Hci as [Hf Hc Hs Hlc Hlu].
    destruct Hstep as [? ? ? ->| ? ? ->| ? ? ->];
      cbn [marker_cur set_cSize set_marker_cur set_compressedBuffer] in Ef;
      change mlen with 12 in Ef; try lia.
    exists pre, (pending st ++ [b]). rewrite Hm by lia.
    split_and!; try done.
    + by rewrite <- app_assoc.
    + rewrite <- (pending_next st b) by (unfold VBABuffSize in *; lia). done.
    + assert (Hl : len (x01 :: pending st) = 11) by (rewrite <- Hm; lia).
      rewrite len_app. unfold len in *. cbn [length] in *. lia.
  - pose proof (carv_step_CI st b st1 Hci Hstep Ef) as Hci1.
    pose proof (held_step st hist b st1 Hci Hh Es Hstep Ef) as Hh1.
    destruct (carved_WF st1 st' (i + 1) j s Hci1 E) as (_ & _ & _ & Hj).
    destruct (IH st1 (hist ++ [b]) (i + 1) st' j Hci1 Hh1 E) as (pre & m11 & Ee & ?).
    exists pre, m11. split; [|done]. rewrite <- Ee, <- app_assoc. f_equal.
    replace (Z.to_nat (j - i)) with (S (Z.to_nat (j - (i + 1)))) by lia. done.
Qed.

Lemma held_fresh : held fresh [].
Proof.
  split; [done|]. exists [], []. split_and!; try done.
  by exists fresh.
Qed.

Lemma carved_signature s stc off :
  carvVBA fresh s = Ret (stc, (off, true)) ->
  exists pre m11 post,
    s = pre ++ x01 :: m11 ++ post /\ quiet pre /\ off = len pre + 12
    /\ pending stc = m11 /\ len m11 = 11 /\ wr stc = [] /\ post = drop (Z.to_nat off) s.
Proof.
  intros E. unfold carvVBA in E.
  destruct (carvLoop_held s fresh [] 0 stc off fresh_CI held_fresh E)
    as (pre & m11 & Ee & Hq & Hp & Hl).
  destruct (carved_WF fresh stc 0 off s fresh_CI E) as (_ & _ & Hw & Hoff).
  cbn [app] in Ee. rewrite Z.sub_0_r in Ee.
  exists pre, m11, (drop (Z.to_nat off) s).
  assert (Hlen : off = len pre + 12).
  { assert (Hlt : len (take (Z.to_nat off) s) = off).
    { unfold len in *. rewrite length_take. lia. }
    rewrite Ee in Hlt. rewrite len_app in Hlt. unfold len in *. cbn [length] in *. lia. }
  split_and!; try done.
  rewrite <- (take_drop (Z.to_nat off) s) at 1. rewrite Ee, <- app_assoc. done.
Qed.

(** ** Bytes the carver leaves in the storage *)

Lemma stale_eq_CI st1 st2 : stale_eq st1 st2 -> CI st1 -> CI st2.
Proof.
  intros (Hw & Hu & Hc & Hus & Hm & Hf & Hl & _) [? ? ? ? ?].
  split; try congruence; try lia. unfold len in *. congruence.
Qed.

Lemma stale_eq_full st1 st2 :
  stale_eq st1 st2 -> cSize st1 = 11 -> st1 = st2.
Proof.
  intros (Hw & Hu & Hc & Hus & Hm & Hf & Hl & Hk) H11.
  assert (Hb : compressedBuffer st1 = compressedBuffer st2).
  { apply list_eq. intros k. apply Hk. lia. }
  destruct st1, st2. cbn in *. by subst.
Qed.

Lemma carvStep_stale st1 st2 b st1' st2' :
  CI st1 -> stale_eq st1 st2 ->
  carv_step st1 b st1' -> carv_step st2 b st2' -> stale_eq st1' st2'.
Proof.
  intros Hci Hse H1 H2. pose proof Hse as (Hw & Hu & Hc & Hus & Hm & Hf & Hl & Hk).
  pose proof Hci as [_ Hcur Hcs Hlc _].
  assert (Hm0 : marker !! 0%nat = Some x01) by done.
  destruct H1 as [? ? Hn1 ->| H01 -> ->| ? Hx1 ->];
    destruct H2 as [? ? Hn2 ->| H02 Hb2 ->| ? Hx2 ->]; try lia.
  - (* both reset *)
    split_and!; cbn; try done. intros k [?|?]; [lia|]. apply Hk. by right.
  - exfalso. apply Hn1. rewrite Hm, H02, Hb2. done.
  - exfalso. apply Hn1. rewrite Hm. apply Hx2. lia.
  - exfalso. apply Hn2. rewrite <- Hm, H01. done.
  - (* both take the 0x01 *)
    split_and!; cbn; try done.
    + by rewrite !length_insert.
    + intros k [Hlt|Hge].
      * assert (cSize st1 = 0) by lia. lia.
      * assert (cSize st1 = 0) by lia.
        rewrite !list_lookup_insert_ne by lia. apply Hk. by right.
  - exfalso. apply Hn2. rewrite <- Hm. apply Hx1. lia.
  - (* both go on *)
    split_and!; cbn; try done; try lia.
    + by rewrite !length_insert.
    + rewrite <- Hc. intros k [Hlt|Hge].
      * destruct (decide (k = Z.to_nat (cSize st1))) as [->|Hne].
        -- rewrite !list_lookup_insert_eq; [done|unfold len, VBABuffSize in *; lia..].
        -- rewrite !list_lookup_insert_ne by lia. apply Hk. left. lia.
      * rewrite !list_lookup_insert_ne by lia. apply Hk. by right.
Qed.

Lemma carvLoop_stale s : forall st1 st2 i,
  CI st1 -> stale_eq st1 st2 ->
  (exists st1' st2', carvLoop st1 i s = Ret (st1', (0, false))
      /\ carvLoop st2 i s = Ret (st2', (0, false)) /\ stale_eq st1' st2' /\ CI st1')
  \/ (exists st' j, carvLoop st1 i s = Ret (st', (j, true))
        /\ carvLoop st2 i s = Ret (st', (j, true))).
Proof.
  induction s as [|b s IH]; intros st1 st2 i Hci Hse.
  - left. exists st1, st2. done.
  - pose proof (stale_eq_CI _ _ Hse Hci) as Hci2.
    cbn [carvLoop]. destruct (carvStep_CI st1 b Hci) as (t1 & -> & Hs1).
    destruct (carvStep_CI st2 b Hci2) as (t2 & -> & Hs2). cbn [obind].
    pose proof (carvStep_stale _ _ _ _ _ Hci Hse Hs1 Hs2) as Hse'.
    pose proof Hse' as (_ & _ & _ & _ & Hm & _). rewrite <- Hm.
    destruct (Z.eqb_spec (marker_cur t1) mlen) as [E|E].
    + right. exists (set_marker_found true t1), (i + 1). split; [done|].
      destruct (carv_step_found st1 b t1 Hci Hs1 E) as (_ & Hc11 & _).
      by rewrite (stale_eq_full t1 t2 Hse' Hc11).
    + apply IH; [|done]. by apply (carv_step_CI st1 b).
Qed.

(** ** The bytes of a write before [offset] do not matter *)

Lemma slice_shift (g s : list byte) lo hi :
  0 <= lo -> slice (g ++ s) (len g + lo) (len g + hi) = slice s lo hi.
Proof.
  intros Hlo. unfold slice. rewrite len_app. pose proof (len_nonneg g).
  destruct (Z.leb_spec 0 lo); [|lia]. destruct (Z.leb_spec 0 (len g + lo)); [|lia].
  destruct (Z.leb_spec lo hi), (Z.leb_spec (len g + lo) (len g + hi)); try lia;
    destruct (Z.leb_spec hi (len s)), (Z.leb_spec (len g + hi) (len g + len s));
    try lia; cbn [andb]; try done.
  f_equal. replace (len g + hi - (len g + lo)) with (hi - lo) by lia. f_equal.
  rewrite drop_app_ge by (unfold len; lia). f_equal. unfold len. lia.
Qed.

Lemma fill_shift (st : VBAWriter Log) g s offset ba va :
  0 <= offset ->
  fill st (g ++ s) (len g + offset) ba va
  = (let! f := fill st s offset ba va in Ret (fst f, len g + snd f)).
Proof.
  intros Ho. unfold fill. destruct (va <? ba).
  - rewrite <- Z.add_assoc, slice_shift by done.
    destruct (slice s offset (offset + va)); [|done..]. cbn [obind].
    destruct (copy_into _ _ _ _); [|done..]. cbn [obind fst snd]. do 2 f_equal; lia.
  - rewrite len_app, slice_shift by done.
    destruct (slice s offset (len s)); [|done..]. cbn [obind].
    destruct (copy_into _ _ _ _); [|done..]. cbn [obind fst snd]. do 2 f_equal; lia.
Qed.

Lemma fill_offset (st : VBAWriter Log) s offset ba va st' o' :
  0 <= offset -> 0 < ba -> fill st s offset ba va = Ret (st', o') -> 0 <= o'.
Proof.
  intros Ho Hb. unfold fill. destruct (va <? ba).
  - destruct (slice s offset (offset + va)) eqn:E; [|done..]. cbn [obind].
    apply slice_Ret in E as (? & _). destruct (copy_into _ _ _ _); [|done..].
    intros [= <- <-]. lia.
  - destruct (slice s offset (len s)); [|done..]. cbn [obind].
    destruct (copy_into _ _ _ _); [|done..]. intros [= <- <-]. lia.
Qed.

Lemma writeLoop_shift fuel : forall (st : VBAWriter Log) g s offset ba va total,
  0 <= offset ->
  observe (writeLoop fuel st (g ++ s) (len g + offset) ba va total)
  = observe (writeLoop fuel st s offset ba va total).
Proof.
  induction fuel as [|fuel IH]; intros st g s offset ba va total Ho.
  - cbn [writeLoop]. destruct (ba >? 0); done.
  - cbn [writeLoop]. destruct (Z.gtb_spec ba 0); [|done].
    rewrite fill_shift by done.
    destruct (fill st s offset ba va) as [[st1 o1]| |] eqn:Ef; [|done..].
    cbn [obind fst snd]. apply fill_offset in Ef; [|done|lia].
    destruct (uncompress st1) as [[st2 [n [e|]]]| |]; [done| |done..]. cbn [obind].
    rewrite len_app. replace (len g + len s - (len g + o1)) with (len s - o1) by lia.
    by apply IH.
Qed.

Lemma writeBody_shift (st : VBAWriter Log) g s offset :
  0 <= offset ->
  observe (writeBody st (g ++ s) (len g + offset)) = observe (writeBody st s offset).
Proof.
  intros Ho. unfold writeBody. rewrite len_app.
  replace (len g + len s - (len g + offset)) with (len s - offset) by lia.
  by apply writeLoop_shift.
Qed.

Lemma carv_step_high (st : VBAWriter Log) b st' :
  CI st -> carv_step st b st' ->
  length (compressedBuffer st') = length (compressedBuffer st)
  /\ forall k : nat, (11 <= k)%nat -> compressedBuffer st' !! k = compressedBuffer st !! k.
Proof.
  intros [_ Hc Hs _ _] [? ? ? ->| ? ? ->| ? ? ->]; cbn; rewrite ?length_insert;
    (split; [done|]); intros k Hk; try done;
    apply list_lookup_insert_ne; lia.
Qed.

Lemma carvLoop_high s : forall (st : VBAWriter Log) i st',
  CI st -> carvLoop st i s = Ret (st', (0, false)) ->
  uSize st' = uSize st
  /\ length (compressedBuffer st') = length (compressedBuffer st)
  /\ forall k : nat, (11 <= k)%nat -> compressedBuffer st' !! k = compressedBuffer st !! k.
Proof.
  induction s as [|b s IH]; intros st i st' Hci E.
  - by injection E as <-.
  - cbn [carvLoop] in E. destruct (carvStep_CI st b Hci) as (st1 & Es & Hstep).
    rewrite Es in E. cbn [obind] in E.
    destruct (Z.eqb_spec (marker_cur st1) mlen) as [Ef|Ef]; [discriminate|].
    pose proof (carv_step_CI st b st1 Hci Hstep Ef) as Hci1.
    destruct (IH st1 (i + 1) st' Hci1 E) as (Hu & Hl & Hk).
    destruct (carv_step_high st b st1 Hci Hstep) as (Hl1 & Hk1).
    destruct (carv_step_frame st b st1 Hstep) as (_ & _ & Hu1 & _).
    split_and!; try congruence. intros k H11. rewrite Hk, Hk1; done.
Qed.

Lemma quiet_stale g stg :
  carvVBA fresh g = Ret (stg, (0, false)) -> marker_cur stg = 0 ->
  CI stg /\ stale_eq fresh stg.
Proof.
  intros E Hm. unfold carvVBA in E.
  destruct (carvLoop_CI fresh 0 g fresh_CI) as [(st' & E' & Hci & Hw & Hu)|(st' & j & E' & _)];
    rewrite E' in E; [|discriminate]. injection E as ->.
  destruct (carvLoop_high g fresh 0 stg fresh_CI E') as (Hus & Hl & Hk).
  split; [done|]. pose proof Hci as [Hf Hc Hs _ _].
  unfold stale_eq. split_and!; try done; try (symmetry; done).
  - rewrite Hs, Hm. done.
  - intros k [?|?]; [cbn in *; lia|]. symmetry. by apply Hk.
Qed.

Lemma stale_eq_pending st1 st2 : stale_eq st1 st2 -> pending st1 = pending st2.
Proof.
  intros (_ & _ & Hc & _ & _ & _ & Hl & Hk). unfold pending. rewrite <- Hc.
  apply list_eq. intros k. destruct (decide (k < Z.to_nat (cSize st1))%nat).
  - rewrite !lookup_take_lt by done. apply Hk. lia.
  - rewrite !lookup_take_ge by lia. done.
Qed.

(** Garbage that leaves the carver at rest changes nothing. *)
Lemma Write_quiet g s :
  quiet g -> observe (Write fresh (g ++ s)) = observe (Write fresh s).
Proof.
  intros (stg & Eg & Hm). destruct (quiet_stale g stg Eg Hm) as [Hcig Hse].
  unfold Write. change (marker_found fresh) with false. cbn [negb].
  assert (Eapp : carvVBA fresh (g ++ s) = shiftOff (len g) (carvLoop stg 0 s)).
  { unfold carvVBA in *. rewrite carvLoop_app, Eg. apply (carvLoop_shift stg 0). }
  rewrite Eapp. unfold carvVBA.
  destruct (carvLoop_stale s fresh stg 0 fresh_CI Hse)
    as [(st1 & st2 & -> & -> & Hse' & _)|(st' & j & E1 & E2)].
  - cbn [shiftOff obind negb observe].
    pose proof Hse' as (Hw & _ & _ & _ & Hc & Hf & _).
    by rewrite Hw, Hc, Hf, (stale_eq_pending _ _ Hse').
  - rewrite E1, E2. cbn [shiftOff obind negb].
    destruct (carved_WF fresh st' 0 j s fresh_CI E1) as (_ & _ & _ & Hj).
    rewrite (Z.add_comm j). apply writeBody_shift. lia.
Qed.

Lemma carvLoop_held_all s : forall st hist i st',
  CI st -> held st hist -> carvLoop st i s = Ret (st', (0, false)) ->
  held st' (hist ++ s).
Proof.
  induction s as [|b s IH]; intros st hist i st' Hci Hh E.
  - injection E as <-. by rewrite app_nil_r.
  - cbn [carvLoop] in E. destruct (carvStep_CI st b Hci) as (st1 & Es & Hstep).
    rewrite Es in E. cbn [obind] in E.
    destruct (Z.eqb_spec (marker_cur st1) mlen) as [Ef|Ef]; [discriminate|].
    pose proof (carv_step_CI st b st1 Hci Hstep Ef) as Hci1.
    pose proof (held_step st hist b st1 Hci Hh Es Hstep Ef) as Hh1.
    replace (hist ++ b :: s) with ((hist ++ [b]) ++ s) by (by rewrite <- app_assoc).
    by apply (IH st1 _ (i + 1)).
Qed.

(** Bytes other than 0x01 leave the carver as it is. *)
Lemma carvLoop_no01 g i :
  Forall (fun b => b <> x01) g -> carvLoop fresh i g = Ret (fresh, (0, false)).
Proof.
  intros H. revert i. induction H as [|b g Hb _ IH]; intros i; [done|].
  cbn [carvLoop]. assert (Es : carvStep fresh b = Ret fresh).
  { unfold carvStep. cbn [marker_cur fresh NewWriter Z.eqb orb].
    change (index marker 0) with (Ret x01 : outcome byte). cbn [obind].
    destruct (Byte.eqb b x01) eqn:E; [|done]. by apply byte_dec_bl in E. }
  rewrite Es. cbn [obind]. apply IH.
Qed.

Lemma quiet_no01 g : Forall (fun b => b <> x01) g -> quiet g.
Proof. intros H. exists fresh. split; [by apply carvLoop_no01|done]. Qed.

(** ** A literal run followed by a copy token *)

Lemma flagBit_x00 bi : flagBit x00 bi = 0.
Proof. unfold flagBit. change (byteZ x00) with 0. by rewrite Z.shiftr_0_l. Qed.

Lemma flagBit_bitByte_lt (r : nat) (i : Z) :
  (r < 8)%nat -> 0 <= i < Z.of_nat r -> flagBit (bitByte r) i = 0.
Proof.
  intros Hr Hi.
  assert (Hc : i = 0 \/ i = 1 \/ i = 2 \/ i = 3 \/ i = 4 \/ i = 5 \/ i = 6) by lia.
  do 8 (destruct r as [|r]; [try lia; intuition (subst; reflexivity) || lia|]); lia.
Qed.

Lemma flagBit_bitByte_eq (r : nat) :
  (r < 8)%nat -> flagBit (bitByte r) (Z.of_nat r) <> 0.
Proof.
  intros Hr. do 8 (destruct r as [|r]; [vm_compute; discriminate|]). lia.
Qed.

Section Groups.
Variables (cbuf : list byte) (cend : Z) (fb : byte).

Lemma group_skip n bi s :
  cend <= dCur s -> group cbuf cend 0 fb n bi s = Ret s.
Proof.
  revert bi. induction n as [|n IH]; intros bi H; [done|].
  cbn [group]. rewrite item_skip by done. cbn [obind]. by apply IH.
Qed.

Lemma group_app n m bi s :
  group cbuf cend 0 fb (n + m) bi s =
  (let! s' := group cbuf cend 0 fb n bi s in
   group cbuf cend 0 fb m (bi + Z.of_nat n) s').
Proof.
  revert bi s. induction n as [|n IH]; intros bi s.
  - cbn [group Nat.add obind]. f_equal. lia.
  - cbn [group Nat.add]. destruct (item cbuf cend 0 fb bi s) as [s1| |]; [|done..].
    cbn [obind]. rewrite IH. destruct (group cbuf cend 0 fb n (bi + 1) s1); [|done..].
    cbn [obind]. f_equal. lia.
Qed.

Lemma group_literals lits : forall bi s,
  (forall i, 0 <= i < len lits -> flagBit fb (bi + i) = 0) ->
  0 <= dCur s -> take (length lits) (drop (Z.to_nat (dCur s)) cbuf) = lits ->
  dCur s + len lits <= cend ->
  0 <= dSize s -> dSize s + len lits <= len (dBuf s) ->
  exists ub,
    group cbuf cend 0 fb (length lits) bi s
    = Ret (mkD (dCur s + len lits) ub (dSize s + len lits))
    /\ len ub = len (dBuf s)
    /\ take (Z.to_nat (dSize s + len lits)) ub
       = take (Z.to_nat (dSize s)) (dBuf s) ++ lits.
Proof.
  induction lits as [|l lits IH]; intros bi s Hfb Hc Ht Hce Hs Hsl.
  - exists (dBuf s). unfold len. cbn [length group]. rewrite !Z.add_0_r, app_nil_r.
    destruct s; done.
  - unfold len in *. cbn [length] in *.
    assert (Hl : cbuf !! Z.to_nat (dCur s) = Some l).
    { destruct (drop (Z.to_nat (dCur s)) cbuf) as [|x k] eqn:Ed; [done|].
      cbn [take] in Ht. injection Ht as -> _.
      rewrite <- (Nat.add_0_r (Z.to_nat (dCur s))), <- lookup_drop, Ed. done. }
    cbn [group]. rewrite item_literal.
    2:{ lia. }
    2:{ rewrite <- (Z.add_0_r bi). apply Hfb. lia. }
    assert (Ei : index cbuf (dCur s) = Ret l) by (apply index_Ret; done).
    rewrite Ei. cbn [obind]. rewrite store_in by (unfold len; lia). cbn [obind].
    destruct (IH (bi + 1)
                (mkD (dCur s + 1) (<[Z.to_nat (dSize s) := l]> (dBuf s)) (dSize s + 1)))
      as (ub & E & Hlu & Htk); cbn [dCur dSize dBuf].
    + intros i Hi. rewrite <- Z.add_assoc. apply Hfb. lia.
    + lia.
    + replace (Z.to_nat (dCur s + 1)) with (S (Z.to_nat (dCur s))) by lia.
      rewrite (drop_S _ _ _ Hl) in Ht. cbn [take] in Ht. by injection Ht.
    + lia.
    + lia.
    + rewrite length_insert. lia.
    + exists ub. cbn [dCur dSize dBuf] in E. rewrite E.
      cbn [dCur dSize dBuf] in Hlu, Htk. rewrite length_insert in Hlu. split_and!.
      * do 2 f_equal; lia.
      * done.
      * replace (Z.to_nat (dSize s + Z.of_nat (S (length lits))))
          with (Z.to_nat (dSize s + 1 + Z.of_nat (length lits))) by lia.
        rewrite Htk.
        replace (Z.to_nat (dSize s + 1)) with (S (Z.to_nat (dSize s))) by lia.
        rewrite take_insert_snoc by lia. by rewrite <- app_assoc.
Qed.
End Groups.

Lemma seg_cons c a x l : seg c (a :: x) l <-> l !! c = Some a /\ seg (S c) x l.
Proof.
  unfold seg. cbn [length]. split.
  - intros H. assert (Hl : l !! c = Some a).
    { destruct (drop c l) as [|y k] eqn:Ed; [done|]. cbn [take] in H. injection H as -> _.
      rewrite <- (Nat.add_0_r c), <- lookup_drop, Ed. done. }
    split; [done|]. rewrite (drop_S _ _ _ Hl) in H. cbn [take] in H. by injection H.
  - intros [Hl H]. rewrite (drop_S _ _ _ Hl). cbn [take]. by rewrite H.
Qed.

Lemma seg_app c a b l : seg c (a ++ b) l <-> seg c a l /\ seg (c + length a) b l.
Proof.
  revert c. induction a as [|x a IH]; intros c.
  - cbn [app length]. rewrite Nat.add_0_r. unfold seg at 2. cbn. tauto.
  - cbn [app length]. rewrite !seg_cons, IH.
    replace (c + S (length a))%nat with (S c + length a)%nat by lia. tauto.
Qed.

Lemma seg_len c x l : seg c x l -> (c + length x <= length l)%nat \/ x = [].
Proof.
  unfold seg. intros H. destruct x as [|a x]; [by right|left].
  assert (Hl : length (take (length (a :: x)) (drop c l)) = length (a :: x)) by (by rewrite H).
  rewrite length_take, length_drop in Hl. cbn [length] in *. lia.
Qed.

Lemma slice2_seg cbuf i t0 t1 :
  0 <= i -> seg (Z.to_nat i) [t0; t1] cbuf -> slice cbuf i (i + 2) = Ret [t0; t1].
Proof.
  intros Hi Hs. pose proof Hs as [H0 [H1 _]%seg_cons]%seg_cons.
  destruct (slice2_in cbuf i) as (u0 & u1 & E & Hu0 & Hu1); [done| |].
  { apply lookup_lt_Some in H1. unfold len. lia. }
  rewrite E. replace (Z.to_nat (i + 1)) with (S (Z.to_nat i)) in Hu1 by lia.
  by simplify_eq.
Qed.

Lemma lits8_ind (P : list byte -> Prop) :
  (forall lits, (length lits < 8)%nat -> P lits) ->
  (forall a b c d e f g h rest, P rest -> P (a :: b :: c :: d :: e :: f :: g :: h :: rest)) ->
  forall lits, P lits.
Proof.
  intros Hs Hc lits.
  assert (H : forall n lits, (length lits <= n)%nat -> P lits).
  { clear lits. induction n as [|n IH]; intros lits Hl.
    - apply Hs. lia.
    - destruct lits as [|a [|b [|c [|d [|e [|f [|g [|h rest]]]]]]]];
        try (apply Hs; cbn; lia).
      apply Hc. apply IH. cbn [length] in Hl. lia. }
  by apply (H (length lits)).
Qed.

Lemma runThenToken_short lits t0 t1 :
  (length lits < 8)%nat ->
  runThenToken lits t0 t1 = bitByte (length lits) :: lits ++ [t0; t1].
Proof.
  intros H. destruct lits as [|a [|b [|c [|d [|e [|f [|g [|h rest]]]]]]]]; try done.
  cbn [length] in H. lia.
Qed.

Lemma tokenFields_fst_nonneg tok usz start : 0 <= fst (tokenFields tok usz start).
Proof.
  unfold tokenFields, copyTokenHelp. cbn [fst]. unfold u16 at 1.
  apply Z.mod_pos_bound. lia.
Qed.

Section Run.
Variables (t0 t1 : byte) (cbuf : list byte) (cend : Z).

Lemma chunkLoop_at_end fuel s : cend <= dCur s -> chunkLoop fuel cbuf cend 0 s = Ret s.
Proof.
  intros H. destruct fuel; cbn [chunkLoop]; destruct (Z.ltb_spec (dCur s) cend); (lia || done).
Qed.

Lemma chunkLoop_run : forall lits fuel s,
  dwf 0 s -> 0 <= dCur s ->
  seg (Z.to_nat (dCur s)) (runThenToken lits t0 t1) cbuf ->
  cend = dCur s + len (runThenToken lits t0 t1) ->
  cend - dCur s <= Z.of_nat fuel ->
  let k := dSize s + len lits in
  let tlen := fst (tokenFields (le16 t0 t1) k 0) in
  let toff := snd (tokenFields (le16 t0 t1) k 0) in
  toff <= k -> k + tlen <= VBABuffSize ->
  exists ub,
    chunkLoop fuel cbuf cend 0 s = Ret (mkD cend ub (k + tlen))
    /\ len ub = VBABuffSize
    /\ take (Z.to_nat (k + tlen)) ub
       = lzExtend (Z.to_nat tlen) (Z.to_nat toff)
           (take (Z.to_nat (dSize s)) (dBuf s) ++ lits).
Proof.
  intros lits. induction lits as [lits Hr|a b c d e f g h rest IH] using lits8_ind;
    intros fuel s Hw Hc Hseg Hend Hfuel k tlen toff Ho Hk.
  - (* the last group: the literals left and the token *)
    rewrite runThenToken_short in Hseg, Hend by done.
    pose proof Hw as (Hw0 & Hw1 & Hw2).
    assert (Hlen : 3 <= tlen /\ 1 <= toff).
    { pose proof (tokenFields_bounds (le16 t0 t1) k 0 (le16_range t0 t1)) as Hb.
      pose proof (tokenFields_fst_nonneg (le16 t0 t1) k 0).
      pose proof (len_nonneg lits). unfold tlen, toff, k in *.
      destruct Hb; [lia|unfold VBABuffSize in *; lia|]. lia. }
    apply seg_cons in Hseg as [Hfb Hseg]. apply seg_app in Hseg as [Hlits Htok].
    unfold len in Hend. cbn [List.length] in Hend. rewrite length_app in Hend.
    cbn [List.length] in Hend.
    destruct fuel as [|fuel]; [lia|]. cbn [chunkLoop].
    destruct (Z.ltb_spec (dCur s) cend); [|lia].
    assert (Ei : index cbuf (dCur s) = Ret (bitByte (List.length lits)))
      by (by apply index_Ret).
    rewrite Ei. cbn [obind].
    replace 8%nat with (List.length lits + (1 + (7 - List.length lits)))%nat by lia.
    rewrite group_app.
    destruct (group_literals cbuf cend (bitByte (List.length lits)) lits 0
                (mkD (dCur s + 1) (dBuf s) (dSize s)))
      as (ub1 & -> & Hl1 & Ht1); cbn [dCur dSize dBuf].
    { intros i Hi. apply flagBit_bitByte_lt; [done|]. unfold len in Hi. lia. }
    { lia. }
    { replace (Z.to_nat (dCur s + 1)) with (S (Z.to_nat (dCur s))) by lia. done. }
    { unfold len. lia. }
    { lia. }
    { unfold k in Hk. lia. }
    cbn [obind]. rewrite group_app. cbn [group].
    cbn [dCur dSize dBuf] in Hl1, Ht1.
    assert (Etok : slice cbuf (dCur s + 1 + len lits) (dCur s + 1 + len lits + 2)
                   = Ret [t0; t1]).
    { apply slice2_seg; [unfold len; lia|].
      replace (Z.to_nat (dCur s + 1 + len lits))
        with (S (Z.to_nat (dCur s)) + List.length lits)%nat by (unfold len; lia).
      done. }
    rewrite (item_token _ _ _ _ _ _ t0 t1); cbn [dCur dSize dBuf]; [|unfold len; lia| |done].
    2:{ rewrite Z.add_0_l. apply flagBit_bitByte_eq. done. }
    fold k tlen toff.
    destruct (copyLoop_ok (Z.to_nat tlen) (k - toff) ub1 k)
      as (ub2 & E2 & Hl2 & Ht2 & _); [lia|rewrite Hl1; lia|].
    rewrite E2. cbn [obind fst snd].
    rewrite group_skip by (cbn [dCur]; unfold len; lia). cbn [obind].
    rewrite chunkLoop_at_end by (cbn [dCur]; unfold len; lia).
    exists ub2. rewrite Z2Nat.id in * by lia. split_and!.
    + do 2 f_equal. unfold len. lia.
    + lia.
    + rewrite Ht2. fold k in Ht1. rewrite Ht1. do 2 f_equal. lia.
  - (* a group of eight literals *)
    pose proof Hw as (Hw0 & Hw1 & Hw2).
    set (l8 := [a; b; c; d; e; f; g; h]).
    change (runThenToken (a :: b :: c :: d :: e :: f :: g :: h :: rest) t0 t1)
      with (x00 :: l8 ++ runThenToken rest t0 t1) in Hseg, Hend.
    apply seg_cons in Hseg as [Hfb Hseg]. apply seg_app in Hseg as [Hlits Hrest].
    unfold len in Hend. cbn [List.length] in Hend. rewrite length_app in Hend.
    change (List.length l8) with 8%nat in Hend, Hrest.
    pose proof (tokenFields_fst_nonneg (le16 t0 t1) k 0) as Hn. fold tlen in Hn.
    assert (Hkk : k = dSize s + 8 + len rest).
    { unfold k, len. cbn [List.length]. lia. }
    destruct fuel as [|fuel]; [lia|]. cbn [chunkLoop].
    destruct (Z.ltb_spec (dCur s) cend); [|lia].
    assert (Ei : index cbuf (dCur s) = Ret x00) by (by apply index_Ret).
    rewrite Ei. cbn [obind].
    destruct (group_literals cbuf cend x00 l8 0 (mkD (dCur s + 1) (dBuf s) (dSize s)))
      as (ub1 & E1 & Hl1 & Ht1); cbn [dCur dSize dBuf].
    { intros i _. apply flagBit_x00. }
    { lia. }
    { replace (Z.to_nat (dCur s + 1)) with (S (Z.to_nat (dCur s))) by lia. done. }
    { change (len l8) with 8. lia. }
    { lia. }
    { change (len l8) with 8. pose proof (len_nonneg rest). unfold VBABuffSize in *. lia. }
    cbn [dCur dSize dBuf] in Hl1, Ht1.
    change (List.length l8) with 8%nat in E1. change (len l8) with 8 in E1, Ht1.
    rewrite E1. cbn [obind].
    destruct (IH fuel (mkD (dCur s + 1 + 8) ub1 (dSize s + 8)))
      as (ub & E & Hl & Ht); cbn [dCur dSize dBuf].
    { unfold dwf. cbn [dSize dBuf]. pose proof (len_nonneg rest).
      unfold VBABuffSize in *. lia. }
    { lia. }
    { replace (Z.to_nat (dCur s + 1 + 8)) with (S (Z.to_nat (dCur s)) + 8)%nat by lia. done. }
    { unfold len. lia. }
    { lia. }
    { rewrite <- Hkk. done. }
    { rewrite <- Hkk. done. }
    cbn [dCur dSize dBuf] in E, Ht. rewrite <- Hkk in E, Ht. fold tlen toff in E, Ht.
    exists ub. rewrite E. split_and!; [done|done|].
    rewrite Ht, Ht1. rewrite <- app_assoc. done.
Qed.
End Run.

(** [lzExtend] keeps what was produced and appends [n] bytes, each the
    byte [offset] positions before it. *)
Lemma lzExtend_spec n : forall (off : nat) (out : list byte),
  (1 <= off <= length out)%nat ->
  length (lzExtend n off out) = (length out + n)%nat
  /\ take (length out) (lzExtend n off out) = out
  /\ forall i, (i < n)%nat ->
       lzExtend n off out !! (length out + i)%nat
       = lzExtend n off out !! (length out + i - off)%nat.
Proof.
  induction n as [|n IH]; intros off out Ho.
  - cbn [lzExtend]. split; [lia|]. split; [by rewrite take_ge|]. lia.
  - cbn [lzExtend].
    destruct (lookup_lt_is_Some_2 out (length out - off)) as [b Hb]; [lia|].
    rewrite Hb.
    destruct (IH off (out ++ [b])) as (Hl & Ht & Hi); [rewrite length_app; cbn; lia|].
    rewrite length_app in Hl, Ht, Hi. cbn [length] in Hl, Ht, Hi.
    set (res := lzExtend n off (out ++ [b])) in *.
    assert (Hpre : forall j, (j <= length out)%nat -> res !! j = (out ++ [b]) !! j).
    { intros j Hj. rewrite <- Ht. rewrite lookup_take_lt by lia. done. }
    split; [lia|]. split.
    + assert (E : take (length out) res = take (length out) (take (length out + 1) res)).
      { rewrite take_take. f_equal. lia. }
      rewrite E, Ht. by rewrite take_app_length.
    + intros i Hi'. destruct i as [|i].
      * rewrite Nat.add_0_r. rewrite !Hpre by lia.
        rewrite lookup_app_r by lia. rewrite Nat.sub_diag.
        rewrite lookup_app_l by lia. by rewrite Hb.
      * replace (length out + S i)%nat with (length out + 1 + i)%nat by lia.
        apply Hi. lia.
Qed.

(** At offset 1 the copy repeats the last byte. *)
Lemma lzExtend_repeat n : forall (pre : list byte) b,
  lzExtend n 1 (pre ++ [b]) = pre ++ [b] ++ replicate n b.
Proof.
  induction n as [|n IH]; intros pre b.
  - cbn. done.
  - cbn [lzExtend]. rewrite length_app. cbn [length].
    replace (length pre + 1 - 1)%nat with (length pre) by lia.
    rewrite lookup_app_r by lia. rewrite Nat.sub_diag. cbn [lookup list_lookup].
    rewrite IH. rewrite <- !app_assoc. cbn. done.
Qed.

(** ** The fuel suffices *)

Section Total.
Context {W : Type} `{!Writer W}.
Implicit Type st : VBAWriter W.

Lemma uncompressChunk_fuel st :
  len (uncompressedBuffer st) = VBABuffSize -> uncompressChunk st <> OutOfFuel.
Proof.
  intros Hlu. unfold uncompressChunk.
  destruct (headerOf (compressedBuffer st)) as [h| |] eqn:Eh; cbn [obind]; [|done|].
  2:{ unfold headerOf in Eh. destruct (slice _ _ _) as [[|? [|? [|? ?]]]| |] eqn:Es;
        cbn [obind] in Eh; try discriminate. by apply slice_fuel in Es. }
  destruct (negb _); [done|]. destruct (_ >? _); [done|].
  destruct (_ =? 0).
  - destruct (negb _); [done|].
    destruct (slice _ _ _) eqn:Es; cbn [obind]; [|done|by apply slice_fuel in Es].
    unfold copy_into. destruct (_ && _); done.
  - pose proof (chunkSize_range h).
    destruct (chunkLoop _ _ _ _ _) eqn:E; cbn [obind]; [done|done|].
    apply chunkLoop_fuel in E; [done| |cbn [dCur]; lia].
    unfold dwf. cbn. rewrite Hlu. unfold VBABuffSize. lia.
Qed.

(** A decode that takes nothing and reports no error has found too few
    bytes. *)
Lemma uncompressChunk_zero st st' :
  len (uncompressedBuffer st) = VBABuffSize ->
  uncompressChunk st = Ret (st', (0, None)) ->
  st' = set_uSize 0 st /\ cSize st < VBABuffSize.
Proof.
  intros Hlu H.
  destruct (headerOf (compressedBuffer st)) as [h| |] eqn:Eh;
    [|unfold uncompressChunk in H; rewrite Eh in H; discriminate..].
  pose proof (chunkSize_range h) as Hr.
  destruct (Z.eq_dec (chunkSignature h) 3) as [Hs|Hs].
  2:{ rewrite (uncompressChunk_signature st h) in H by done. discriminate. }
  destruct (Z.ltb_spec (cSize st) (chunkSize h)) as [Hc|Hc].
  { rewrite (uncompressChunk_insufficient st h) in H by done. injection H as <-.
    split; [done|]. unfold VBABuffSize. lia. }
  exfalso.
  destruct (Z.eq_dec (chunkFlag h) 0) as [Hf|Hf].
  - destruct (Z.eq_dec (chunkSize h) 4098) as [Hz|Hz].
    + unfold uncompressChunk in H. rewrite Eh in H. cbn [obind] in H.
      rewrite Hs, Hf, Hz in H. cbn [Z.eqb Pos.eqb negb set_uSize cSize] in H.
      destruct (Z.gtb_spec 4098 (cSize st)); [lia|].
      destruct (slice _ _ _); cbn [obind] in H; try discriminate.
      destruct (copy_into _ _ _ _); cbn [obind] in H; discriminate.
    + rewrite (uncompressChunk_raw_size st h) in H by done. discriminate.
  - rewrite (uncompressChunk_compressed st h) in H by done.
    destruct (chunkLoop _ _ _ _ _) as [s| |] eqn:E; try discriminate.
    cbn [obind] in H. injection H as _ Hn.
    apply chunkLoop_facts in E as (_ & ? & _); [lia|].
    unfold dwf. cbn. rewrite Hlu. unfold VBABuffSize. lia.
Qed.

Lemma copy_into_fuel dst lo hi src : copy_into dst lo hi src <> OutOfFuel.
Proof. unfold copy_into. by destruct (_ && _). Qed.

Lemma copy_into_len dst lo hi src d :
  copy_into dst lo hi src = Ret d -> len d = len dst.
Proof.
  unfold copy_into. destruct (_ && _) eqn:E; [|done]. intros [= <-].
  apply andb_prop in E as [E E3]. apply andb_prop in E as [E1 E2].
  apply Z.leb_le in E1, E2, E3. unfold len in *.
  rewrite !length_app, !length_take, length_drop. lia.
Qed.

Lemma flushChunk_inl st total processed r :
  flushChunk st total processed = inl r ->
  r <> OutOfFuel /\ forall st' n, r <> Ret (st', (n, None)).
Proof.
  unfold flushChunk, writeOut, shiftLeft. intros H.
  repeat match type of H with
  | context [slice ?a ?b ?c] =>
      let E := fresh "E" in
      destruct (slice a b c) eqn:E; [| |by apply slice_fuel in E]
  | context [copy_into ?a ?b ?c ?d] =>
      let E := fresh "E" in
      destruct (copy_into a b c d) eqn:E; [| |by apply copy_into_fuel in E]
  | context [wr_Write ?a ?b] => destruct (wr_Write a b) as [? [? [?|]]]
  | context [if ?c then _ else _] => destruct c
  | inl _ = inl _ => injection H as <-
  | inr _ = inl _ => discriminate H
  end.
  all: split; [done|]; intros; done.
Qed.

Lemma flushChunk_inr st total processed st2 :
  Bounded st -> 0 <= processed ->
  flushChunk st total processed = inr st2 ->
  Bounded st2 /\ cSize st2 = cSize st - processed.
Proof.
  intros (Hc & Hu & Hs) Hp. unfold flushChunk. intros H.
  destruct (writeOut st total) as [|st1] eqn:E1; [done|].
  assert (H1 : compressedBuffer st1 = compressedBuffer st
               /\ uncompressedBuffer st1 = uncompressedBuffer st
               /\ cSize st1 = cSize st).
  { unfold writeOut in E1.
    destruct (negb _); [|by injection E1 as <-].
    destruct (slice _ _ _); try discriminate.
    destruct (wr_Write _ _) as [? [? [?|]]]; try discriminate.
    destruct (negb _); [done|]. by injection E1 as <-. }
  destruct H1 as (E2 & E3 & E4).
  unfold shiftLeft in H. rewrite E2, E4 in H.
  destruct (Z.ltb_spec (cSize st - processed) 0); [done|].
  destruct (_ >? _).
  - destruct (slice _ _ _); try discriminate.
    destruct (copy_into _ _ _ _) as [cb| |] eqn:Ec; try discriminate.
    injection H as <-. apply copy_into_len in Ec.
    unfold Bounded. cbn. rewrite Ec, E3. split; [|done]. split_and!; lia.
  - injection H as <-. unfold Bounded. cbn. rewrite E2, E3.
    split; [|done]. split_and!; lia.
Qed.

Lemma uncompressLoop_total fuel st total :
  Bounded st -> (Z.to_nat (cSize st) <= fuel)%nat ->
  uncompressLoop fuel st total <> OutOfFuel
  /\ forall st' n, uncompressLoop fuel st total = Ret (st', (n, None)) ->
       Bounded st' /\ cSize st' < VBABuffSize.
Proof.
  revert st total. induction fuel as [|fuel IH]; intros st total Hb Hf.
  { rewrite uncompressLoop_done by lia. split; [done|].
    intros ?? [= <- <-]. split; [done|]. unfold VBABuffSize. lia. }
  destruct (Z.leb_spec (cSize st) 0) as [Hz|Hz].
  { rewrite uncompressLoop_done by lia. split; [done|].
    intros ?? [= <- <-]. split; [done|]. unfold VBABuffSize. lia. }
  rewrite uncompressLoop_step by done.
  pose proof Hb as (Hc & Hu & Hs).
  destruct (uncompressChunk st) as [[st1 [p [e|]]]| |] eqn:E; cbn [obind];
    [done|..|done|by apply uncompressChunk_fuel in E].
  pose proof (uncompressChunk_frame _ _ _ _ E) as (_ & F1 & F2 & _).
  destruct (Z.eqb_spec p 0) as [->|Hp].
  { apply uncompressChunk_zero in E as [-> Hlt]; [|done].
    split; [done|]. intros ?? [= <- <-]. split; [done|]. by cbn. }
  destruct (headerOf (compressedBuffer st)) as [h| |] eqn:Eh;
    [|unfold uncompressChunk in E; rewrite Eh in E; discriminate..].
  destruct (uncompressChunk_Ret st st1 p h Hu Eh E Hp) as (_ & ? & ? & ? & Hu1 & _).
  pose proof (chunkSize_range h).
  assert (Hb1 : Bounded st1) by (unfold Bounded; rewrite F1, F2; done).
  destruct (flushChunk st1 (total + p) p) as [r|st2] eqn:Ef.
  - apply flushChunk_inl in Ef as [? Hr]. split; [done|]. intros ?? ->. exfalso. by eapply Hr.
  - apply flushChunk_inr in Ef as [Hb2 E2]; [|done|lia].
    apply IH; [done|lia].
Qed.

(** [uncompress] never runs out of fuel; when it reports no error, room
    is left in the accumulation buffer. *)
Lemma uncompress_total st :
  Bounded st ->
  uncompress st <> OutOfFuel
  /\ forall st' n, uncompress st = Ret (st', (n, None)) ->
       Bounded st' /\ cSize st' < VBABuffSize.
Proof. intros Hb. apply uncompressLoop_total; [done|lia]. Qed.

Lemma fill_total st b offset buffAvail vbaAvail :
  fill st b offset buffAvail vbaAvail <> OutOfFuel.
Proof.
  unfold fill. destruct (_ <? _).
  all: destruct (slice _ _ _) eqn:Es; cbn [obind]; [|done|by apply slice_fuel in Es].
  all: destruct (copy_into _ _ _ _) eqn:Ec; cbn [obind];
    [done|done|by apply copy_into_fuel in Ec].
Qed.

Lemma fill_Ret st b offset st1 o1 :
  Bounded st -> 0 <= offset ->
  fill st b offset (len b - offset) (VBABuffSize - cSize st) = Ret (st1, o1) ->
  let k := Z.min (VBABuffSize - cSize st) (len b - offset) in
  0 <= k /\ o1 = offset + k /\ cSize st1 = cSize st + k /\ Bounded st1.
Proof.
  intros (Hc & Hu & Hs) Ho. unfold fill.
  destruct (Z.ltb_spec (VBABuffSize - cSize st) (len b - offset)).
  all: destruct (slice _ _ _) as [src| |] eqn:Es; cbn [obind]; try discriminate.
  all: destruct (copy_into _ _ _ _) as [cb| |] eqn:Ec; cbn [obind]; try discriminate.
  all: intros [= <- <-]; apply copy_into_len in Ec.
  all: apply slice_Ret in Es as (? & ? & _).
  all: unfold Bounded; cbn; rewrite Ec; split_and!; try done; lia.
Qed.

Lemma writeLoop_total fuel st b offset :
  Bounded st -> 0 <= offset ->
  (len b - offset) + (if cSize st =? VBABuffSize then 1 else 0) <= Z.of_nat fuel ->
  writeLoop fuel st b offset (len b - offset) (VBABuffSize - cSize st) 0 <> OutOfFuel.
Proof.
  revert st offset. induction fuel as [|fuel IH]; intros st offset Hb Ho Hf.
  { cbn [writeLoop]. destruct (Z.gtb_spec (len b - offset) 0); [|done].
    destruct (_ =? _); lia. }
  cbn [writeLoop]. destruct (Z.gtb_spec (len b - offset) 0); [|done].
  destruct (fill _ _ _ _ _) as [[st1 o1]| |] eqn:Efill; cbn [obind];
    [|done|by apply fill_total in Efill].
  apply fill_Ret in Efill as (Hk & -> & Ecs & Hb1); [|done..].
  destruct (uncompress_total st1 Hb1) as [Hnf Hnil].
  destruct (uncompress st1) as [[st2 [p [e|]]]| |] eqn:Eu; cbn [obind]; try done.
  destruct (Hnil _ _ eq_refl) as [Hb2 Hlt].
  apply IH; [done|lia|].
  destruct (Z.eqb_spec (cSize st2) VBABuffSize); [lia|].
  pose proof Hb as (_ & _ & Hs).
  destruct (Z.eqb_spec (cSize st) VBABuffSize); lia.
Qed.

Lemma carvStep_Bounded st c st' :
  Bounded st -> carvStep st c = Ret st' -> Bounded st'.
Proof.
  intros (Hc & Hu & Hs). unfold carvStep.
  assert (Hst : forall cb, store (compressedBuffer st) (cSize st) c = Ret cb ->
            len cb = VBABuffSize /\ cSize st < VBABuffSize).
  { intros cb E. apply store_Ret in E as (? & ->). rewrite len_insert. lia. }
  destruct (_ || _).
  - destruct (store _ _ _) as [cb| |] eqn:E; cbn [obind]; try discriminate.
    intros [= <-]. destruct (Hst _ eq_refl). unfold Bounded. cbn. split_and!; (done || lia).
  - destruct (index _ _); cbn [obind]; try discriminate.
    destruct (Byte.eqb _ _).
    + destruct (store _ _ _) as [cb| |] eqn:E; cbn [obind]; try discriminate.
      destruct (Hst _ eq_refl).
      destruct (negb _); intros [= <-]; unfold Bounded; cbn; split_and!; (done || lia).
    + intros [= <-]. unfold Bounded. cbn. unfold VBABuffSize. split_and!; (done || lia).
Qed.

Lemma carvLoop_total st i buff :
  Bounded st ->
  carvLoop st i buff <> OutOfFuel
  /\ forall st' off f, carvLoop st i buff = Ret (st', (off, f)) ->
       Bounded st' /\ (f = true -> i < off <= i + len buff).
Proof.
  revert st i. induction buff as [|c buff IH]; intros st i Hb.
  { cbn. split; [done|]. intros ??? [= <- <- <-]. done. }
  cbn [carvLoop].
  destruct (carvStep st c) as [st1| |] eqn:E; cbn [obind]; [|done|].
  2:{ exfalso. unfold carvStep in E.
      repeat match type of E with
      | context [store ?a ?b ?c] =>
          let E' := fresh in destruct (store a b c) eqn:E'; cbn [obind] in E;
            [| |by apply store_fuel in E']
      | context [index ?a ?b] =>
          let E' := fresh in destruct (index a b) eqn:E'; cbn [obind] in E;
            [| |by apply index_fuel in E']
      | context [if ?c then _ else _] => destruct c
      end; discriminate. }
  apply carvStep_Bounded in E; [|done].
  destruct (_ =? _).
  - split; [done|]. intros ??? [= <- <- <-]. split; [done|].
    intros _. unfold len. cbn [length]. lia.
  - destruct (IH st1 (i + 1) E) as [H1 H2]. split; [done|].
    intros st' off f H. destruct (H2 _ _ _ H) as [? Hr]. split; [done|].
    intros Hf. specialize (Hr Hf). unfold len in *. cbn [length]. lia.
Qed.

(** [Write] never runs out of fuel. *)
Lemma Write_total st b : Bounded st -> Write st b <> OutOfFuel.
Proof.
  intros Hb. unfold Write, writeBody.
  destruct (negb _).
  - unfold carvVBA. destruct (carvLoop_total st 0 b Hb) as [H1 H2].
    destruct (carvLoop st 0 b) as [[st1 [off [|]]]| |]; cbn [obind negb]; try done.
    destruct (H2 _ _ _ eq_refl) as [Hb1 Hoff]. specialize (Hoff eq_refl).
    apply writeLoop_total; [done|lia|]. destruct (_ =? _); lia.
  - apply writeLoop_total; [done|lia|]. destruct (_ =? _); lia.
Qed.
End Total.

Lemma NewWriter_Bounded {W : Type} (w : W) : Bounded (NewWriter w).
Proof. unfold Bounded. cbn. unfold VBABuffSize. split_and!; (done || lia). Qed.

Section Preserved.
Context {W : Type} `{!Writer W}.
Implicit Type st : VBAWriter W.

Lemma uncompressChunk_Bounded st st' n e :
  Bounded st -> uncompressChunk st = Ret (st', (n, e)) -> Bounded st'.
Proof.
  intros (Hc & Hu & Hs) H.
  pose proof (uncompressChunk_frame _ _ _ _ H) as (_ & F1 & F2 & _).
  unfold Bounded. rewrite F1, F2. split_and!; try done; try lia.
  unfold uncompressChunk in H.
  destruct (headerOf _) as [h| |]; cbn [obind] in H; try discriminate.
  destruct (negb _); [by injection H as <-|].
  destruct (_ >? _); [by injection H as <-|].
  destruct (_ =? 0).
  - destruct (negb _); [by injection H as <-|].
    destruct (slice _ _ _); cbn [obind] in H; try discriminate.
    destruct (copy_into _ _ _ _) as [ub| |] eqn:Ec; cbn [obind] in H; try discriminate.
    injection H as <-. apply copy_into_len in Ec. cbn in *. by rewrite Ec.
  - destruct (chunkLoop _ _ _ _ _) as [s| |] eqn:E; cbn [obind] in H; try discriminate.
    injection H as <-. apply chunkLoop_facts in E as ((_ & _ & ?) & _); [done|].
    unfold dwf. cbn. rewrite Hu. unfold VBABuffSize. lia.
Qed.

Lemma flushChunk_inl_Bounded st total processed st' r :
  Bounded st -> flushChunk st total processed = inl (Ret (st', r)) -> Bounded st'.
Proof.
  intros Hb. unfold flushChunk.
  destruct (writeOut st total) as [r1|st1] eqn:E1.
  - intros [= ->]. unfold writeOut in E1.
    destruct (negb _); [|done]. destruct (slice _ _ _); try discriminate.
    destruct (wr_Write _ _) as [? [? [?|]]]; [by injection E1 as <-|].
    destruct (negb _); [by injection E1 as <-|done].
  - assert (Hb1 : Bounded st1).
    { unfold writeOut in E1. destruct (negb _); [|by injection E1 as <-].
      destruct (slice _ _ _); try discriminate.
      destruct (wr_Write _ _) as [? [? [?|]]]; try discriminate.
      destruct (negb _); [done|]. by injection E1 as <-. }
    unfold shiftLeft. destruct (_ <? _); [by intros [= <-]|].
    destruct (_ >? _); [|done]. destruct (slice _ _ _); try done.
    destruct (copy_into _ _ _ _); done.
Qed.

Lemma uncompressLoop_Bounded fuel st total st' r :
  Bounded st -> uncompressLoop fuel st total = Ret (st', r) -> Bounded st'.
Proof.
  revert st total. induction fuel as [|fuel IH]; intros st total Hb H.
  { cbn in H. destruct (_ >? _); [done|]. by injection H as <-. }
  cbn [uncompressLoop] in H. destruct (_ >? _); [|by injection H as <-].
  destruct (uncompressChunk st) as [[st1 [p e]]| |] eqn:E; cbn [obind] in H; try done.
  apply uncompressChunk_Bounded in E; [|done].
  destruct e; [by injection H as <-|].
  destruct (Z.eqb_spec p 0); [by injection H as <-|].
  destruct (flushChunk _ _ _) as [r1|st2] eqn:Ef.
  - subst r1. by eapply flushChunk_inl_Bounded.
  - eapply IH; [|done].
    all: unfold flushChunk in Ef; destruct (writeOut st1 _) as [|st3] eqn:E1; [done|].
    all: assert (Hb3 : Bounded st3)
      by (unfold writeOut in E1; destruct (negb _); [|by injection E1 as <-];
          destruct (slice _ _ _); try discriminate;
          destruct (wr_Write _ _) as [? [? [?|]]]; try discriminate;
          destruct (negb _); [done|]; by injection E1 as <-).
    all: destruct Hb3 as (Hc3 & Hu3 & Hs3); unfold shiftLeft in Ef.
    all: destruct (Z.ltb_spec (cSize st3 - p) 0); [done|].
    all: destruct (Z.gtb_spec (cSize st3 - p) 0).
    all: try (injection Ef as <-; unfold Bounded; cbn; split_and!; (done || lia)).
    all: destruct (slice _ _ _) as [src| |] eqn:Es; try discriminate.
    all: apply slice_Ret in Es as (? & ? & _).
    all: destruct (copy_into _ _ _ _) as [cb| |] eqn:Ec; try discriminate.
    all: apply copy_into_len in Ec; injection Ef as <-.
    all: unfold Bounded; cbn; rewrite Ec; split_and!; (done || lia).
Qed.

Lemma writeLoop_Bounded fuel st b offset st' r :
  Bounded st -> 0 <= offset ->
  writeLoop fuel st b offset (len b - offset) (VBABuffSize - cSize st) 0 = Ret (st', r) ->
  Bounded st'.
Proof.
  revert st offset. induction fuel as [|fuel IH]; intros st offset Hb Ho H.
  { cbn in H. destruct (_ >? _); [done|]. by injection H as <-. }
  cbn [writeLoop] in H. destruct (_ >? _); [|by injection H as <-].
  destruct (fill _ _ _ _ _) as [[st1 o1]| |] eqn:Ef; cbn [obind] in H; try done.
  apply fill_Ret in Ef as (? & -> & ? & Hb1); [|done..].
  destruct (uncompress st1) as [[st2 [p e]]| |] eqn:Eu; cbn [obind] in H; try done.
  apply uncompressLoop_Bounded in Eu; [|done].
  destruct e; [by injection H as <-|]. eapply IH; [done| |done]. lia.
Qed.

(** [Write] keeps the buffers at their size. *)
Lemma Write_Bounded st b st' r :
  Bounded st -> Write st b = Ret (st', r) -> Bounded st'.
Proof.
  intros Hb. unfold Write, writeBody.
  destruct (negb _).
  - unfold carvVBA. destruct (carvLoop_total st 0 b Hb) as [_ H2].
    destruct (carvLoop st 0 b) as [[st1 [off f]]| |]; cbn [obind]; try done.
    destruct (H2 _ _ _ eq_refl) as [Hb1 Hoff].
    destruct f; cbn [negb]; [|by intros [= <-]].
    specialize (Hoff eq_refl). apply writeLoop_Bounded; [done|lia].
  - apply writeLoop_Bounded; [done|lia].
Qed.

(** A session of writes on a writer of [NewWriter] never runs out of
    fuel. *)
Lemma writeAll_total ws : forall st, Bounded st -> writeAll st ws <> OutOfFuel.
Proof.
  induction ws as [|w ws IH]; intros st Hb; [done|].
  cbn [writeAll]. pose proof (Write_total st w Hb).
  destruct (Write st w) as [[st1 [n [e|]]]| |] eqn:E; cbn [obind]; try done.
  apply IH. by eapply Write_Bounded.
Qed.
End Preserved.

(** ** A header with wrong signature bits *)

Lemma badHeader_uncompress st :
  badHeader st ->
  uncompressChunk st = Ret (set_uSize 0 st, (0, Some ErrChunkSignature))
  /\ uncompress st = Ret (set_uSize 0 st, (0, Some ErrChunkSignature)).
Proof.
  intros (Hwf & h & Hh & Hs).
  assert (E : uncompressChunk st = Ret (set_uSize 0 st, (0, Some ErrChunkSignature))).
  { apply (uncompressChunk_signature st h); [by apply headerOf_pending|done]. }
  split; [done|]. assert (0 < cSize st).
  { rewrite <- (len_pending st Hwf). destruct (pending st) as [|? [|? ?]]; try done;
      unfold len; cbn [length]; lia. }
  rewrite uncompress_unfold, uncompressLoop_step by done. by rewrite E.
Qed.

Lemma badHeader_Write st b :
  badHeader st -> b <> [] ->
  exists st', Write st b = Ret (st', (0, Some ErrChunkSignature))
    /\ wr st' = wr st /\ badHeader st'.
Proof.
  intros Hbad Hb. pose proof Hbad as (Hwf & h & Hh & Hs).
  unfold Write. rewrite (wf_found st Hwf). cbn [negb]. unfold writeBody.
  rewrite Z.sub_0_r.
  assert (Hl : 0 < len b) by (destruct b; [done|]; unfold len; cbn [length]; lia).
  cbn [writeLoop]. destruct (Z.gtb_spec (len b) 0); [|lia].
  destruct (fill_spec st b 0 Hwf ltac:(lia)) as (st1 & E & Hp1 & Hwf1 & Hw1 & _).
  rewrite Z.sub_0_r in E. rewrite E. cbn [obind].
  assert (Hbad1 : badHeader st1).
  { split; [done|]. exists h. split; [|done]. rewrite Hp1. by apply headerWord_app. }
  destruct (badHeader_uncompress st1 Hbad1) as [_ ->]. cbn [obind].
  exists (set_uSize 0 st1). split_and!; try done.
  destruct Hbad1 as (? & h1 & ? & ?). split; [by destruct Hwf1|]. by exists h1.
Qed.

Lemma badHeader_writeOn ws : forall st,
  badHeader st -> exists st', writeOn st ws = Ret st' /\ wr st' = wr st /\ badHeader st'.
Proof.
  induction ws as [|w ws IH]; intros st Hbad; [by exists st|].
  cbn [writeOn]. destruct (decide (w = [])) as [->|Hw].
  - rewrite Write_found_nil by (by destruct Hbad as [[] _]). cbn [obind fst]. by apply IH.
  - destruct (badHeader_Write st w Hbad Hw) as (st1 & -> & Hw1 & Hbad1). cbn [obind fst].
    destruct (IH st1 Hbad1) as (st' & E & Hw' & ?). exists st'. split_and!; try done.
    congruence.
Qed.

(** ** Cutting a stream into writes *)

Lemma decodeChunks_sound fuel : forall t outs r,
  decodeChunks fuel t = Some (outs, r) -> chunks t outs r.
Proof.
  induction fuel as [|fuel IH]; intros t outs r H.
  - cbn [decodeChunks] in H. destruct (headerWord t) as [h|] eqn:Eh.
    + destruct (Z.eqb_spec (chunkSignature h) 3); [|done]. cbn [negb] in H.
      destruct (Z.ltb_spec (len t) (chunkSize h)); [|done].
      injection H as <- <-. constructor. unfold incomplete. by rewrite Eh.
    + injection H as <- <-. constructor. unfold incomplete. by rewrite Eh.
  - cbn [decodeChunks] in H. destruct (headerWord t) as [h|] eqn:Eh.
    2:{ injection H as <- <-. constructor. unfold incomplete. by rewrite Eh. }
    destruct (Z.eqb_spec (chunkSignature h) 3); [|done]. cbn [negb] in H.
    destruct (Z.ltb_spec (len t) (chunkSize h)).
    { injection H as <- <-. constructor. unfold incomplete. by rewrite Eh. }
    destruct (chunkOut _) as [out|] eqn:Eo; [|done].
    destruct (decodeChunks fuel _) as [[outs' r']|] eqn:Ed; [|done].
    injection H as <- <-. apply IH in Ed.
    rewrite <- (take_drop (Z.to_nat (chunkSize h)) t). constructor; [|done].
    pose proof (chunkSize_range h).
    assert (El : len (take (Z.to_nat (chunkSize h)) t) = chunkSize h).
    { unfold len in *. rewrite length_take. lia. }
    exists h. split_and!; try done.
    apply (headerWord_prefix _ (drop (Z.to_nat (chunkSize h)) t)); [|lia].
    by rewrite take_drop.
Qed.

Lemma concat_singletons (s : list byte) : concat (map (fun b => [b]) s) = s.
Proof. induction s as [|b s IH]; [done|]. cbn. by rewrite IH. Qed.

(** Any way of cutting a valid stream into writes leaves the same sink and
    the same bytes held as the single write of the whole stream. *)
Lemma any_split_same_output (ws : list (list byte)) :
  validStream (concat ws) ->
  exists st1 st2 n,
    Write fresh (concat ws) = Ret (st1, (len (concat ws), None))
    /\ writeAll fresh ws = Ret (st2, (n, None))
    /\ wr st1 = wr st2 /\ pending st1 = pending st2
    /\ marker_cur st1 = marker_cur st2 /\ marker_found st1 = marker_found st2.
Proof.
  intros Hv%validStream_ok.
  destruct (Write_J fresh [] (concat ws) J_fresh Hv) as (st1 & E1 & J1).
  destruct (writeAll_J ws fresh [] J_fresh Hv) as (st2 & n & E2 & J2).
  exists st1, st2, n. split; [done|]. split; [done|]. by apply (J_det _ _ (concat ws)).
Qed.

(** ** Runs on given streams *)

Lemma demo_valid : validStream demo.
Proof.
  exists ([x08; xb0; x00] ++ attribut ++ [x03; xb0; x02; x41; x00; x00]),
         [attribut; [x41; x41; x41; x41]], [].
  split; [vm_compute; reflexivity|].
  apply (decodeChunks_sound 2). vm_compute. reflexivity.
Qed.

(** The sink after [demo], written byte by byte. *)
Example demo_bytewise :
  exists st n, writeAll fresh (map (fun b => [b]) demo) = Ret (st, (n, None))
    /\ wr st = [attribut; [x41; x41; x41; x41]].
Proof. eexists _, _. split; vm_compute; reflexivity. Qed.

Lemma loaded_WF c : 2 <= len c <= VBABuffSize -> WF (loaded c).
Proof.
  intros H. split.
  - apply loaded_len. lia.
  - unfold loaded, len. cbn. rewrite length_replicate. unfold VBABuffSize. lia.
  - cbn. lia.
  - done.
  - cbn [loaded cSize]. lia.
Qed.

(** * The properties the specification states *)

(** ** C1: the split of a copy token *)

(** Claim C1.  A copy token read when [dSize s] bytes are decompressed,
    in a chunk that began at [start], is split by the bit count
    [b = max (ceil (log2 difference)) 4] of [difference = dSize s - start]:
    its length is the low [16 - b] bits plus 3, so at least 3, and its
    offset the high [b] bits plus 1.  The item of the token group computes
    the two from the [dSize] it finds, for every token anew, and copies
    [length] bytes from [dSize s - offset]. *)
Theorem copy_token_split cbuf cend start fb bi s t0 t1 :
  dCur s < cend -> flagBit fb bi <> 0 ->
  slice cbuf (dCur s) (dCur s + 2) = Ret [t0; t1] ->
  0 <= start <= dSize s -> dSize s <= VBABuffSize ->
  let difference := dSize s - start in
  let b := Z.max (Z.log2_up difference) 4 in
  let copyToken := le16 t0 t1 in
  let length := copyToken mod 2 ^ (16 - b) + 3 in
  let offset := copyToken / 2 ^ (16 - b) + 1 in
  (4 <= b /\ difference <= 2 ^ b /\ (4 < b -> 2 ^ (b - 1) < difference))
  /\ 3 <= length
  /\ 1 <= offset
  /\ tokenFields copyToken (dSize s) start = (length, offset)
  /\ item cbuf cend start fb bi s =
       (let! r := copyLoop (Z.to_nat length) (dSize s - offset) (dBuf s) (dSize s) in
        Ret (mkD (dCur s + 2) (fst r) (snd r))).
Proof.
  intros Hc Hb Hs Hst Hu difference b copyToken length offset.
  unfold VBABuffSize in Hu.
  destruct (bitCountOf_spec difference ltac:(unfold difference; lia)) as (Eb & Hr & Hle & Hgt).
  fold b in Eb. rewrite Eb in Hr, Hle, Hgt.
  assert (Et : tokenFields copyToken (dSize s) start = (length, offset)).
  { unfold length, offset. rewrite <- Eb.
    apply tokenFields_split; [apply le16_range|lia|lia]. }
  pose proof (tokenFields_bounds copyToken (dSize s) start (le16_range t0 t1)
                ltac:(lia) ltac:(lia)) as [Hl Ho].
  rewrite Et in Hl, Ho. cbn [fst snd] in Hl, Ho.
  split; [split; [lia|split; [exact Hle|exact Hgt]]|].
  split; [lia|]. split; [lia|]. split; [exact Et|].
  rewrite (item_token _ _ _ _ _ _ t0 t1) by done. fold copyToken. rewrite Et. done.
Qed.

(** C1 at the token [07 00] behind one literal: length 10, offset 1. *)
Lemma copy_token_split_witness :
  tokenFields (le16 x07 x00) 1 0 = (10, 1)
  /\ item [x03; xb0; x02; x41; x07; x00] 6 0 x02 1 atToken =
       (let! r := copyLoop 10 0 (dBuf atToken) 1 in Ret (mkD 6 (fst r) (snd r))).
Proof.
  destruct (copy_token_split [x03; xb0; x02; x41; x07; x00] 6 0 x02 1 atToken x07 x00)
    as (_ & _ & _ & H1 & H2).
  - vm_compute. reflexivity.
  - vm_compute. discriminate.
  - vm_compute. reflexivity.
  - vm_compute. split; discriminate.
  - vm_compute. discriminate.
  - split; [exact H1|exact H2].
Defined.

(** ** C2: the bytes a chunk decode consumes and produces *)

(** Against C2 as stated.  In the chunk [02 b0 02 41 00 00] the header
    declares 5 bytes; the copy token starts on the fifth byte, is read with
    the byte behind the chunk, and 6 bytes are reported as consumed.  In
    the stream [demo] the first of two chunks decodes to 8 bytes and the
    second to 4. *)
Lemma straddling_token_consumes_one_more :
  (exists st', uncompressChunk (loaded [x02; xb0; x02; x41; x00; x00]) = Ret (st', (6, None))
     /\ headerOf (compressedBuffer (loaded [x02; xb0; x02; x41; x00; x00])) = Ret 0xB002
     /\ chunkSize 0xB002 = 5 /\ chunkSignature 0xB002 = 3 /\ chunkFlag 0xB002 = 1)
  /\ (exists st n, Write fresh demo = Ret (st, (n, None))
        /\ wr st = [attribut; [x41; x41; x41; x41]]).
Proof.
  split.
  - eexists. split; [vm_compute; reflexivity|]. split_and!; vm_compute; reflexivity.
  - eexists _, _. split; vm_compute; reflexivity.
Qed.

(** Claim C2, as the code has it.  A chunk decode that takes a chunk
    reports as consumed the declared size [(header & 0x0FFF) + 3] or one
    byte more, never less.  A chunk with the compressed flag 0 is consumed
    at its 4098 bytes and gives 4096 bytes; a chunk with the flag 1 gives
    any number of bytes up to the size of the buffer, wherever it stands in
    the stream. *)
Theorem chunk_consumed_bounds {W : Type} `{!Writer W} (st st' : VBAWriter W) n h :
  len (uncompressedBuffer st) = VBABuffSize ->
  headerOf (compressedBuffer st) = Ret h ->
  uncompressChunk st = Ret (st', (n, None)) -> n <> 0 ->
  chunkSize h = Z.land h 0x0FFF + 3
  /\ chunkSize h <= cSize st
  /\ chunkSize h <= n <= chunkSize h + 1
  /\ 0 <= uSize st' <= VBABuffSize
  /\ (chunkFlag h = 0 -> n = chunkSize h /\ n = 4098 /\ uSize st' = 4096).
Proof.
  intros Hlu Hh E Hn.
  destruct (uncompressChunk_Ret st st' n h Hlu Hh E Hn) as (_ & ? & ? & ? & _ & ?).
  split_and!; try done; try lia.
  unfold chunkSize, u16. apply Z.mod_small.
  assert (0 <= Z.land h 0xFFF < 2 ^ 12); [|lia].
  change 0xFFF with (Z.ones 12). rewrite Z.land_ones by lia.
  apply Z.mod_pos_bound. lia.
Qed.

(** C2 at the chunk [02 b0 02 41 00 00]. *)
Lemma chunk_consumed_bounds_witness :
  exists st',
    uncompressChunk (loaded [x02; xb0; x02; x41; x00; x00]) = Ret (st', (6, None))
    /\ chunkSize 0xB002 <= 6 <= chunkSize 0xB002 + 1
    /\ 0 <= uSize st' <= VBABuffSize.
Proof.
  assert (E : exists st',
    uncompressChunk (loaded [x02; xb0; x02; x41; x00; x00]) = Ret (st', (6, None)))
    by (eexists; vm_compute; reflexivity).
  destruct E as [st' E]. exists st'. split; [exact E|].
  destruct (chunk_consumed_bounds (loaded [x02; xb0; x02; x41; x00; x00]) st' 6 0xB002)
    as (_ & _ & H1 & H2 & _).
  - vm_compute. reflexivity.
  - vm_compute. reflexivity.
  - exact E.
  - discriminate.
  - split; [exact H1|exact H2].
Defined.

(** ** C3: the window of a copy token *)

(** Against C3 as stated.  A copy token as the first item of a chunk has
    the offset 1 with no byte produced; the copy reads
    [uncompressedBuffer[-1]] and the write panics. *)
Lemma copy_token_before_chunk_start_panics :
  tokenFields (le16 x00 x00) 0 0 = (3, 1)
  /\ item [x02; xb0; x01; x00; x00] 5 0 x01 0 (mkD 3 (replicate 4098 x00) 0) = Panic
  /\ uncompressChunk (loaded [x02; xb0; x01; x00; x00]) = Panic
  /\ Write fresh (signature ++ [x02; xb0; x01; x00; x00]) = Panic.
Proof. split_and!; vm_compute; reflexivity. Qed.

(** Claim C3, as the code has it.  The offset of a copy token is at least 1
    and its length at least 3.  When the offset is at most the number of
    bytes produced in the chunk and the copy ends inside the 4098 bytes of
    the buffer, the token is expanded inside the buffer, byte by byte from
    [offset] bytes back.  The decoder checks neither: in every other case
    the index outside the buffer is a run-time panic. *)
Theorem copy_token_window cbuf cend fb bi s t0 t1 :
  dwf 0 s -> dCur s < cend -> flagBit fb bi <> 0 ->
  slice cbuf (dCur s) (dCur s + 2) = Ret [t0; t1] ->
  let length := fst (tokenFields (le16 t0 t1) (dSize s) 0) in
  let offset := snd (tokenFields (le16 t0 t1) (dSize s) 0) in
  1 <= offset /\ 3 <= length
  /\ ((offset <= dSize s /\ dSize s + length <= VBABuffSize) ->
      exists ub, item cbuf cend 0 fb bi s = Ret (mkD (dCur s + 2) ub (dSize s + length))
        /\ len ub = VBABuffSize
        /\ take (Z.to_nat (dSize s + length)) ub
           = lzExtend (Z.to_nat length) (Z.to_nat offset)
               (take (Z.to_nat (dSize s)) (dBuf s)))
  /\ (~ (offset <= dSize s /\ dSize s + length <= VBABuffSize) ->
      item cbuf cend 0 fb bi s = Panic).
Proof.
  intros (Hs0 & Hs1 & Hs2) Hc Hb Hs length offset.
  pose proof (tokenFields_bounds (le16 t0 t1) (dSize s) 0 (le16_range t0 t1)
                ltac:(lia) ltac:(unfold VBABuffSize in *; lia)) as [Hl Ho].
  fold length in Hl. fold offset in Ho.
  rewrite (item_token _ _ _ _ _ _ t0 t1) by done. fold length offset.
  split; [lia|]. split; [lia|]. split.
  - intros [H1 H2].
    destruct (copyLoop_ok (Z.to_nat length) (dSize s - offset) (dBuf s) (dSize s))
      as (ub & E & Hlu & Ht & _); [lia|lia|].
    rewrite Z2Nat.id in * by lia. rewrite E. cbn [obind fst snd].
    exists ub. split_and!; [done|lia|].
    rewrite Ht. do 2 f_equal. lia.
  - intros Hn.
    destruct (copyLoop (Z.to_nat length) (dSize s - offset) (dBuf s) (dSize s))
      as [r| |] eqn:E; [|done|by apply copyLoop_fuel in E].
    exfalso. apply Hn.
    destruct (copyLoop_Ret_iff (Z.to_nat length) (dSize s - offset) (dBuf s) (dSize s))
      as [Hiff _]; [lia|lia|lia|].
    destruct Hiff as [? ?]; [eauto|]. lia.
Qed.

(** C3 at the token [07 00] behind one literal. *)
Lemma copy_token_window_witness :
  dwf 0 atToken
  /\ exists ub,
       item [x03; xb0; x02; x41; x07; x00] 6 0 x02 1 atToken = Ret (mkD 6 ub 11)
       /\ take 11 ub = lzExtend 10 1 [x41].
Proof.
  assert (Hw : dwf 0 atToken).
  { unfold dwf, atToken, len, VBABuffSize. cbn [dSize dBuf length]. rewrite length_replicate. lia. }
  split; [exact Hw|].
  destruct (copy_token_window [x03; xb0; x02; x41; x07; x00] 6 x02 1 atToken x07 x00 Hw)
    as (_ & _ & H & _).
  - vm_compute. reflexivity.
  - vm_compute. discriminate.
  - vm_compute. reflexivity.
  - destruct H as (ub & E & _ & Ht).
    + vm_compute. split; discriminate.
    + exists ub. split; [exact E|exact Ht].
Defined.

(** ** C4: too few bytes for the chunk *)

(** Against C4 as stated.  Behind the signature [01 ff 0f 00 Attribut] the
    header 0x0FFF declares 4098 bytes, of which 12 are there after one more
    byte; the write fails with the signature error, and so does every
    further decode attempt. *)
Lemma bad_signature_precedes_insufficient_data :
  exists st n,
    Write fresh ([x01; xff; x0f; x00] ++ attribut ++ [x00])
      = Ret (st, (n, Some ErrChunkSignature))
    /\ cSize st = 12 /\ headerWord (pending st) = Some 0x0FFF
    /\ chunkSize 0x0FFF = 4098
    /\ uncompressChunk st = Ret (st, (0, Some ErrChunkSignature)).
Proof. eexists _, _. split; [vm_compute; reflexivity|]. split_and!; vm_compute; reflexivity. Qed.

(** Claim C4, as the code has it.  The signature bits are tested first.
    When they are 0b011 and the accumulation buffer holds fewer bytes than
    the header declares, the decode attempt takes nothing, produces nothing
    and reports no error, and [uncompress] leaves the sink, the buffer and
    its fill level as they are. *)
Theorem insufficient_data_waits {W : Type} `{!Writer W} (st : VBAWriter W) h :
  headerOf (compressedBuffer st) = Ret h -> chunkSignature h = 3 ->
  cSize st < chunkSize h ->
  uncompressChunk st = Ret (set_uSize 0 st, (0, None))
  /\ exists st', uncompress st = Ret (st', (0, None))
       /\ wr st' = wr st /\ compressedBuffer st' = compressedBuffer st
       /\ cSize st' = cSize st /\ (0 < cSize st -> uSize st' = 0).
Proof.
  intros Hh Hs Hc. pose proof (uncompressChunk_insufficient st h Hh Hs Hc) as E.
  split; [done|]. destruct (Z.leb_spec (cSize st) 0) as [H0|H0].
  - exists st. unfold uncompress. rewrite uncompressLoop_done by done.
    split_and!; try done. lia.
  - exists (set_uSize 0 st). rewrite uncompress_unfold, uncompressLoop_step by done.
    rewrite E. cbn [obind Z.eqb]. done.
Qed.

(** C4 with three bytes of a chunk of six. *)
Lemma insufficient_data_waits_witness :
  cSize (loaded [x03; xb0; x02]) < chunkSize 0xB003
  /\ uncompressChunk (loaded [x03; xb0; x02])
     = Ret (set_uSize 0 (loaded [x03; xb0; x02]), (0, None)).
Proof.
  assert (H : cSize (loaded [x03; xb0; x02]) < chunkSize 0xB003) by (vm_compute; reflexivity).
  split; [exact H|].
  apply (insufficient_data_waits (loaded [x03; xb0; x02]) 0xB003); [..|exact H].
  - vm_compute. reflexivity.
  - vm_compute. reflexivity.
Defined.

(** ** C5: literals, then a copy token *)

(** Claim C5.  A chunk with the compressed flag 1 that holds the literals
    [lits] and then one copy token decodes to [lits] followed by [tlen]
    bytes, each the byte [toff] positions before it in the output, so that
    a byte the copy has written is a source for the bytes behind it.  With
    the offset 1 the output is [lits] and [tlen] times its last byte: one
    literal and a token of length 10 give that byte eleven times, ten of
    them from the token. *)
Theorem literal_run_then_copy (h0 h1 : byte) (lits : list byte) (t0 t1 : byte) :
  let c := h0 :: h1 :: runThenToken lits t0 t1 in
  let h := le16 h0 h1 in
  chunkSignature h = 3 -> chunkFlag h = 1 -> chunkSize h = len c ->
  let k := len lits in
  let tlen := fst (tokenFields (le16 t0 t1) k 0) in
  let toff := snd (tokenFields (le16 t0 t1) k 0) in
  toff <= k -> k + tlen <= VBABuffSize ->
  let out := lzExtend (Z.to_nat tlen) (Z.to_nat toff) lits in
  chunkOut c = Some out
  /\ (forall st t, WF st -> pending st = c ++ t ->
        exists st', uncompressChunk st = Ret (st', (len c, None))
          /\ uSize st' = k + tlen
          /\ take (Z.to_nat (uSize st')) (uncompressedBuffer st') = out)
  /\ len out = k + tlen
  /\ take (length lits) out = lits
  /\ (forall i : nat, Z.of_nat i < tlen ->
        out !! (length lits + i)%nat = out !! (length lits + i - Z.to_nat toff)%nat)
  /\ (forall pre b, lits = pre ++ [b] -> toff = 1 ->
        out = lits ++ replicate (Z.to_nat tlen) b).
Proof.
  intros c h Hs Hf Hz k tlen toff Ho Hk out.
  pose proof (chunkSize_range h) as Hr.
  pose proof (tokenFields_fst_nonneg (le16 t0 t1) k 0) as Hn. fold tlen in Hn.
  pose proof (len_nonneg lits) as Hk0. fold k in Hk0.
  assert (Hb : 3 <= tlen /\ 1 <= toff).
  { pose proof (tokenFields_bounds (le16 t0 t1) k 0 (le16_range t0 t1)) as Hb.
    unfold tlen, toff. destruct Hb; [lia|unfold VBABuffSize in *; lia|]. lia. }
  assert (Hout : chunkOut c = Some out).
  { unfold chunkOut.
    rewrite (uncompressChunk_compressed _ h);
      [|by apply loaded_header|done|unfold loaded; cbn [cSize]; lia|lia].
    set (cb := compressedBuffer (loaded c)).
    set (ub0 := uncompressedBuffer (set_uSize 0 (loaded c))).
    destruct (chunkLoop_run t0 t1 cb (chunkSize h) lits (Z.to_nat (chunkSize h - 2))
                (mkD 2 ub0 0)) as (ub & E & Hl & Ht); cbn [dCur dSize dBuf].
    - assert (Hub0 : len ub0 = VBABuffSize).
      { unfold ub0, loaded, len. cbn [uncompressedBuffer set_uSize].
        rewrite length_replicate. unfold VBABuffSize. lia. }
      unfold dwf. cbn [dSize dBuf]. rewrite Hub0. unfold VBABuffSize. lia.
    - lia.
    - assert (Ecb : cb = [h0; h1] ++ (runThenToken lits t0 t1
                       ++ replicate (Z.to_nat VBABuffSize - length c) x00)) by reflexivity.
      unfold seg. rewrite Ecb. change (Z.to_nat 2) with 2%nat.
      rewrite (drop_app_length' [h0; h1]) by done. by rewrite take_app_length.
    - rewrite Hz. unfold c, len. cbn [length]. lia.
    - lia.
    - rewrite Z.add_0_l. done.
    - rewrite Z.add_0_l. done.
    - rewrite Z.add_0_l in E, Ht. fold k tlen toff in E, Ht.
      unfold ub0 in E. cbn [uncompressedBuffer set_uSize] in E.
      fold cb. rewrite E. cbn [obind dCur dSize dBuf uSize uncompressedBuffer
        set_uSize set_uncompressedBuffer].
      rewrite Hz, Z.eqb_refl. f_equal. rewrite Ht. change (Z.to_nat 0) with 0%nat.
      rewrite take_0. done. }
  split; [exact Hout|].
  assert (Hspec := lzExtend_spec (Z.to_nat tlen) (Z.to_nat toff) lits).
  destruct Hspec as (Hl & Ht & Hi).
  { unfold k, len in *. clear -Ho Hb. clearbody toff tlen. lia. }
  fold out in Hl, Ht, Hi.
  assert (Hlo : len out = k + tlen).
  { unfold k, len in *. clear -Hl Hn. clearbody out tlen. lia. }
  split; [|split; [exact Hlo|split; [exact Ht|split]]].
  - intros st t Hwf Hp.
    destruct (uncompressChunk_valid st c t out Hwf Hp) as (ub & E & Hlu & Htk).
    { exists h. split_and!; done. }
    eexists. split; [exact E|]. cbn [uSize uncompressedBuffer set_uSize set_uncompressedBuffer].
    split; [exact Hlo|exact Htk].
  - intros i Hi'. apply Hi. clear -Hi' Hn. clearbody tlen. lia.
  - intros pre b -> H1. unfold out. rewrite H1. change (Z.to_nat 1) with 1%nat.
    rewrite lzExtend_repeat. by rewrite app_assoc.
Qed.

(** C5 at the chunk [03 b0 02 41 07 00]: one literal, then length 10 at
    offset 1. *)
Lemma literal_run_then_copy_witness :
  runThenToken [x41] x07 x00 = [x02; x41; x07; x00]
  /\ tokenFields (le16 x07 x00) 1 0 = (10, 1)
  /\ chunkOut [x03; xb0; x02; x41; x07; x00] = Some (x41 :: replicate 10 x41).
Proof.
  split; [reflexivity|]. split; [vm_compute; reflexivity|].
  destruct (literal_run_then_copy x03 xb0 [x41] x07 x00) as (H & _).
  - vm_compute. reflexivity.
  - vm_compute. reflexivity.
  - vm_compute. reflexivity.
  - vm_compute. discriminate.
  - vm_compute. discriminate.
  - exact H.
Defined.

(** ** C6: raw chunks *)

(** Claim C6.  For a chunk with the compressed flag 0: when the declared
    size is not 4098 the decode fails with the size error, and so does
    [uncompress]; otherwise 4098 bytes are consumed and the 4096 bytes
    behind the header are the output, unchanged, which [uncompress] hands
    to the sink. *)
Theorem raw_chunk_identity (st : VBAWriter Log) h :
  len (compressedBuffer st) = VBABuffSize -> len (uncompressedBuffer st) = VBABuffSize ->
  headerOf (compressedBuffer st) = Ret h -> chunkSignature h = 3 -> chunkFlag h = 0 ->
  chunkSize h <= cSize st <= VBABuffSize ->
  (chunkSize h <> 4098 ->
     uncompressChunk st = Ret (set_uSize 0 st, (0, Some ErrChunkSize))
     /\ uncompress st = Ret (set_uSize 0 st, (0, Some ErrChunkSize)))
  /\ (chunkSize h = 4098 ->
      exists st1 st2,
        uncompressChunk st = Ret (st1, (4098, None))
        /\ uSize st1 = 4096
        /\ take 4096 (uncompressedBuffer st1) = take 4096 (drop 2 (compressedBuffer st))
        /\ uncompress st = Ret (st2, (4098, None))
        /\ wr st2 = wr st ++ [take 4096 (drop 2 (compressedBuffer st))]
        /\ cSize st2 = 0).
Proof.
  intros Hlc Hlu Hh Hs Hf Hc. pose proof (chunkSize_range h) as Hr. split.
  - intros Hz. pose proof (uncompressChunk_raw_size st h Hh Hs ltac:(lia) Hf Hz) as E.
    split; [done|]. rewrite uncompress_unfold, uncompressLoop_step by lia.
    rewrite E. done.
  - intros Hz.
    destruct (uncompressChunk_raw_ex st h) as (ub & E & Hl & Ht); try done; [lia|].
    assert (Hcs : cSize st = 4098) by (unfold VBABuffSize in *; lia).
    eexists _, _. split; [exact E|]. split; [done|]. split; [exact Ht|].
    rewrite uncompress_unfold, uncompressLoop_step by lia.
    rewrite E. cbn [obind Z.eqb].
    rewrite flushChunk_log;
      cbn [uSize set_uSize set_uncompressedBuffer uncompressedBuffer cSize
           compressedBuffer wr marker_cur marker_found];
      [|unfold VBABuffSize in *; lia..].
    rewrite uncompressLoop_done by (cbn; lia).
    change (Z.to_nat 4096) with 4096%nat. rewrite Ht.
    split_and!; [done| |cbn; lia]. cbn [wr]. f_equal.
    unfold flushes. cbn [filter list_filter]. destruct (decide _) as [|Hn]; [done|].
    exfalso. apply Hn. intros Hnil.
    assert (Hl0 : length (take 4096 (drop 2 (compressedBuffer st))) = 0%nat) by (by rewrite Hnil).
    rewrite length_take, length_drop in Hl0. unfold len, VBABuffSize in *. lia.
Qed.

(** C6 at [rawChunk]. *)
Lemma raw_chunk_identity_witness :
  headerOf (compressedBuffer (loaded rawChunk)) = Ret 0x3FFF
  /\ chunkSize 0x3FFF = 4098
  /\ exists st2,
       uncompress (loaded rawChunk) = Ret (st2, (4098, None))
       /\ wr st2 = [take 4096 (drop 2 (compressedBuffer (loaded rawChunk)))]
       /\ cSize st2 = 0.
Proof.
  assert (Hh : headerOf (compressedBuffer (loaded rawChunk)) = Ret 0x3FFF)
    by (vm_compute; reflexivity).
  split; [exact Hh|]. split; [vm_compute; reflexivity|].
  destruct (raw_chunk_identity (loaded rawChunk) 0x3FFF) as [_ H]; try exact Hh.
  - vm_compute. reflexivity.
  - vm_compute. reflexivity.
  - vm_compute. reflexivity.
  - vm_compute. reflexivity.
  - vm_compute. split; discriminate.
  - destruct H as (st1 & st2 & _ & _ & _ & E & Hw & Hc); [vm_compute; reflexivity|].
    exists st2. split; [exact E|]. split; [exact Hw|exact Hc].
Defined.

(** ** C7: what the carver keeps *)

(** Against C7 as stated.  One byte 0x01 before the signature of [demo]:
    the carver takes the 0x01 of the signature for a wildcard, gives up at
    the fourth byte and does not find the signature; nothing is written,
    where [demo] alone gives its two chunks.  And the bytes [61 62] behind
    a 0x01 are held in the accumulation buffer between two calls, although
    the signature that is confirmed in the second call lies behind them. *)
Lemma marker_byte_in_garbage_hides_signature :
  (exists st1 st2 n1 n2,
     Write fresh demo = Ret (st1, (n1, None)) /\ wr st1 = [attribut; [x41; x41; x41; x41]]
     /\ Write fresh ([x01] ++ demo) = Ret (st2, (n2, None)) /\ wr st2 = []
     /\ marker_found st2 = false)
  /\ (exists st n st' n',
        Write fresh [x01; x61; x62] = Ret (st, (n, None))
        /\ pending st = [x61; x62]
        /\ Write st ([x63] ++ demo) = Ret (st', (n', None))
        /\ marker_found st' = true /\ wr st' = [attribut; [x41; x41; x41; x41]]).
Proof.
  split.
  - eexists _, _, _, _. split; [vm_compute; reflexivity|].
    split; [vm_compute; reflexivity|]. split; [vm_compute; reflexivity|].
    split; vm_compute; reflexivity.
  - eexists _, _, _, _. split; [vm_compute; reflexivity|].
    split; [vm_compute; reflexivity|]. split; [vm_compute; reflexivity|].
    split; vm_compute; reflexivity.
Qed.

(** Claim C7, as the code has it.  When the signature is confirmed the
    accumulation buffer holds the eleven bytes behind its 0x01 and nothing
    else, nothing has been written to the sink, and the call behaves as on
    the stream that starts at the 0x01.  While the carver is still looking,
    nothing is written and the bytes held are those behind the 0x01 of the
    candidate it is matching, never that 0x01 itself.  Garbage after which
    the carver is at rest, such as garbage without a byte 0x01, changes
    neither the output nor the bytes held when it is put before a stream. *)
Theorem carver_keeps_signature_only :
  (forall s stc off, carvVBA fresh s = Ret (stc, (off, true)) ->
     exists pre m11 post,
       s = pre ++ x01 :: m11 ++ post /\ quiet pre /\ off = len pre + 12
       /\ pending stc = m11 /\ len m11 = 11 /\ wr stc = []
       /\ observe (Write fresh s) = observe (Write fresh (x01 :: m11 ++ post)))
  /\ (forall s st, carvVBA fresh s = Ret (st, (0, false)) ->
        wr st = [] /\ (marker_cur st = 0 -> pending st = [])
        /\ exists pre m, s = pre ++ m /\ len m = marker_cur st /\ quiet pre
             /\ (1 <= marker_cur st -> m = x01 :: pending st))
  /\ (forall g s, quiet g -> observe (Write fresh (g ++ s)) = observe (Write fresh s))
  /\ (forall g, Forall (fun b => b <> x01) g -> quiet g).
Proof.
  split_and!.
  - intros s stc off E.
    destruct (carved_signature s stc off E) as (pre & m11 & post & Es & Hq & ? & ? & ? & ? & _).
    exists pre, m11, post. split_and!; try done.
    rewrite Es. by apply Write_quiet.
  - intros s st E. unfold carvVBA in E.
    destruct (carvLoop_CI fresh 0 s fresh_CI)
      as [(st' & E' & Hci & Hw & _)|(st' & j & E' & _)]; rewrite E' in E; [|done].
    injection E as <-. split; [done|]. split.
    + intros H0. unfold pending. rewrite (ci_cSize _ Hci), H0. done.
    + pose proof (carvLoop_held_all s fresh [] 0 st' fresh_CI held_fresh E') as [_ H].
      exact H.
  - intros g s. apply Write_quiet.
  - intros g. apply quiet_no01.
Qed.

(** C7 with the garbage "garbage" before [demo]. *)
Lemma carver_keeps_signature_only_witness :
  quiet [x67; x61; x72; x62; x61; x67; x65]
  /\ observe (Write fresh ([x67; x61; x72; x62; x61; x67; x65] ++ demo))
     = observe (Write fresh demo).
Proof.
  destruct carver_keeps_signature_only as (_ & _ & H1 & H2).
  assert (Hq : quiet [x67; x61; x72; x62; x61; x67; x65]).
  { apply H2. repeat constructor; discriminate. }
  split; [exact Hq|]. apply H1. exact Hq.
Defined.

(** ** C8: one byte per write *)

(** Claim C8.  A valid stream written one byte per call leaves the same
    output in the sink as the stream written in one call, and the same
    bytes held, cursor and flag of the carver: the state of the carver and
    of the buffers carries over from call to call, also when the signature
    lies across calls. *)
Theorem one_byte_writes_same_output (s : list byte) :
  validStream s ->
  exists st1 st2 n,
    Write fresh s = Ret (st1, (len s, None))
    /\ writeAll fresh (map (fun b => [b]) s) = Ret (st2, (n, None))
    /\ wr st1 = wr st2 /\ pending st1 = pending st2
    /\ marker_cur st1 = marker_cur st2 /\ marker_found st1 = marker_found st2.
Proof.
  intros Hv. rewrite <- (concat_singletons s) in Hv.
  destruct (any_split_same_output _ Hv) as (st1 & st2 & n & E1 & E2 & H).
  rewrite concat_singletons in E1. by exists st1, st2, n.
Qed.

(** C8 at [demo]. *)
Lemma one_byte_writes_same_output_witness :
  validStream demo
  /\ exists st1 st2 n,
       Write fresh demo = Ret (st1, (len demo, None))
       /\ writeAll fresh (map (fun b => [b]) demo) = Ret (st2, (n, None))
       /\ wr st1 = wr st2 /\ pending st1 = pending st2
       /\ marker_cur st1 = marker_cur st2 /\ marker_found st1 = marker_found st2.
Proof.
  split; [exact demo_valid|]. apply (one_byte_writes_same_output demo). exact demo_valid.
Defined.

(** ** C9: wrong signature bits *)

(** Claim C9.  When the header at the front of the accumulation buffer has
    signature bits other than 0b011, the decode attempt, [uncompress] and
    [Write] return the signature error, and no chunk is decoded from then
    on: whatever is written later, the sink stays as it is. *)
Theorem bad_signature_is_fatal (st : VBAWriter Log) h :
  WF st -> headerWord (pending st) = Some h -> chunkSignature h <> 3 ->
  uncompressChunk st = Ret (set_uSize 0 st, (0, Some ErrChunkSignature))
  /\ uncompress st = Ret (set_uSize 0 st, (0, Some ErrChunkSignature))
  /\ (forall b, b <> [] ->
        exists st', Write st b = Ret (st', (0, Some ErrChunkSignature))
          /\ wr st' = wr st)
  /\ (forall ws, exists st', writeOn st ws = Ret st' /\ wr st' = wr st).
Proof.
  intros Hwf Hh Hs. assert (Hbad : badHeader st) by (split; [done|by exists h]).
  destruct (badHeader_uncompress st Hbad) as [E1 E2]. split_and!; try done.
  - intros b Hb. destruct (badHeader_Write st b Hbad Hb) as (st' & ? & ? & _). by exists st'.
  - intros ws. destruct (badHeader_writeOn ws st Hbad) as (st' & ? & ? & _). by exists st'.
Qed.

(** C9 at a header of zeros. *)
Lemma bad_signature_is_fatal_witness :
  chunkSignature 0 <> 3
  /\ uncompress (loaded [x00; x00; x00])
     = Ret (set_uSize 0 (loaded [x00; x00; x00]), (0, Some ErrChunkSignature)).
Proof.
  assert (Hs : chunkSignature 0 <> 3) by (vm_compute; discriminate).
  split; [exact Hs|].
  destruct (bad_signature_is_fatal (loaded [x00; x00; x00]) 0) as (_ & H & _).
  - apply loaded_WF. vm_compute. split; discriminate.
  - vm_compute. reflexivity.
  - exact Hs.
  - exact H.
Defined.

(** ** C10: every chunk is written once *)




(** * Further properties of the code *)

(** ** What uncompress takes from the accumulation buffer *)

Lemma uncompressLoop_drop fuel : forall (st : VBAWriter Log) total st' n,
  Bounded st -> uncompressLoop fuel st total = Ret (st', (n, None)) ->
  total <= n /\ cSize st' = cSize st - (n - total)
  /\ pending st' = drop (Z.to_nat (n - total)) (pending st)
  /\ exists blocks, wr st' = wr st ++ blocks /\ Forall block blocks.
Proof.
  induction fuel as [|fuel IH]; intros st total st' n Hb H.
  { cbn [uncompressLoop] in H. destruct (_ >? _); [done|]. injection H as <- <-.
    rewrite Z.sub_diag. split_and!; [lia|lia|done|]. exists []. by rewrite app_nil_r. }
  destruct (Z.leb_spec (cSize st) 0) as [Hz|Hz].
  { rewrite uncompressLoop_done in H by done. injection H as <- <-.
    rewrite Z.sub_diag. split_and!; [lia|lia|done|]. exists []. by rewrite app_nil_r. }
  rewrite uncompressLoop_step in H by done. pose proof Hb as (Hc & Hu & Hs).
  destruct (uncompressChunk st) as [[st1 [p [e|]]]| |] eqn:E; cbn [obind] in H; try done.
  pose proof (uncompressChunk_frame _ _ _ _ E) as (Fw & F1 & F2 & _).
  destruct (Z.eqb_spec p 0) as [->|Hp].
  { injection H as <- <-. apply uncompressChunk_zero in E as [-> _]; [|done].
    rewrite Z.sub_diag. split_and!; [lia|cbn; lia|done|]. exists []. by rewrite app_nil_r. }
  destruct (headerOf (compressedBuffer st)) as [h| |] eqn:Eh;
    [|unfold uncompressChunk in E; rewrite Eh in E; discriminate..].
  destruct (uncompressChunk_Ret st st1 p h Hu Eh E Hp) as (_ & ? & ? & Hus & Hu1 & _).
  pose proof (chunkSize_range h).
  assert (Hb1 : Bounded st1) by (unfold Bounded; rewrite F1, F2; done).
  destruct (flushChunk st1 (total + p) p) as [r|st2] eqn:Ef.
  { apply flushChunk_inl in Ef as [_ Hr]. subst r. exfalso. by eapply Hr. }
  pose proof Ef as Ef'. apply flushChunk_inr in Ef' as [Hb2 E2]; [|done|lia].
  destruct Hb2 as (_ & _ & Hs2).
  rewrite flushChunk_log in Ef by (rewrite ?F1, ?F2, ?Hu1; lia). injection Ef as Est2.
  destruct (IH st2 (total + p) st' n) as (Hn & Hcs & Hpd & blocks & Hw & Hbl); [|done|].
  { subst st2. unfold Bounded. cbn [compressedBuffer uncompressedBuffer cSize].
    rewrite len_shifted by (rewrite ?F1, ?F2; lia). rewrite F1, F2. split_and!; (done || lia). }
  assert (Hp2 : pending st2 = drop (Z.to_nat p) (pending st)).
  { subst st2. unfold pending at 1. cbn [cSize compressedBuffer].
    rewrite pending_shifted by (rewrite ?F1, ?F2; lia). unfold pending. by rewrite F1, F2. }
  split_and!; [lia|lia| |].
  - rewrite Hpd, Hp2, drop_drop. f_equal. lia.
  - exists (flushes [take (Z.to_nat (uSize st1)) (uncompressedBuffer st1)] ++ blocks).
    split.
    + rewrite Hw. subst st2. cbn [wr]. rewrite Fw. by rewrite app_assoc.
    + apply Forall_app. split; [|done]. unfold flushes. cbn [filter list_filter].
      destruct (decide _) as [Hne|]; [|constructor]. constructor; [|constructor].
      unfold block.
      assert (len (take (Z.to_nat (uSize st1)) (uncompressedBuffer st1)) = uSize st1).
      { unfold len in *. rewrite length_take. lia. }
      assert (len (take (Z.to_nat (uSize st1)) (uncompressedBuffer st1)) <> 0).
      { intros Hz0. apply Hne. apply nil_length_inv. unfold len in Hz0. lia. }
      lia.
Qed.

(** X1.  When [uncompress] returns without error, the count it returns is
    the number of bytes it has taken from the front of the accumulation
    buffer: the bytes held afterwards are the old ones without their first
    [n], the buffer is not full, and the sink has grown by blocks of 1 to
    4098 bytes. *)
Theorem uncompress_takes_what_it_counts (st st' : VBAWriter Log) n :
  Bounded st -> uncompress st = Ret (st', (n, None)) ->
  0 <= n <= cSize st
  /\ cSize st' = cSize st - n /\ cSize st' < VBABuffSize
  /\ pending st' = drop (Z.to_nat n) (pending st)
  /\ exists blocks, wr st' = wr st ++ blocks /\ Forall block blocks.
Proof.
  intros Hb H. destruct (uncompress_total st Hb) as [_ Hroom].
  destruct (Hroom _ _ H) as [(_ & _ & Hs') Hlt].
  apply uncompressLoop_drop in H as (Hn & Hcs & Hp & Hw); [|done].
  rewrite Z.sub_0_r in Hcs, Hp. split_and!; try done; lia.
Qed.

(** X1 on a chunk of six bytes and one byte of the next. *)
Lemma uncompress_takes_what_it_counts_witness :
  exists st',
    uncompress (loaded [x03; xb0; x02; x41; x07; x00; x05]) = Ret (st', (6, None))
    /\ cSize st' = 1 /\ pending st' = [x05]
    /\ wr st' = [x41 :: replicate 10 x41].
Proof.
  assert (E : exists st',
    uncompress (loaded [x03; xb0; x02; x41; x07; x00; x05]) = Ret (st', (6, None))
    /\ wr st' = [x41 :: replicate 10 x41]).
  { eexists. split; vm_compute; reflexivity. }
  destruct E as (st' & E & Hw). exists st'. split; [exact E|].
  destruct (uncompress_takes_what_it_counts
              (loaded [x03; xb0; x02; x41; x07; x00; x05]) st' 6)
    as (_ & Hc & _ & Hp & _).
  - unfold Bounded. vm_compute. repeat split; discriminate.
  - exact E.
  - split; [exact Hc|]. split; [exact Hp|exact Hw].
Defined.

(** ** Write: termination, bounds and the count *)

Section WriteCount.
Context {W : Type} `{!Writer W}.
Implicit Type st : VBAWriter W.

Lemma writeLoop_count fuel : forall st b offset ba va total st' n,
  writeLoop fuel st b offset ba va total = Ret (st', (n, None)) -> n = len b.
Proof.
  induction fuel as [|fuel IH]; intros st b offset ba va total st' n H.
  { cbn [writeLoop] in H. destruct (_ >? _); [done|]. by injection H as _ <-. }
  cbn [writeLoop] in H. destruct (_ >? _); [|by injection H as _ <-].
  destruct (fill _ _ _ _ _) as [[st1 o1]| |]; cbn [obind] in H; try done.
  destruct (uncompress st1) as [[st2 [p [e|]]]| |]; cbn [obind] in H; try done.
  by eapply IH.
Qed.

(** X2.  On a writer whose buffers have their size, [Write] comes to an
    end, leaves the buffers at their size and [cSize] within them, and
    returns [len b] whenever it returns no error. *)
Theorem Write_ends_within_bounds st b :
  Bounded st ->
  Write st b <> OutOfFuel
  /\ forall st' n e, Write st b = Ret (st', (n, e)) ->
       Bounded st' /\ (e = None -> n = len b).
Proof.
  intros Hb. split; [by apply Write_total|]. intros st' n e H.
  split; [by eapply Write_Bounded|]. intros ->.
  unfold Write, writeBody in H. destruct (negb _).
  - destruct (carvVBA st b) as [[st1 [off [|]]]| |]; cbn [obind negb] in H; try done.
    + by eapply writeLoop_count.
    + by injection H as _ <-.
  - by eapply writeLoop_count.
Qed.
End WriteCount.

(** X2 on [demo]. *)
Lemma Write_ends_within_bounds_witness :
  exists st', Write fresh demo = Ret (st', (len demo, None)) /\ Bounded st'.
Proof.
  assert (E : exists st' n, Write fresh demo = Ret (st', (n, None)))
    by (eexists _, _; vm_compute; reflexivity).
  destruct E as (st' & n & E).
  destruct (Write_ends_within_bounds fresh demo (NewWriter_Bounded [])) as [_ H].
  destruct (H st' n None E) as [Hb Hn]. rewrite (Hn eq_refl) in E.
  exists st'. split; [exact E|exact Hb].
Defined.

(** ** The carver on any input *)

Section CarverRuns.
Context {W : Type} `{!Writer W}.
Implicit Type st : VBAWriter W.

(** X3.  On a writer that is still looking for the signature, [carvVBA]
    never panics.  Either it goes through the whole input: then it
    reports [(0, false)], the sink is untouched and [Write] returns
    [len b] without error; or it stops right behind the signature, at
    an offset within the input, with the eleven bytes behind the 0x01
    in the buffer, and [Write] goes on with the bytes from there. *)
Theorem carvVBA_never_panics st b :
  CI st ->
  (exists st', carvVBA st b = Ret (st', (0, false)) /\ CI st'
     /\ wr st' = wr st /\ uncompressedBuffer st' = uncompressedBuffer st
     /\ Write st b = Ret (st', (len b, None)))
  \/ (exists st' off, carvVBA st b = Ret (st', (off, true))
        /\ 0 < off <= len b /\ marker_found st' = true /\ cSize st' = 11
        /\ wr st' = wr st /\ uncompressedBuffer st' = uncompressedBuffer st
        /\ Write st b = writeBody st' b off).
Proof.
  intros Hci. unfold Write. rewrite (ci_found _ Hci). cbn [negb].
  destruct (carvLoop_CI st 0 b Hci)
    as [(st' & E & ? & ? & ?)|(st' & j & E & ? & ? & ? & ? & ? & ?)];
    fold (carvVBA st b) in E; rewrite E; cbn [obind negb]; [left|right].
  - exists st'. done.
  - exists st', j. split_and!; (done || lia).
Qed.

End CarverRuns.

(** X3 on input with two candidates and no signature. *)
Lemma carvVBA_never_panics_witness :
  exists st', carvVBA fresh [x01; x61; x62; x63; x01] = Ret (st', (0, false))
    /\ marker_cur st' = 1 /\ wr st' = []
    /\ Write fresh [x01; x61; x62; x63; x01] = Ret (st', (5, None)).
Proof.
  destruct (carvVBA_never_panics fresh [x01; x61; x62; x63; x01] fresh_CI)
    as [(st' & E & _ & Hw & _ & EW)|(st' & off & E & _)].
  - exists st'. split; [exact E|].
    assert (E' : carvVBA fresh [x01; x61; x62; x63; x01] = Ret (st', (0, false))) by exact E.
    vm_compute in E'. injection E' as <-. split; [reflexivity|]. split; [exact Hw|exact EW].
  - exfalso. vm_compute in E. discriminate E.
Defined.

(** ** What a chunk decode touches *)

Section ChunkFrame.
Context {W : Type} `{!Writer W}.
Implicit Type st : VBAWriter W.

Lemma uncompressChunk_error st st' n e :
  uncompressChunk st = Ret (st', (n, Some e)) -> n = 0 /\ st' = set_uSize 0 st.
Proof.
  unfold uncompressChunk.
  destruct (headerOf _) as [h| |]; cbn [obind]; try done.
  destruct (negb _); [by intros [= <- <-]|].
  destruct (_ >? _); [done|].
  destruct (_ =? 0).
  - destruct (negb _); [by intros [= <- <-]|].
    destruct (slice _ _ _); cbn [obind]; try done.
    destruct (copy_into _ _ _ _); cbn [obind]; done.
  - destruct (chunkLoop _ _ _ _ _); cbn [obind]; done.
Qed.

Lemma uncompressChunk_bounds st st' n e :
  len (uncompressedBuffer st) = VBABuffSize ->
  uncompressChunk st = Ret (st', (n, e)) ->
  len (uncompressedBuffer st') = VBABuffSize
  /\ 0 <= uSize st' <= VBABuffSize
  /\ (n <> 0 -> e = None /\ 3 <= n <= cSize st + 1).
Proof.
  intros Hlu H. destruct e as [e|].
  - apply uncompressChunk_error in H as [-> ->]. cbn. unfold VBABuffSize. split_and!; (done || lia).
  - destruct (Z.eq_dec n 0) as [->|Hn].
    + apply uncompressChunk_zero in H as [-> _]; [|done].
      cbn. unfold VBABuffSize. split_and!; (done || lia).
    + destruct (headerOf (compressedBuffer st)) as [h| |] eqn:Eh;
        [|unfold uncompressChunk in H; rewrite Eh in H; discriminate..].
      destruct (uncompressChunk_Ret st st' n h Hlu Eh H Hn) as (_ & ? & ? & ? & ? & _).
      pose proof (chunkSize_range h).
      split; [done|]. split; [done|]. intros _. split; [done|lia].
Qed.

(** X4.  A chunk decode touches nothing but the output buffer and its
    fill level: the sink, the accumulation buffer, [cSize] and the state
    of the carver are as before.  At most 4098 bytes are produced.  An
    error or a count of 0 leaves the writer as it was with [uSize] 0;
    a count other than 0 comes without error and lies between 3 and
    [cSize + 1]. *)
Theorem uncompressChunk_touches_only_output st st' n e :
  len (uncompressedBuffer st) = VBABuffSize ->
  uncompressChunk st = Ret (st', (n, e)) ->
  wr st' = wr st /\ compressedBuffer st' = compressedBuffer st
  /\ cSize st' = cSize st /\ marker_cur st' = marker_cur st
  /\ marker_found st' = marker_found st
  /\ len (uncompressedBuffer st') = VBABuffSize
  /\ 0 <= uSize st' <= VBABuffSize
  /\ ((n = 0 \/ e <> None) -> n = 0 /\ st' = set_uSize 0 st)
  /\ (n <> 0 -> e = None /\ 3 <= n <= cSize st + 1).
Proof.
  intros Hlu H.
  pose proof (uncompressChunk_frame _ _ _ _ H) as (F1 & F2 & F3 & F4 & F5).
  pose proof (uncompressChunk_bounds _ _ _ _ Hlu H) as (B1 & B2 & B3).
  do 7 (split; [done|]). split; [|done].
  intros Hne. destruct e as [e|]; [by eapply uncompressChunk_error|].
  destruct Hne as [->|]; [|done]. apply uncompressChunk_zero in H as [-> _]; done.
Qed.
End ChunkFrame.

(** X4 at the chunk [03 b0 02 41 07 00]. *)
Lemma uncompressChunk_touches_only_output_witness :
  exists st',
    uncompressChunk (loaded [x03; xb0; x02; x41; x07; x00]) = Ret (st', (6, None))
    /\ wr st' = [] /\ cSize st' = 6 /\ 0 <= uSize st' <= VBABuffSize.
Proof.
  assert (E : exists st',
    uncompressChunk (loaded [x03; xb0; x02; x41; x07; x00]) = Ret (st', (6, None)))
    by (eexists; vm_compute; reflexivity).
  destruct E as [st' E]. exists st'. split; [exact E|].
  destruct (uncompressChunk_touches_only_output
              (loaded [x03; xb0; x02; x41; x07; x00]) st' 6 None)
    as (Hw & _ & Hc & _ & _ & _ & Hu & _); [vm_compute; reflexivity|exact E|].
  split; [exact Hw|]. split; [exact Hc|exact Hu].
Defined.

(** ** The masks of copyTokenHelp *)

(** X5.  [copyTokenHelp] for [difference = current - chunkStart] up to
    4098: with [b = max (ceil (log2 difference)) 4], between 4 and 13, the
    length mask is the low [16 - b] bits, the offset mask the other bits of
    the 16, the two have no bit in common, the [b] offset bits reach back
    over all [difference] bytes, and the maximal length is the length mask
    plus 3, at most 4098. *)
Theorem copyTokenHelp_masks current chunkStart :
  0 <= chunkStart <= current -> current <= 4098 ->
  let d := current - chunkStart in
  let b := Z.max (Z.log2_up d) 4 in
  copyTokenHelp current chunkStart
    = (2 ^ (16 - b) - 1, 65535 - (2 ^ (16 - b) - 1), b, 2 ^ (16 - b) + 2)
  /\ 4 <= b <= 13 /\ d <= 2 ^ b
  /\ Z.land (2 ^ (16 - b) - 1) (65535 - (2 ^ (16 - b) - 1)) = 0
  /\ 2 ^ (16 - b) + 2 <= VBABuffSize.
Proof.
  intros Hs Hc d b.
  destruct (bitCountOf_spec d ltac:(unfold d; lia)) as (Eb & Hr & Hle & _).
  fold b in Eb. rewrite Eb in Hr, Hle.
  assert (E : uint (current - chunkStart) = d).
  { unfold uint, d. rewrite Z.mod_small by lia. done. }
  unfold copyTokenHelp. rewrite E, Eb.
  assert (Hcase : b = 4 \/ b = 5 \/ b = 6 \/ b = 7 \/ b = 8 \/ b = 9 \/ b = 10
                  \/ b = 11 \/ b = 12 \/ b = 13) by lia.
  clearbody b. clear -Hcase Hle Hr.
  destruct Hcase as [->|[->|[->|[->|[->|[->|[->|[->|[->| ->]]]]]]]]];
    (split; [vm_compute; reflexivity|]);
    (split; [lia|]); (split; [exact Hle|]); split; vm_compute; (reflexivity || discriminate).
Qed.

(** X5 at 100 bytes behind the start of the chunk. *)
Lemma copyTokenHelp_masks_witness :
  copyTokenHelp 100 0 = (511, 65024, 7, 514).
Proof.
  destruct (copyTokenHelp_masks 100 0) as (H & _); [lia|lia|]. exact H.
Defined.

(** ** A write cut before the signature is complete *)

(** X6.  A write may be cut anywhere before the signature is complete: if
    the carver goes through [s1] without finding the signature, writing
    [s1] and then [s2] leaves the same sink, bytes held, carver state and
    error as writing [s1 ++ s2] at once, whatever [s2] holds. *)
Theorem cut_before_signature (st st1 : VBAWriter Log) (s1 s2 : list byte) :
  CI st -> carvVBA st s1 = Ret (st1, (0, false)) ->
  observe (Write st (s1 ++ s2)) = observe (Write st1 s2)
  /\ exists n, Write st s1 = Ret (st1, (n, None)).
Proof.
  intros Hci E. unfold carvVBA in E.
  destruct (carvLoop_CI st 0 s1 Hci) as [(st' & E' & Hci1 & _)|(st' & j & E' & _)];
    rewrite E' in E; [|done]. injection E as ->.
  split.
  - unfold Write. rewrite (ci_found _ Hci), (ci_found _ Hci1). cbn [negb].
    unfold carvVBA. rewrite carvLoop_app, E'.
    rewrite (carvLoop_shift st1 0 (len s1)).
    destruct (carvLoop_CI st1 0 s2 Hci1)
      as [(st2 & E2 & _)|(st2 & j & E2 & Hj & _)]; rewrite E2; cbn [shiftOff obind negb].
    + done.
    + rewrite (Z.add_comm j). apply writeBody_shift. lia.
  - exists (len s1). unfold Write. rewrite (ci_found _ Hci). cbn [negb].
    unfold carvVBA. by rewrite E'.
Qed.

(** X6 at [demo], cut inside its signature. *)
Lemma cut_before_signature_witness :
  exists st1,
    carvVBA fresh (take 7 demo) = Ret (st1, (0, false))
    /\ observe (Write fresh (take 7 demo ++ drop 7 demo)) = observe (Write st1 (drop 7 demo)).
Proof.
  assert (E : exists st1, carvVBA fresh (take 7 demo) = Ret (st1, (0, false)))
    by (eexists; vm_compute; reflexivity).
  destruct E as [st1 E]. exists st1. split; [exact E|].
  destruct (cut_before_signature fresh st1 (take 7 demo) (drop 7 demo) fresh_CI E) as [H _].
  exact H.
Defined.

(** ** The carver finds a signature it starts on *)

Section CarverFinds.
Context {W : Type} `{!Writer W}.
Implicit Type st : VBAWriter W.

Lemma carvLoop_cons st i b buff :
  carvLoop st i (b :: buff)
  = (let! st := carvStep st b in
     if marker_cur st =? mlen then Ret (set_marker_found true st, (i + 1, true))
     else carvLoop st (i + 1) buff).
Proof. reflexivity. Qed.

Lemma carvStep_next st b :
  CI st -> 1 <= marker_cur st ->
  (3 <= marker_cur st -> marker !! Z.to_nat (marker_cur st) = Some b) ->
  exists st', carvStep st b = Ret st' /\ carv_step st b st'
    /\ marker_cur st' = marker_cur st + 1 /\ pending st' = pending st ++ [b]
    /\ wr st' = wr st.
Proof.
  intros Hci Hc Hm. destruct (carvStep_CI st b Hci) as (st1 & E & Hstep).
  exists st1. split; [done|]. split; [done|].
  pose proof Hci as [_ Hcur Hcs Hlc _].
  destruct Hstep as [H1 H2 Hne ->| H0 _ ->| _ _ ->]; [|lia|].
  - exfalso. apply Hne, Hm. lia.
  - split_and!; try done. unfold pending.
    cbn [cSize compressedBuffer set_cSize set_marker_cur set_compressedBuffer].
    replace (Z.to_nat (cSize st + 1)) with (S (Z.to_nat (cSize st))) by lia.
    apply take_insert_snoc. unfold len, VBABuffSize in Hlc. lia.
Qed.

Lemma carvLoop_match post : forall m st i,
  CI st -> 1 <= marker_cur st -> m <> [] -> marker_cur st + len m = 12 ->
  (forall (j : nat) b, m !! j = Some b -> 3 <= marker_cur st + Z.of_nat j ->
     marker !! Z.to_nat (marker_cur st + Z.of_nat j) = Some b) ->
  exists st', carvLoop st i (m ++ post) = Ret (st', (i + len m, true))
    /\ pending st' = pending st ++ m /\ wr st' = wr st
    /\ marker_found st' = true.
Proof.
  induction m as [|b m IH]; intros st i Hci Hc Hne Hl Hm; [done|].
  destruct (carvStep_next st b Hci Hc) as (st1 & E & Hstep & Hc1 & Hp1 & Hw1).
  { intros H3. specialize (Hm 0%nat b eq_refl). rewrite Z.add_0_r in Hm. by apply Hm. }
  cbn [app carvLoop]. rewrite E. cbn [obind].
  unfold len in Hl. cbn [length] in Hl.
  destruct m as [|b' m'].
  - cbn [length] in Hl. destruct (Z.eqb_spec (marker_cur st1) mlen) as [_|Hn];
      [|change mlen with 12 in Hn; lia].
    eexists. split; [reflexivity|]. done.
  - destruct (Z.eqb_spec (marker_cur st1) mlen) as [Hn|Hn].
    { change mlen with 12 in Hn. cbn [length] in Hl. lia. }
    destruct (IH st1 (i + 1)) as (st' & E' & Hp' & Hw' & Hf'); try done.
    + by apply (carv_step_CI st b).
    + lia.
    + unfold len. cbn [length] in *. lia.
    + intros j x Hj H3. specialize (Hm (S j) x Hj).
      replace (marker_cur st1 + Z.of_nat j) with (marker_cur st + Z.of_nat (S j)) by lia.
      apply Hm. lia.
    + exists st'. rewrite E'. split_and!.
      * do 3 f_equal. unfold len. cbn [length]. lia.
      * rewrite Hp', Hp1. by rewrite <- app_assoc.
      * congruence.
      * done.
Qed.

(** A carver at rest that meets [01 w1 w2 00 Attribut]. *)
Lemma carvLoop_signature st i w1 w2 post :
  CI st -> marker_cur st = 0 ->
  exists st', carvLoop st i (x01 :: w1 :: w2 :: x00 :: attribut ++ post)
              = Ret (st', (i + 12, true))
    /\ pending st' = w1 :: w2 :: x00 :: attribut /\ wr st' = wr st
    /\ marker_found st' = true.
Proof.
  intros Hci H0. destruct (carvStep_CI st x01 Hci) as (st1 & E & Hstep).
  pose proof Hci as [_ _ Hcs _ _].
  assert (H1 : marker_cur st1 = 1 /\ pending st1 = [] /\ wr st1 = wr st).
  { destruct Hstep as [_ _ Hne ->| _ _ ->| ? _ ->]; [| |lia].
    - exfalso. apply Hne. by rewrite H0.
    - split; [done|]. split; [|done]. unfold pending.
      cbn [cSize set_marker_cur set_compressedBuffer]. by rewrite Hcs, H0. }
  destruct H1 as (Hc1 & Hp1 & Hw1).
  assert (Hci1 : CI st1).
  { apply (carv_step_CI st x01); [done..|]. rewrite Hc1. done. }
  rewrite carvLoop_cons, E. cbn [obind]. rewrite Hc1.
  change (1 =? mlen) with false. cbn iota.
  destruct (carvLoop_match post (w1 :: w2 :: x00 :: attribut) st1 (i + 1))
    as (st' & E' & Hp' & Hw' & Hf'); try done.
  - lia.
  - rewrite Hc1. reflexivity.
  - rewrite Hc1. intros j b Hj H3.
    do 11 (destruct j as [|j];
           [first [lia | vm_compute in Hj; injection Hj as <-; vm_compute; reflexivity]|]).
    done.
  - exists st'. change ((w1 :: w2 :: x00 :: attribut) ++ post)
      with (w1 :: w2 :: x00 :: attribut ++ post) in E'.
    rewrite E'. split_and!; [|by rewrite Hp', Hp1|congruence|done].
    do 3 f_equal. change (len (w1 :: w2 :: x00 :: attribut)) with 11. lia.
Qed.
End CarverFinds.

(** X7.  Behind garbage that leaves the carver at rest, a signature
    [01 w1 w2 00 Attribut] is found where it stands: the carver stops
    right behind it with the eleven bytes from [w1] on in the buffer,
    whatever the two bytes [w1 w2] are, and the container is these eleven
    bytes and what follows. *)
Theorem signature_behind_quiet_garbage (g : list byte) (w1 w2 : byte) (post : list byte) :
  quiet g ->
  exists stc,
    carvVBA fresh (g ++ x01 :: w1 :: w2 :: x00 :: attribut ++ post)
    = Ret (stc, (len g + 12, true))
    /\ pending stc = w1 :: w2 :: x00 :: attribut /\ wr stc = []
    /\ marker_found stc = true
    /\ container (g ++ x01 :: w1 :: w2 :: x00 :: attribut ++ post)
       = Some (w1 :: w2 :: x00 :: attribut ++ post).
Proof.
  intros (stg & Eg & Hm). destruct (quiet_stale g stg Eg Hm) as [Hcig Hse].
  destruct (carvLoop_signature stg (0 + len g) w1 w2 post Hcig Hm)
    as (stc & E & Hp & Hw & Hf).
  assert (Ec : carvVBA fresh (g ++ x01 :: w1 :: w2 :: x00 :: attribut ++ post)
               = Ret (stc, (len g + 12, true))).
  { unfold carvVBA in *. rewrite carvLoop_app, Eg, E. done. }
  exists stc. split; [done|]. split; [done|]. split.
  { rewrite Hw. by destruct Hse as (<- & _). }
  split; [done|]. unfold container, carved. rewrite Ec, Hp. do 2 f_equal.
  replace (Z.to_nat (len g + 12)) with (length g + 12)%nat by (unfold len; lia).
  rewrite drop_app_add'; [|done]. done.
Qed.

(** X7 with the garbage "garbage" before [demo]. *)
Lemma signature_behind_quiet_garbage_witness :
  quiet [x67; x61; x72; x62; x61; x67; x65]
  /\ container ([x67; x61; x72; x62; x61; x67; x65]
                  ++ x01 :: x08 :: xb0 :: x00 :: attribut ++ [x03; xb0; x02; x41; x00; x00])
     = Some (x08 :: xb0 :: x00 :: attribut ++ [x03; xb0; x02; x41; x00; x00]).
Proof.
  assert (Hq : quiet [x67; x61; x72; x62; x61; x67; x65]).
  { apply quiet_no01. repeat constructor; discriminate. }
  split; [exact Hq|].
  destruct (signature_behind_quiet_garbage [x67; x61; x72; x62; x61; x67; x65]
              x08 xb0 [x03; xb0; x02; x41; x00; x00] Hq) as (stc & _ & _ & _ & _ & H).
  exact H.
Defined.

(** ** A writer of New *)

(** [NewWriter] is [new], the assignment of [wr], and [init]. *)
Lemma NewWriter_init {W : Type} (w : W) : NewWriter w = init (New w).
Proof. reflexivity. Qed.

Section NewWriter.
Context {W : Type} `{!Writer W}.

Lemma carvStep_New (w : W) c :
  carvStep (New w) c = if Byte.eqb c x01 then Panic else Ret (New w).
Proof.
  unfold carvStep. cbn [New marker_cur Z.eqb orb].
  change (index marker 0) with (Ret x01 : outcome byte). cbn [obind].
  destruct (Byte.eqb c x01); done.
Qed.

Lemma carvLoop_New_rest (w : W) b : forall i,
  x01 ∉ b -> carvLoop (New w) i b = Ret (New w, (0, false)).
Proof.
  induction b as [|c b IH]; intros i Hn; [done|].
  apply not_elem_of_cons in Hn as [Hc Hb].
  cbn [carvLoop]. rewrite carvStep_New.
  destruct (Byte.eqb c x01) eqn:Ec; [by apply byte_dec_bl in Ec|].
  cbn [obind]. change (marker_cur (New w) =? mlen) with false. cbn iota. by apply IH.
Qed.

Lemma carvLoop_New_panic (w : W) b : forall i,
  x01 ∈ b -> carvLoop (New w) i b = Panic.
Proof.
  induction b as [|c b IH]; intros i Hin; [by apply elem_of_nil in Hin|].
  cbn [carvLoop]. rewrite carvStep_New.
  destruct (Byte.eqb c x01) eqn:Ec; [done|].
  cbn [obind]. change (marker_cur (New w) =? mlen) with false. cbn iota.
  apply IH. apply elem_of_cons in Hin as [Heq|]; [|done].
  rewrite <- Heq in Ec. discriminate Ec.
Qed.

(** X8.  A writer of [New] has no buffers: [Write] panics on the first
    byte 0x01 of its input, where the carver stores into the nil
    buffer, and on input without 0x01 it returns [len b] and stays as
    it is.  The underlying writer is never called. *)
Theorem New_writer_has_no_buffers (w : W) (b : list byte) :
  (x01 ∈ b -> Write (New w) b = Panic)
  /\ (x01 ∉ b -> Write (New w) b = Ret (New w, (len b, None))).
Proof.
  unfold Write, carvVBA. cbn [New marker_found negb]. fold (New w). split; intros H.
  - by rewrite carvLoop_New_panic.
  - by rewrite carvLoop_New_rest.
Qed.
End NewWriter.

(** X8 on input with and without a byte 0x01. *)
Lemma New_writer_has_no_buffers_witness :
  Write (New ([] : Log)) [x41; x01; x42] = Panic
  /\ Write (New ([] : Log)) [x41; x42] = Ret (New [], (2, None)).
Proof.
  destruct (New_writer_has_no_buffers ([] : Log) [x41; x01; x42]) as [H1 _].
  destruct (New_writer_has_no_buffers ([] : Log) [x41; x42]) as [_ H2].
  split.
  - apply H1. right. left.
  - apply H2. intros H. repeat (apply elem_of_cons in H as [H|H]; [discriminate H|]).
    by apply elem_of_nil in H.
Defined.

(** ** Chunks of literals *)

Lemma literalGroups_short lits :
  (0 < length lits < 8)%nat -> literalGroups lits = x00 :: lits.
Proof.
  intros H. destruct lits as [|a [|b [|c [|d [|e [|f [|g [|h rest]]]]]]]]; try done;
    cbn [length] in H; lia.
Qed.

Lemma literalGroups_len lits : len lits <= len (literalGroups lits).
Proof.
  induction lits as [lits Hs|a b c d e f g h rest IH] using lits8_ind.
  - destruct lits as [|x lits]; [done|].
    rewrite literalGroups_short by (cbn [length] in *; lia). unfold len. cbn [length]. lia.
  - unfold len in *. cbn [literalGroups length]. lia.
Qed.

Section Literals.
Variables (cbuf : list byte) (cend : Z).

Lemma chunkLoop_literals : forall lits fuel s,
  dwf 0 s -> 0 <= dCur s ->
  seg (Z.to_nat (dCur s)) (literalGroups lits) cbuf ->
  cend = dCur s + len (literalGroups lits) ->
  cend - dCur s <= Z.of_nat fuel ->
  dSize s + len lits <= VBABuffSize ->
  exists ub,
    chunkLoop fuel cbuf cend 0 s = Ret (mkD cend ub (dSize s + len lits))
    /\ len ub = VBABuffSize
    /\ take (Z.to_nat (dSize s + len lits)) ub
       = take (Z.to_nat (dSize s)) (dBuf s) ++ lits.
Proof.
  intros lits. induction lits as [lits Hr|a b c d e f g h rest IH] using lits8_ind;
    intros fuel s Hw Hc Hseg Hend Hfuel Hk.
  - pose proof Hw as (Hw0 & Hw1 & Hw2).
    destruct (decide (lits = [])) as [->|Hne].
    { change (len (literalGroups [])) with 0 in Hend. change (len []) with 0.
      rewrite chunkLoop_at_end by lia. exists (dBuf s).
      rewrite !Z.add_0_r, app_nil_r. rewrite Z.add_0_r in Hend. subst cend.
      destruct s; done. }
    assert (Hpos : (0 < length lits < 8)%nat) by (destruct lits; [done|cbn in *; lia]).
    rewrite literalGroups_short in Hseg, Hend by done.
    apply seg_cons in Hseg as [Hfb Hlits].
    unfold len in Hend. cbn [List.length] in Hend.
    destruct fuel as [|fuel]; [lia|]. cbn [chunkLoop].
    destruct (Z.ltb_spec (dCur s) cend); [|lia].
    assert (Ei : index cbuf (dCur s) = Ret x00) by (by apply index_Ret).
    rewrite Ei. cbn [obind].
    replace 8%nat with (List.length lits + (8 - List.length lits))%nat by lia.
    rewrite group_app.
    destruct (group_literals cbuf cend x00 lits 0 (mkD (dCur s + 1) (dBuf s) (dSize s)))
      as (ub1 & -> & Hl1 & Ht1); cbn [dCur dSize dBuf].
    { intros i _. apply flagBit_x00. }
    { lia. }
    { replace (Z.to_nat (dCur s + 1)) with (S (Z.to_nat (dCur s))) by lia. done. }
    { unfold len. lia. }
    { lia. }
    { lia. }
    cbn [obind]. cbn [dCur dSize dBuf] in Hl1, Ht1.
    rewrite group_skip by (cbn [dCur]; unfold len; lia). cbn [obind].
    rewrite chunkLoop_at_end by (cbn [dCur]; unfold len; lia).
    exists ub1. split_and!; [|lia|done].
    do 2 f_equal. unfold len. lia.
  - pose proof Hw as (Hw0 & Hw1 & Hw2).
    set (l8 := [a; b; c; d; e; f; g; h]).
    change (literalGroups (a :: b :: c :: d :: e :: f :: g :: h :: rest))
      with (x00 :: l8 ++ literalGroups rest) in Hseg, Hend.
    apply seg_cons in Hseg as [Hfb Hseg]. apply seg_app in Hseg as [Hlits Hrest].
    unfold len in Hend. cbn [List.length] in Hend. rewrite length_app in Hend.
    change (List.length l8) with 8%nat in Hend, Hrest.
    assert (Hkk : len (a :: b :: c :: d :: e :: f :: g :: h :: rest) = 8 + len rest).
    { unfold len. cbn [List.length]. lia. }
    rewrite Hkk in Hk |- *. pose proof (len_nonneg rest).
    destruct fuel as [|fuel]; [lia|]. cbn [chunkLoop].
    destruct (Z.ltb_spec (dCur s) cend); [|lia].
    assert (Ei : index cbuf (dCur s) = Ret x00) by (by apply index_Ret).
    rewrite Ei. cbn [obind].
    destruct (group_literals cbuf cend x00 l8 0 (mkD (dCur s + 1) (dBuf s) (dSize s)))
      as (ub1 & E1 & Hl1 & Ht1); cbn [dCur dSize dBuf].
    { intros i _. apply flagBit_x00. }
    { lia. }
    { replace (Z.to_nat (dCur s + 1)) with (S (Z.to_nat (dCur s))) by lia. done. }
    { change (len l8) with 8. lia. }
    { lia. }
    { change (len l8) with 8. unfold VBABuffSize in *. lia. }
    cbn [dCur dSize dBuf] in Hl1, Ht1.
    change (List.length l8) with 8%nat in E1. change (len l8) with 8 in E1, Ht1.
    rewrite E1. cbn [obind].
    destruct (IH fuel (mkD (dCur s + 1 + 8) ub1 (dSize s + 8)))
      as (ub & E & Hl & Ht); cbn [dCur dSize dBuf].
    { unfold dwf. cbn [dSize dBuf]. unfold VBABuffSize in *. lia. }
    { lia. }
    { replace (Z.to_nat (dCur s + 1 + 8)) with (S (Z.to_nat (dCur s)) + 8)%nat by lia. done. }
    { unfold len. lia. }
    { lia. }
    { lia. }
    cbn [dCur dSize dBuf] in E, Ht.
    exists ub. rewrite E. split_and!; [|done|].
    + do 2 f_equal. lia.
    + replace (dSize s + (8 + len rest)) with (dSize s + 8 + len rest) by lia.
      rewrite Ht, Ht1. rewrite <- app_assoc. done.
Qed.
End Literals.

(** X9.  A chunk with the compressed flag 1 whose token groups hold only
    literals, eight under each flag byte 0x00, decodes to these literals,
    in any writer behind the signature that has the chunk at the front of
    its buffer. *)
Theorem literal_chunk_decodes (h0 h1 : byte) (lits : list byte) :
  let c := h0 :: h1 :: literalGroups lits in
  let h := le16 h0 h1 in
  chunkSignature h = 3 -> chunkFlag h = 1 -> chunkSize h = len c ->
  chunkOut c = Some lits
  /\ forall (st : VBAWriter Log) t, WF st -> pending st = c ++ t ->
       exists st', uncompressChunk st = Ret (st', (len c, None))
         /\ uSize st' = len lits
         /\ take (Z.to_nat (uSize st')) (uncompressedBuffer st') = lits.
Proof.
  intros c h Hs Hf Hz. pose proof (chunkSize_range h) as Hr.
  pose proof (literalGroups_len lits) as Hll. pose proof (len_nonneg lits) as Hl0.
  assert (Hlc : len c = 2 + len (literalGroups lits)).
  { unfold c, len. cbn [length]. lia. }
  assert (Hout : chunkOut c = Some lits).
  { unfold chunkOut.
    rewrite (uncompressChunk_compressed _ h);
      [|by apply loaded_header|done|unfold loaded; cbn [cSize]; lia|lia].
    set (cb := compressedBuffer (loaded c)).
    set (ub0 := uncompressedBuffer (set_uSize 0 (loaded c))).
    destruct (chunkLoop_literals cb (chunkSize h) lits (Z.to_nat (chunkSize h - 2))
                (mkD 2 ub0 0)) as (ub & E & Hl & Ht); cbn [dCur dSize dBuf].
    - assert (Hub0 : len ub0 = VBABuffSize).
      { unfold ub0, loaded, len. cbn [uncompressedBuffer set_uSize].
        rewrite length_replicate. unfold VBABuffSize. lia. }
      unfold dwf. cbn [dSize dBuf]. rewrite Hub0. unfold VBABuffSize. lia.
    - lia.
    - assert (Ecb : cb = [h0; h1] ++ (literalGroups lits
                       ++ replicate (Z.to_nat VBABuffSize - length c) x00)) by reflexivity.
      unfold seg. rewrite Ecb. change (Z.to_nat 2) with 2%nat.
      rewrite (drop_app_length' [h0; h1]) by done. by rewrite take_app_length.
    - lia.
    - lia.
    - unfold VBABuffSize. lia.
    - rewrite Z.add_0_l in E, Ht.
      unfold ub0 in E. cbn [uncompressedBuffer set_uSize] in E.
      fold cb. rewrite E. cbn [obind dCur dSize dBuf uSize uncompressedBuffer
        set_uSize set_uncompressedBuffer].
      rewrite Hz, Z.eqb_refl. f_equal. rewrite Ht. change (Z.to_nat 0) with 0%nat.
      rewrite take_0. done. }
  split; [exact Hout|]. intros st t Hwf Hp.
  destruct (uncompressChunk_valid st c t lits Hwf Hp) as (ub & E & Hlu & Htk).
  { exists h. split_and!; done. }
  eexists. split; [exact E|]. cbn [uSize uncompressedBuffer set_uSize set_uncompressedBuffer].
  split; [done|exact Htk].
Qed.

(** X9 at the chunk that the signature [01 08 b0 00 Attribut] holds. *)
Lemma literal_chunk_decodes_witness :
  literalGroups attribut = x00 :: attribut
  /\ chunkOut ([x08; xb0] ++ x00 :: attribut) = Some attribut.
Proof.
  split; [reflexivity|].
  destruct (literal_chunk_decodes x08 xb0 attribut) as [H _].
  - vm_compute. reflexivity.
  - vm_compute. reflexivity.
  - vm_compute. reflexivity.
  - exact H.
Defined.

(** ** A sink that fails *)

Section SinkFails.
Context {W : Type} `{!Writer W}.
Implicit Type st : VBAWriter W.

(** X10.  When the underlying writer returns an error, or no error but
    a count other than the number of bytes it was given, [uncompress]
    returns with that error, or with the short-write error, and the
    count of the chunk; the chunk is still in the accumulation
    buffer. *)
Theorem sink_failure_keeps_chunk st st1 p w' n oe :
  len (uncompressedBuffer st) = VBABuffSize -> 0 < cSize st ->
  uncompressChunk st = Ret (st1, (p, None)) -> p <> 0 -> uSize st1 <> 0 ->
  wr_Write (wr st1) (take (Z.to_nat (uSize st1)) (uncompressedBuffer st1)) = (w', (n, oe)) ->
  (oe <> None \/ n <> uSize st1) ->
  uncompress st
  = Ret (set_wr w' st1,
         (p, Some (match oe with Some e => e | None => ErrShortWrite end)))
  /\ cSize (set_wr w' st1) = cSize st
  /\ compressedBuffer (set_wr w' st1) = compressedBuffer st.
Proof.
  intros Hlu Hc E Hp Hu Hw Hfail.
  pose proof (uncompressChunk_frame _ _ _ _ E) as (_ & F1 & F2 & _).
  split; [|done].
  destruct (headerOf (compressedBuffer st)) as [h| |] eqn:Eh;
    [|unfold uncompressChunk in E; rewrite Eh in E; discriminate..].
  destruct (uncompressChunk_Ret st st1 p h Hlu Eh E Hp) as (_ & _ & _ & Hus & Hl1 & _).
  rewrite uncompress_unfold, uncompressLoop_step by done. rewrite E. cbn [obind].
  destruct (Z.eqb_spec p 0); [done|]. unfold flushChunk, writeOut.
  destruct (Z.eqb_spec (uSize st1) 0); [lia|]. cbn [negb].
  rewrite slice_in by lia. rewrite Z.sub_0_r. change (Z.to_nat 0) with 0%nat.
  rewrite drop_0, Hw. rewrite Z.add_0_l.
  destruct oe as [e|]; [done|].
  destruct Hfail as [|Hn]; [done|]. cbn [uSize set_wr].
  destruct (Z.eqb_spec n (uSize st1)); [lia|done].
Qed.
End SinkFails.

(** X10 on a sink that refuses and on one that takes a byte less. *)
Lemma sink_failure_keeps_chunk_witness :
  (exists st', uncompress (loadedOn Refuse [x03; xb0; x02; x41; x07; x00])
               = Ret (st', (6, Some ErrWriter)) /\ cSize st' = 6)
  /\ (exists st', uncompress (loadedOn Truncate [x03; xb0; x02; x41; x07; x00])
                  = Ret (st', (6, Some ErrShortWrite)) /\ cSize st' = 6).
Proof.
  assert (E : forall w : Faulty, exists st1,
    uncompressChunk (loadedOn w [x03; xb0; x02; x41; x07; x00]) = Ret (st1, (6, None))
    /\ uSize st1 = 11 /\ wr st1 = w
    /\ length (uncompressedBuffer st1) = 4098%nat).
  { intros w. eexists. split; [vm_compute; reflexivity|]. split; [reflexivity|].
    split; [reflexivity|]. vm_compute. reflexivity. }
  split.
  - destruct (E Refuse) as (st1 & E1 & Hu & Hw & _).
    destruct (sink_failure_keeps_chunk (loadedOn Refuse [x03; xb0; x02; x41; x07; x00])
                st1 6 Refuse 0 (Some ErrWriter)) as (H1 & H2 & _).
    + vm_compute. reflexivity.
    + vm_compute. reflexivity.
    + exact E1.
    + discriminate.
    + rewrite Hu. discriminate.
    + rewrite Hw. reflexivity.
    + left. discriminate.
    + eexists. split; [exact H1|]. rewrite H2. reflexivity.
  - destruct (E Truncate) as (st1 & E1 & Hu & Hw & Hl).
    destruct (sink_failure_keeps_chunk (loadedOn Truncate [x03; xb0; x02; x41; x07; x00])
                st1 6 Truncate 10 None) as (H1 & H2 & _).
    + vm_compute. reflexivity.
    + vm_compute. reflexivity.
    + exact E1.
    + discriminate.
    + rewrite Hu. discriminate.
    + rewrite Hw. unfold wr_Write, faultyWriter. do 2 f_equal.
      unfold len. rewrite length_take, Hl, Hu. reflexivity.
    + right. rewrite Hu. discriminate.
    + eexists. split; [exact H1|]. rewrite H2. reflexivity.
Defined.

(** ** Chunks in any writer behind the signature *)

(** X11.  What a chunk decodes to does not depend on the writer: with the
    whole chunk [c] at the front of the buffer of a writer behind the
    signature, whatever follows it and whatever the output buffer holds
    from before, the decode consumes [len c] bytes and produces the bytes
    that [c] decodes to on its own. *)
Theorem chunk_decodes_the_same_anywhere (st : VBAWriter Log) (c t out : list byte) :
  WF st -> pending st = c ++ t -> validChunk c out ->
  exists st',
    uncompressChunk st = Ret (st', (len c, None))
    /\ uSize st' = len out
    /\ take (Z.to_nat (uSize st')) (uncompressedBuffer st') = out
    /\ chunkOut c = Some out.
Proof.
  intros Hwf Hp Hv. destruct (uncompressChunk_valid st c t out Hwf Hp Hv) as (ub & E & _ & Ht).
  eexists. split; [exact E|]. split; [done|]. split; [exact Ht|].
  by destruct Hv as (h & _ & _ & _ & ?).
Qed.

(** X11 with two more bytes behind the chunk. *)
Lemma chunk_decodes_the_same_anywhere_witness :
  exists st',
    uncompressChunk (loaded ([x03; xb0; x02; x41; x07; x00] ++ [x05; x06]))
    = Ret (st', (6, None))
    /\ take (Z.to_nat (uSize st')) (uncompressedBuffer st') = x41 :: replicate 10 x41.
Proof.
  destruct (chunk_decodes_the_same_anywhere
              (loaded ([x03; xb0; x02; x41; x07; x00] ++ [x05; x06]))
              [x03; xb0; x02; x41; x07; x00] [x05; x06] (x41 :: replicate 10 x41))
    as (st' & E & _ & Ht & _).
  - apply loaded_WF. vm_compute. split; discriminate.
  - vm_compute. reflexivity.
  - exists 0xB003. split_and!; vm_compute; reflexivity.
  - exists st'. split; [exact E|exact Ht].
Defined.

(** X12.  [Write] behind the signature, with room in the buffer: when the
    bytes held and the bytes written are whole chunks and the beginning of
    a further one, [Write] returns [len b], hands the output of the chunks
    to the sink in their order, and keeps the beginning of the further
    chunk; when no chunk is complete, nothing is written and the bytes
    written are appended to the bytes held. *)
Theorem Write_behind_signature (st : VBAWriter Log) (b : list byte) outs r :
  WF st -> cSize st < VBABuffSize -> b <> [] ->
  chunks (pending st ++ b) outs r ->
  exists st',
    Write st b = Ret (st', (len b, None))
    /\ wr st' = wr st ++ flushes outs /\ pending st' = r
    /\ WF st' /\ cSize st' < VBABuffSize
    /\ (outs = [] -> wr st' = wr st /\ pending st' = pending st ++ b).
Proof.
  intros Hwf Hc Hb Hch.
  destruct (Write_found st b outs r Hwf Hc Hb Hch) as (st' & E & Hw & Hp & Hwf' & _).
  exists st'. split_and!; try done.
  - rewrite <- (len_pending st' Hwf'), Hp. apply chunks_incomplete in Hch.
    by apply incomplete_short.
  - intros ->. unfold flushes in Hw. cbn in Hw. rewrite app_nil_r in Hw. split; [done|].
    rewrite Hp. by inversion Hch.
Qed.

(** X12 on three bytes held and four written. *)
Lemma Write_behind_signature_witness :
  exists st',
    Write (loaded [x03; xb0; x02]) [x41; x07; x00; x05] = Ret (st', (4, None))
    /\ wr st' = [x41 :: replicate 10 x41] /\ pending st' = [x05].
Proof.
  assert (Hwf : WF (loaded [x03; xb0; x02])) by (apply loaded_WF; vm_compute; split; discriminate).
  destruct (Write_behind_signature (loaded [x03; xb0; x02]) [x41; x07; x00; x05]
              [x41 :: replicate 10 x41] [x05] Hwf) as (st' & E & Hw & Hp & _).
  - vm_compute. reflexivity.
  - discriminate.
  - apply (decodeChunks_sound 2). vm_compute. reflexivity.
  - exists st'. split; [exact E|]. split; [exact Hw|exact Hp].
Defined.

(** X13.  However a valid stream is cut into writes, empty ones included,
    the session leaves the same sink, bytes held and carver state as the
    one write of the whole stream. *)
Theorem any_cut_same_output (ws : list (list byte)) :
  validStream (concat ws) ->
  exists st1 st2 n,
    Write fresh (concat ws) = Ret (st1, (len (concat ws), None))
    /\ writeAll fresh ws = Ret (st2, (n, None))
    /\ wr st1 = wr st2 /\ pending st1 = pending st2
    /\ marker_cur st1 = marker_cur st2 /\ marker_found st1 = marker_found st2.
Proof.
  intros Hv%validStream_ok.
  destruct (Write_J fresh [] (concat ws) J_fresh Hv) as (st1 & E1 & J1).
  destruct (writeAll_J ws fresh [] J_fresh Hv) as (st2 & n & E2 & J2).
  exists st1, st2, n. split; [done|]. split; [done|]. by apply (J_det _ _ (concat ws)).
Qed.

(** X13 at [demo] in four writes, one of them empty. *)
Lemma any_cut_same_output_witness :
  exists st1 st2 n,
    Write fresh demo = Ret (st1, (len demo, None))
    /\ writeAll fresh [take 2 demo; []; take 9 (drop 2 demo); drop 11 demo]
       = Ret (st2, (n, None))
    /\ wr st1 = wr st2 /\ pending st1 = pending st2.
Proof.
  destruct (any_cut_same_output [take 2 demo; []; take 9 (drop 2 demo); drop 11 demo])
    as (st1 & st2 & n & E1 & E2 & Hw & Hp & _).
  - exact demo_valid.
  - exists st1, st2, n. split; [exact E1|]. split; [exact E2|]. split; [exact Hw|exact Hp].
Defined.

(** ** The carver is left for good *)

Section Found.
Context {W : Type} `{!Writer W}.
Implicit Type st : VBAWriter W.

Lemma flushChunk_marker st total processed :
  match flushChunk st total processed with
  | inl (Ret (st', _)) | inr st' => markerOf st' = markerOf st
  | _ => True
  end.
Proof.
  unfold flushChunk, writeOut, shiftLeft.
  repeat match goal with
  | |- context [slice ?a ?b ?c] => destruct (slice a b c)
  | |- context [copy_into ?a ?b ?c ?d] => destruct (copy_into a b c d)
  | |- context [wr_Write ?a ?b] => destruct (wr_Write a b) as [? [? [?|]]]
  | |- context [if ?c then _ else _] => destruct c
  end; done.
Qed.

Lemma uncompressLoop_marker fuel : forall st total st' r,
  uncompressLoop fuel st total = Ret (st', r) -> markerOf st' = markerOf st.
Proof.
  induction fuel as [|fuel IH]; intros st total st' r H.
  { cbn in H. destruct (_ >? _); [done|]. by injection H as <-. }
  cbn [uncompressLoop] in H. destruct (_ >? _); [|by injection H as <-].
  destruct (uncompressChunk st) as [[st1 [p e]]| |] eqn:E; cbn [obind] in H; try done.
  assert (E1 : markerOf st1 = markerOf st).
  { apply uncompressChunk_frame in E as (_ & _ & _ & Hc & Hf). unfold markerOf. congruence. }
  destruct e; [by injection H as <-|].
  destruct (p =? 0); [by injection H as <-|].
  pose proof (flushChunk_marker st1 (total + p) p) as Hm.
  destruct (flushChunk st1 (total + p) p) as [[[st2 r2]| |]|st2]; try done.
  - injection H as <- <-. congruence.
  - apply IH in H. congruence.
Qed.

Lemma fill_marker st b offset ba va st' o' :
  fill st b offset ba va = Ret (st', o') -> markerOf st' = markerOf st.
Proof.
  unfold fill. destruct (_ <? _).
  all: destruct (slice _ _ _); cbn [obind]; try done.
  all: destruct (copy_into _ _ _ _); cbn [obind]; try done.
  all: by intros [= <- <-].
Qed.

Lemma writeLoop_marker fuel : forall st b offset ba va total st' r,
  writeLoop fuel st b offset ba va total = Ret (st', r) -> markerOf st' = markerOf st.
Proof.
  induction fuel as [|fuel IH]; intros st b offset ba va total st' r H.
  { cbn in H. destruct (_ >? _); [done|]. by injection H as <-. }
  cbn [writeLoop] in H. destruct (_ >? _); [|by injection H as <-].
  destruct (fill _ _ _ _ _) as [[st1 o1]| |] eqn:Ef; cbn [obind] in H; try done.
  apply fill_marker in Ef.
  destruct (uncompress st1) as [[st2 [p e]]| |] eqn:Eu; cbn [obind] in H; try done.
  apply uncompressLoop_marker in Eu.
  destruct e; [injection H as <- <-; congruence|].
  apply IH in H. congruence.
Qed.

(** X14.  Once the signature is found it stays found: [Write] on such a
    writer does not run the carver, takes all of [b] as compressed
    bytes, and leaves [marker.found] and [marker.cur] as they are. *)
Theorem found_is_for_good st b st' r :
  marker_found st = true -> Write st b = Ret (st', r) ->
  marker_found st' = true /\ marker_cur st' = marker_cur st
  /\ Write st b = writeBody st b 0.
Proof.
  intros Hf H. unfold Write in *. rewrite Hf in *. cbn [negb] in *.
  apply writeLoop_marker in H. unfold markerOf in H. injection H as Hc Hf'.
  split_and!; [congruence|done|done].
Qed.
End Found.

(** X14: bytes that look like the beginning of a signature, written behind
    the signature. *)
Lemma found_is_for_good_witness :
  exists st1 n st2 r,
    Write fresh signature = Ret (st1, (n, None)) /\ marker_found st1 = true
    /\ Write st1 [x01; x2e; x2e; x00] = Ret (st2, r) /\ marker_found st2 = true
    /\ marker_cur st2 = 12.
Proof.
  assert (E1 : exists st1 n, Write fresh signature = Ret (st1, (n, None))
                 /\ marker_found st1 = true /\ marker_cur st1 = 12).
  { eexists _, _. split; [vm_compute; reflexivity|]. split; reflexivity. }
  destruct E1 as (st1 & n & E1 & Hf & Hc).
  assert (E2 : exists st2 r, Write st1 [x01; x2e; x2e; x00] = Ret (st2, r)).
  { assert (E1' := E1). vm_compute in E1'. injection E1' as <- _.
    eexists _, _. vm_compute. reflexivity. }
  destruct E2 as (st2 & r & E2).
  destruct (found_is_for_good st1 [x01; x2e; x2e; x00] st2 r Hf E2) as (Hf2 & Hc2 & _).
  exists st1, n, st2, r. split; [exact E1|]. split; [exact Hf|]. split; [exact E2|].
  split; [exact Hf2|]. rewrite Hc2. exact Hc.
Defined.

(** ** The sink only grows *)

Lemma writeOut_log (st : VBAWriter Log) total :
  0 <= uSize st <= len (uncompressedBuffer st) ->
  writeOut st total
  = inr (set_uSize 0 (set_wr (wr st ++
       flushes [take (Z.to_nat (uSize st)) (uncompressedBuffer st)]) st)).
Proof.
  intros Hu. unfold writeOut.
  destruct (Z.eqb_spec (uSize st) 0) as [E|E]; cbn [negb].
  - rewrite E. change (Z.to_nat 0) with 0%nat. rewrite take_0.
    unfold flushes. cbn. rewrite app_nil_r. destruct st; cbn in *. by subst.
  - rewrite slice_in by lia. rewrite Z.sub_0_r. change (Z.to_nat 0) with 0%nat.
    rewrite drop_0. unfold wr_Write, logWriter.
    assert (El : len (take (Z.to_nat (uSize st)) (uncompressedBuffer st)) = uSize st).
    { unfold len in *. rewrite length_take_le; lia. }
    rewrite El, Z.eqb_refl. cbn [negb]. do 3 f_equal.
    unfold flushes. cbn [filter list_filter].
    destruct (decide _) as [|Hn]; [done|]. exfalso. apply Hn. intros Hnil.
    rewrite Hnil in El. unfold len in El. cbn [length] in El. lia.
Qed.

Lemma flushChunk_grows (st : VBAWriter Log) total processed :
  0 <= uSize st <= len (uncompressedBuffer st) ->
  match flushChunk st total processed with
  | inl (Ret (st', _)) | inr st' =>
      wr st' = wr st ++ flushes [take (Z.to_nat (uSize st)) (uncompressedBuffer st)]
  | _ => True
  end.
Proof.
  intros Hu. unfold flushChunk. rewrite writeOut_log by done. unfold shiftLeft.
  repeat match goal with
  | |- context [slice ?a ?b ?c] => destruct (slice a b c)
  | |- context [copy_into ?a ?b ?c ?d] => destruct (copy_into a b c d)
  | |- context [if ?c then _ else _] => destruct c
  end; done.
Qed.

Lemma flushes_block (d : list byte) : len d <= VBABuffSize -> Forall block (flushes [d]).
Proof.
  intros Hl. unfold flushes. cbn [filter list_filter].
  destruct (decide _) as [Hne|]; [|constructor]. constructor; [|constructor].
  unfold block. split; [|done]. destruct d; [done|]. unfold len. cbn [length]. lia.
Qed.

Lemma uncompressLoop_grows fuel : forall (st : VBAWriter Log) total st' r,
  Bounded st -> uncompressLoop fuel st total = Ret (st', r) ->
  exists blocks, wr st' = wr st ++ blocks /\ Forall block blocks.
Proof.
  induction fuel as [|fuel IH]; intros st total st' r Hb H.
  { cbn in H. destruct (_ >? _); [done|]. injection H as <- _.
    exists []. by rewrite app_nil_r. }
  cbn [uncompressLoop] in H.
  destruct (_ >? _); [|injection H as <- _; exists []; by rewrite app_nil_r].
  pose proof Hb as (Hc & Hu & Hs).
  destruct (uncompressChunk st) as [[st1 [p e]]| |] eqn:E; cbn [obind] in H; try done.
  pose proof (uncompressChunk_frame _ _ _ _ E) as (Fw & F1 & F2 & _).
  destruct (uncompressChunk_bounds st st1 p e Hu E) as (Hl1 & Hu1 & Hp).
  destruct e; [injection H as <- _; exists []; by rewrite app_nil_r, Fw|].
  destruct (Z.eqb_spec p 0); [injection H as <- _; exists []; by rewrite app_nil_r, Fw|].
  pose proof (flushChunk_grows st1 (total + p) p ltac:(lia)) as Hg.
  assert (Hbl : Forall block (flushes [take (Z.to_nat (uSize st1)) (uncompressedBuffer st1)])).
  { apply flushes_block. unfold len in *. rewrite length_take. lia. }
  assert (Hb1 : Bounded st1) by (unfold Bounded; rewrite F1, F2; done).
  destruct (flushChunk st1 (total + p) p) as [[[st2 r2]| |]|st2] eqn:Ef; try done.
  - injection H as <- _. eexists. split; [by rewrite Hg, Fw|done].
  - apply flushChunk_inr in Ef as [Hb2 _]; [|done|lia].
    destruct (IH st2 (total + p) st' r Hb2 H) as (blocks & Hw & Hbs).
    eexists. split; [rewrite Hw, Hg, Fw, <- app_assoc; reflexivity|].
    by apply Forall_app.
Qed.

Lemma writeLoop_grows fuel : forall (st : VBAWriter Log) b offset st' r,
  Bounded st -> 0 <= offset ->
  writeLoop fuel st b offset (len b - offset) (VBABuffSize - cSize st) 0 = Ret (st', r) ->
  exists blocks, wr st' = wr st ++ blocks /\ Forall block blocks.
Proof.
  induction fuel as [|fuel IH]; intros st b offset st' r Hb Ho H.
  { cbn in H. destruct (_ >? _); [done|]. injection H as <- _.
    exists []. by rewrite app_nil_r. }
  cbn [writeLoop] in H.
  destruct (_ >? _); [|injection H as <- _; exists []; by rewrite app_nil_r].
  destruct (fill _ _ _ _ _) as [[st1 o1]| |] eqn:Ef; cbn [obind] in H; try done.
  assert (Hw1 : wr st1 = wr st).
  { revert Ef. unfold fill. destruct (_ <? _).
    all: destruct (slice _ _ _); cbn [obind]; try done.
    all: destruct (copy_into _ _ _ _); cbn [obind]; try done.
    all: by intros [= <- _]. }
  apply fill_Ret in Ef as (? & -> & ? & Hb1); [|done..].
  destruct (uncompress st1) as [[st2 [p e]]| |] eqn:Eu; cbn [obind] in H; try done.
  pose proof (uncompressLoop_Bounded _ _ _ _ _ Hb1 Eu) as Hb2.
  apply uncompressLoop_grows in Eu as (bl1 & Hw2 & Hbl1); [|done].
  destruct e; [injection H as <- _; exists bl1; by rewrite Hw2, Hw1|].
  apply IH in H as (bl2 & Hw3 & Hbl2); [|done|lia].
  exists (bl1 ++ bl2). split; [by rewrite Hw3, Hw2, Hw1, app_assoc|by apply Forall_app].
Qed.

Lemma carvLoop_wr {W : Type} `{!Writer W} (b : list byte) : forall (st : VBAWriter W) i st' r,
  carvLoop st i b = Ret (st', r) -> wr st' = wr st.
Proof.
  induction b as [|c b IH]; intros st i st' r H; [by injection H as <-|].
  cbn [carvLoop] in H. destruct (carvStep st c) as [st1| |] eqn:E; cbn [obind] in H; try done.
  assert (E1 : wr st1 = wr st).
  { revert E. unfold carvStep.
    repeat match goal with
    | |- context [store ?a ?b ?c] => destruct (store a b c); cbn [obind]
    | |- context [index ?a ?b] => destruct (index a b); cbn [obind]
    | |- context [if ?c then _ else _] => destruct c
    end; try done; by intros [= <-]. }
  destruct (_ =? _); [injection H as <- _; done|]. apply IH in H. congruence.
Qed.

(** X15.  Whatever [Write] returns, an error included, the sink holds what
    it held before and behind it the blocks of this call, each of 1 to
    4098 bytes: nothing that was written is taken back, and no empty block
    is written. *)
Theorem sink_only_grows (st : VBAWriter Log) b st' r :
  Bounded st -> Write st b = Ret (st', r) ->
  exists blocks, wr st' = wr st ++ blocks /\ Forall block blocks.
Proof.
  intros Hb H. unfold Write, writeBody in H. destruct (negb _).
  - unfold carvVBA in H. destruct (carvLoop_total st 0 b Hb) as [_ H2].
    destruct (carvLoop st 0 b) as [[st1 [off f]]| |] eqn:Ec; cbn [obind] in H; try done.
    destruct (H2 _ _ _ eq_refl) as [Hb1 Hoff]. apply carvLoop_wr in Ec.
    destruct f; cbn [negb] in H.
    + apply writeLoop_grows in H as (bl & Hw & ?); [|done|specialize (Hoff eq_refl); lia].
      exists bl. by rewrite Hw, Ec.
    + injection H as <- _. exists []. by rewrite app_nil_r.
  - apply writeLoop_grows in H; [done..|lia].
Qed.

(** X15 on a write that ends in an error. *)
Lemma sink_only_grows_witness :
  exists st1 n,
    Write fresh (signature ++ straddler) = Ret (st1, (n, Some (ErrNegativeCopySize (-1))))
    /\ exists blocks, wr st1 = wr fresh ++ blocks /\ Forall block blocks.
Proof.
  assert (E : exists st1 n,
    Write fresh (signature ++ straddler) = Ret (st1, (n, Some (ErrNegativeCopySize (-1)))))
    by (eexists _, _; vm_compute; reflexivity).
  destruct E as (st1 & n & E). exists st1, n. split; [exact E|].
  apply (sink_only_grows fresh (signature ++ straddler) st1 (n, Some (ErrNegativeCopySize (-1)))).
  - apply NewWriter_Bounded.
  - exact E.
Defined.
